(** * News aggregator: authorization and ownership enforcement

    A shallow embedding of the request handlers of the news aggregator
    (app/auth/dependencies.py, app/routers/auth.py, app/routers/source.py,
    app/routers/articles.py) over a relational store whose tables and
    constraints are those declared in app/models.py.

    Handlers are written in a small state-and-exception monad: the state is
    the committed content of the database, an exception is either the
    [HTTPException] a handler raises itself or a failure of the storage
    layer ([IntegrityError] on a violated constraint, [MultipleResultsFound]
    from [scalar_one_or_none]). *)

From Stdlib Require Import List ZArith String Bool Lia DecimalString.
Import ListNotations.
Open Scope Z_scope.
Open Scope string_scope.

Set Implicit Arguments.

(** ** Exceptions *)

(** [fastapi.status] constants used by the handlers. *)
Module status.
Definition HTTP_401_UNAUTHORIZED : Z := 401.
Definition HTTP_403_FORBIDDEN : Z := 403.
Definition HTTP_404_NOT_FOUND : Z := 404.
Definition HTTP_422_UNPROCESSABLE_ENTITY : Z := 422.
End status.

(** [HTTPException(status_code, detail, headers)]; [headers] is the list of
    the dictionary's items, empty when the argument is left out. *)
Record HTTPException := mkHTTPException {
  status_code : Z;
  detail : string;
  headers : list (string * string)
}.

(** What a request can raise.  The last three come from the storage layer and
    are not caught by any handler. *)
Inductive Exn :=
| HTTPError (e : HTTPException)
| IntegrityError
| MultipleResultsFound
| InvalidRequestError.


(** ** Tables (app/models.py)

    A column that a handler can assign [None] to is an [option]; the
    NOT NULL constraint on it is checked by the storage layer at commit
    (see [db_ok]).  [DateTime] values are seconds on the server's clock. *)

Module User.
Record t := mk {
  id : Z;
  username : string;
  email : string;
  password : string;
  role : string;
  created_at : Z
}.
End User.

Module Source.
Record t := mk {
  id : Z;
  name : option string;
  url : option string;
  description : option string;
  created_at : Z;
  author_id : Z
}.
End Source.

Module Article.
Record t := mk {
  id : Z;
  title : option string;
  summary : option string;
  content : option string;
  author_name : option string;
  source_id : Z;
  author_id : Z;
  created_at : Z
}.
End Article.

(** The content of the three tables.  A table is the list of its rows, in
    insertion order; uniqueness of keys is a constraint, not a property of
    the representation. *)
Record DB := mkDB {
  users : list User.t;
  sources : list Source.t;
  articles : list Article.t
}.

(** ** Request and response bodies (app/schemas.py)

    A field of an update body is [None] when the client left it out and
    [Some v] when the client supplied [v] (which may itself be null):
    [model_dump(exclude_unset=True)] keeps exactly the supplied ones. *)

Module TokenData.
Record t := mk { user_id : option Z; role : option string }.
End TokenData.

Module Token.
Record t := mk { access_token : string; token_type : string }.
End Token.

Module UserCreate.
Record t := mk { username : string; email : string; password : string }.
End UserCreate.

Module UserLogin.
Record t := mk { email : string; password : string }.
End UserLogin.

Module SourceCreate.
Record t := mk { name : string; url : string; description : option string }.
End SourceCreate.

Module SourceUpdate.
Record t := mk {
  name : option (option string);
  url : option (option string);
  description : option (option string)
}.
End SourceUpdate.

Module ArticleCreate.
Record t := mk {
  title : string;
  summary : option string;
  content : string;
  source_id : Z
}.
End ArticleCreate.

Module ArticleUpdate.
Record t := mk {
  title : option (option string);
  summary : option (option string);
  content : option (option string);
  author_name : option (option string)
}.
End ArticleUpdate.

(** ** The security module and the JWT library

    app/auth/security.py and [jose.jwt] are used by the handlers but are
    not part of the modelled sources; they are taken as parameters.  The
    claims of a token are typed as [get_current_user] annotates them. *)

(** [jose.exceptions]: [ExpiredSignatureError] and [JWTClaimsError] are
    subclasses of [JWTError], so [except JWTError] catches all three. *)
Inductive JWTError :=
| JWTError_base
| ExpiredSignatureError
| JWTClaimsError.

Class Security := {
  SECRET_KEY : string;
  ALGORITHM : string;
  ACCESS_TOKEN_EXPIRE_MINUTES : Z;
  get_password_hash : string -> string;
  verify_password : string -> string -> bool;
  (** [create_access_token(data, expires_delta)], [expires_delta] in minutes *)
  create_access_token : TokenData.t -> Z -> string;
  (** [jwt.decode(token, key, algorithms)]: the payload, or the error raised *)
  jwt_decode : string -> string -> list string -> JWTError + TokenData.t
}.

(** ** The storage layer

    The constraints of app/models.py that the database checks when a
    transaction is flushed: primary keys, the UNIQUE constraints
    [uq_users_username], [uq_users_email] and [uq_sources_url], and
    NOT NULL on the columns a handler can assign.  The engine of
    app/database.py is SQLite ([check_same_thread]): the lengths of the
    [String] columns are not enforced and foreign keys are not checked, so
    the deletion of the articles of a source is the work of the ORM's
    relationship cascade and not of [ondelete="CASCADE"]. *)

Fixpoint nodupb {A : Type} (eqb : A -> A -> bool) (l : list A) : bool :=
  match l with
  | [] => true
  | x :: r => negb (existsb (eqb x) r) && nodupb eqb r
  end.

Definition not_null {A : Type} (v : option A) : bool :=
  match v with Some _ => true | None => false end.

(** SQL equality of a nullable column with a value: never true on NULL. *)
Definition col_eqb (c : option string) (v : string) : bool :=
  match c with Some x => x =? v | None => false end.

(** Two rows collide on a UNIQUE nullable column when both hold the same
    non-null value. *)
Definition col_clash (c d : option string) : bool :=
  match c with Some x => col_eqb d x | None => false end.

Definition users_ok (l : list User.t) : bool :=
  nodupb Z.eqb (map User.id l)
  && nodupb String.eqb (map User.username l)
  && nodupb String.eqb (map User.email l).

Definition sources_ok (l : list Source.t) : bool :=
  nodupb Z.eqb (map Source.id l)
  && forallb (fun s => not_null (Source.name s) && not_null (Source.url s)) l
  && nodupb col_clash (map Source.url l).

Definition articles_ok (l : list Article.t) : bool :=
  nodupb Z.eqb (map Article.id l)
  && forallb (fun a => not_null (Article.title a) && not_null (Article.content a)) l.

Definition db_ok (db : DB) : bool :=
  users_ok (users db) && sources_ok (sources db) && articles_ok (articles db).

(** The key given to a row inserted without one (an INTEGER PRIMARY KEY is
    the table's rowid): one more than the largest key in use, 1 in an empty
    table. *)
Definition next_id (ids : list Z) : Z := 1 + fold_right Z.max 0 ids.

(** ** The session monad

    A request works on a session: [store] is what is committed, [work] is
    what the open transaction sees.  An exception leaves the state as it
    is; [get_db] (app/database.py) rolls the transaction back and closes
    the session, so that only [store] outlives the request. *)

Record Session := mkSession { store : DB; work : DB }.

Definition Result (A : Type) : Type := (Exn + A)%type.
Definition M (A : Type) : Type := Session -> Result A * Session.

Definition ret {A : Type} (a : A) : M A := fun s => (inr a, s).
Definition raise {A : Type} (e : Exn) : M A := fun s => (inl e, s).
Definition bind {A B : Type} (m : M A) (k : A -> M B) : M B :=
  fun s => match m s with
           | (inr a, s') => k a s'
           | (inl e, s') => (inl e, s')
           end.

Declare Scope session_scope.
Delimit Scope session_scope with session.
Notation "x <- m ;; k" := (bind m (fun x => k))
  (at level 61, m at next level, right associativity) : session_scope.
Notation "m ;; k" := (bind m (fun _ => k))
  (at level 61, right associativity) : session_scope.
Open Scope session_scope.

Definition set_work (f : DB -> DB) : M unit :=
  fun s => (inr tt, {| store := store s; work := f (work s) |}).

(** [await db.execute(select(T).where(p))] followed by [.scalars().all()].
    This is the statement once its parameters are bound: a string always
    binds, and an integer binds when it is an SQLite INTEGER, that is a signed
    64-bit value, as every stored key is.  Outside that range the driver
    raises before the statement runs; the handlers take path and body
    integers as Python [int], so the statements about an id that the client
    chooses carry [in_int64]. *)
Definition execute_select {A : Type} (table : DB -> list A) (where_ : A -> bool)
  : M (list A) :=
  fun s => (inr (filter where_ (table (work s))), s).

(** The integers that the driver binds as a parameter of a statement. *)
Definition in_int64 (i : Z) : bool :=
  ((- 2 ^ 63 <=? i) && (i <? 2 ^ 63))%Z.

(** [result.scalar_one_or_none()] *)
Definition scalar_one_or_none {A : Type} (result : list A) : M (option A) :=
  match result with
  | [] => ret None
  | [x] => ret (Some x)
  | _ :: _ :: _ => raise MultipleResultsFound
  end.

(** [await db.commit()]: the transaction is flushed, the constraints are
    checked, and the work becomes the stored state. *)
Definition commit : M unit :=
  fun s => if db_ok (work s)
           then (inr tt, {| store := work s; work := work s |})
           else (inl IntegrityError, s).

(** [get_db]: a fresh session per request; whatever is not committed when
    the handler returns or raises is dropped. *)
Definition begin (db : DB) : Session := {| store := db; work := db |}.

(** A computation keeps the stored state within the constraints. *)
Definition preserves {A : Type} (m : M A) : Prop :=
  forall s r s', db_ok (store s) = true -> m s = (r, s') -> db_ok (store s') = true.

Create HintDb session.

(** Walks down a handler: [bind_lemma] is the rule for [bind]; a branch on a
    query result or on a test is tried both ways. *)
Ltac preserve_with bind_lemma :=
  repeat first
    [ solve [auto with session]
    | match goal with
      | |- preserves (match ?x with _ => _ end) => destruct x
      end
    | apply bind_lemma; [|intro] ].

Definition get_db {A : Type} (handler : M A) (db : DB) : Result A * DB :=
  let '(r, s) := handler (begin db) in (r, store s).

(** [db.add(obj)]: [obj] is the new object as a function of the two values
    the database fills in, the key and [created_at] (server default
    [func.now()], here [now]). *)
Definition insert_User (row : User.t) (w : DB) : DB :=
  {| users := users w ++ [row]; sources := sources w; articles := articles w |}.

Definition insert_Source (row : Source.t) (w : DB) : DB :=
  {| users := users w; sources := sources w ++ [row]; articles := articles w |}.

Definition insert_Article (row : Article.t) (w : DB) : DB :=
  {| users := users w; sources := sources w; articles := articles w ++ [row] |}.

Definition add_User (now : Z) (obj : Z -> Z -> User.t) : M User.t :=
  fun s =>
    let row := obj (next_id (map User.id (users (work s)))) now in
    (inr row, {| store := store s; work := insert_User row (work s) |}).

Definition add_Source (now : Z) (obj : Z -> Z -> Source.t) : M Source.t :=
  fun s =>
    let row := obj (next_id (map Source.id (sources (work s)))) now in
    (inr row, {| store := store s; work := insert_Source row (work s) |}).

Definition add_Article (now : Z) (obj : Z -> Z -> Article.t) : M Article.t :=
  fun s =>
    let row := obj (next_id (map Article.id (articles (work s)))) now in
    (inr row, {| store := store s; work := insert_Article row (work s) |}).

(** [await db.refresh(obj)]: the row under the object's key is read back. *)
Definition refresh {A : Type} (table : DB -> list A) (key : A -> Z) (obj : A)
  : M A :=
  fun s => match find (fun r => key r =? key obj)%Z (table (work s)) with
           | Some r => (inr r, s)
           | None => (inl InvalidRequestError, s)
           end.

(** Assignments to the attributes of a loaded object are recorded by the
    session: the row under the object's key becomes the object. *)
Definition put_Source (obj : Source.t) (w : DB) : DB :=
  {| users := users w;
     sources := map (fun r => if (Source.id r =? Source.id obj)%Z then obj else r)
                    (sources w);
     articles := articles w |}.

Definition put_Article (obj : Article.t) (w : DB) : DB :=
  {| users := users w;
     sources := sources w;
     articles := map (fun r => if (Article.id r =? Article.id obj)%Z then obj else r)
                     (articles w) |}.

Definition dirty_Source (obj : Source.t) : M unit := set_work (put_Source obj).
Definition dirty_Article (obj : Article.t) : M unit := set_work (put_Article obj).

(** [await db.delete(source)]: the relationship [Source.articles] has
    [cascade="all, delete-orphan"], so the articles of the source are
    deleted with it. *)
Definition drop_Source (obj : Source.t) (w : DB) : DB :=
  {| users := users w;
     sources := filter (fun r => negb (Source.id r =? Source.id obj)%Z) (sources w);
     articles := filter (fun a => negb (Article.source_id a =? Source.id obj)%Z)
                        (articles w) |}.

Definition delete_Source (obj : Source.t) : M unit := set_work (drop_Source obj).

(** [await db.execute(delete(Article).where(p))] *)
Definition drop_Articles (where_ : Article.t -> bool) (w : DB) : DB :=
  {| users := users w;
     sources := sources w;
     articles := filter (fun a => negb (where_ a)) (articles w) |}.

Definition execute_delete_Article (where_ : Article.t -> bool) : M unit :=
  set_work (drop_Articles where_).

(** ** Dependencies (app/auth/dependencies.py) *)

(** [str(n)] inside an f-string *)
Definition str_int (n : Z) : string := NilZero.string_of_int (Z.to_int n).

Definition http_exception (code : Z) (msg : string) : Exn :=
  HTTPError {| status_code := code; detail := msg; headers := [] |}.

Definition credentials_exception : Exn :=
  HTTPError {| status_code := status.HTTP_401_UNAUTHORIZED;
               detail := "Токен недействителен или отсутствует";
               headers := [("WWW-Authenticate", "Bearer")] |}.

(** [token] is [credentials.credentials], the bearer token that the
    [HTTPBearer] scheme took from the Authorization header. *)
Definition get_current_user `{Security} (token : string) : M User.t :=
  token_data <-
    match jwt_decode token SECRET_KEY [ALGORITHM] with
    | inr payload =>
        let user_id := TokenData.user_id payload in
        let user_role := TokenData.role payload in
        match user_id, user_role with
        | Some _, Some _ => ret (TokenData.mk user_id user_role)
        | _, _ => raise credentials_exception
        end
    | inl _ => raise credentials_exception
    end ;;
  result <- execute_select users
              (fun u => match TokenData.user_id token_data with
                        | Some i => (User.id u =? i)%Z
                        | None => false
                        end) ;;
  user <- scalar_one_or_none result ;;
  match user with
  | None => raise credentials_exception
  | Some user => ret user
  end.

Definition require_role `{Security} (role : string) (token : string) : M User.t :=
  current_user <- get_current_user token ;;
  if negb (User.role current_user =? role)
  then raise (http_exception status.HTTP_403_FORBIDDEN
                ("Недостаточно прав. Требуется роль: " ++ role))
  else ret current_user.

Definition AdminUser `{Security} : string -> M User.t := require_role "admin".
Definition LoggedInUser `{Security} : string -> M User.t := get_current_user.

(** A route: the dependencies and the handler run in the one session that
    [get_db] opens for the request. *)
Definition route {A : Type} (dep : string -> M User.t) (handler : User.t -> M A)
    (token : string) (db : DB) : Result A * DB :=
  get_db (current_user <- dep token ;; handler current_user) db.

(** ** /auth (app/routers/auth.py) *)

Definition email_exists_exception : Exn :=
  http_exception status.HTTP_422_UNPROCESSABLE_ENTITY
    "Пользователь с таким email уже существует".

Definition username_exists_exception : Exn :=
  http_exception status.HTTP_422_UNPROCESSABLE_ENTITY
    "Пользователь с таким именем уже существует".

(** [User(username=..., email=..., password=hashed_password, role="user")] *)
Definition new_user `{Security} (user_in : UserCreate.t) (id created_at : Z) : User.t :=
  {| User.id := id;
     User.username := UserCreate.username user_in;
     User.email := UserCreate.email user_in;
     User.password := get_password_hash (UserCreate.password user_in);
     User.role := "user";
     User.created_at := created_at |}.

Definition register_user `{Security} (now : Z) (user_in : UserCreate.t) : M User.t :=
  email_exists_result <-
    execute_select users (fun u => User.email u =? UserCreate.email user_in) ;;
  email_exists <- scalar_one_or_none email_exists_result ;;
  match email_exists with
  | Some _ => raise email_exists_exception
  | None =>
      username_exists_result <-
        execute_select users (fun u => User.username u =? UserCreate.username user_in) ;;
      username_exists <- scalar_one_or_none username_exists_result ;;
      match username_exists with
      | Some _ => raise username_exists_exception
      | None =>
          new_user <- add_User now (new_user user_in) ;;
          commit ;;
          refresh users User.id new_user
      end
  end.

Definition login_exception : Exn :=
  HTTPError {| status_code := status.HTTP_401_UNAUTHORIZED;
               detail := "Неправильный email или пароль";
               headers := [("WWW-Authenticate", "Bearer")] |}.

Definition login_for_access_token `{Security} (form_data : UserLogin.t) : M Token.t :=
  result <- execute_select users (fun u => User.email u =? UserLogin.email form_data) ;;
  user <- scalar_one_or_none result ;;
  match user with
  | None => raise login_exception
  | Some user =>
      if negb (verify_password (UserLogin.password form_data) (User.password user))
      then raise login_exception
      else
        let access_token_expires := ACCESS_TOKEN_EXPIRE_MINUTES in
        let access_token :=
          create_access_token
            (TokenData.mk (Some (User.id user)) (Some (User.role user)))
            access_token_expires in
        ret {| Token.access_token := access_token; Token.token_type := "bearer" |}
  end.

Definition read_users_me (current_user : User.t) : M User.t := ret current_user.

(** ** The owner-or-admin check

    The four mutating handlers of sources and articles carry the same
    lines, with a message of their own:
<<
    is_admin = current_user.role == "admin"
    is_author = obj.author_id == current_user.id
    if not is_admin and not is_author:
        raise HTTPException(status_code=status.HTTP_403_FORBIDDEN, detail=...)
>> *)
Definition owner_or_admin (msg : string) (current_user : User.t) (author_id : Z)
  : M unit :=
  let is_admin := User.role current_user =? "admin" in
  let is_author := (author_id =? User.id current_user)%Z in
  if negb is_admin && negb is_author
  then raise (http_exception status.HTTP_403_FORBIDDEN msg)
  else ret tt.

(** [model_dump(exclude_unset=True)]: the items of the supplied fields *)
Definition dump_field {A : Type} (key : string) (v : option A) : list (string * A) :=
  match v with Some x => [(key, x)] | None => [] end.

(** ** /sources (app/routers/source.py) *)

Definition url_exists_exception : Exn :=
  http_exception status.HTTP_422_UNPROCESSABLE_ENTITY
    "Источник с таким URL уже существует.".

(** [Source] built from the items of [source_in.model_dump(exclude_unset=True)]
    and [author_id=current_user.id]; a description left out and a null
    description both give a NULL column. *)
Definition new_source (source_in : SourceCreate.t) (current_user : User.t)
    (id created_at : Z) : Source.t :=
  {| Source.id := id;
     Source.name := Some (SourceCreate.name source_in);
     Source.url := Some (SourceCreate.url source_in);
     Source.description := SourceCreate.description source_in;
     Source.created_at := created_at;
     Source.author_id := User.id current_user |}.

Definition create_source (now : Z) (source_in : SourceCreate.t)
    (current_user : User.t) : M Source.t :=
  result <- execute_select sources
              (fun s => col_eqb (Source.url s) (SourceCreate.url source_in)) ;;
  existing <- scalar_one_or_none result ;;
  match existing with
  | Some _ => raise url_exists_exception
  | None =>
      new_source <- add_Source now (new_source source_in current_user) ;;
      commit ;;
      refresh sources Source.id new_source
  end.

Definition read_sources : M (list Source.t) :=
  execute_select sources (fun _ => true).

Definition source_not_found : Exn :=
  http_exception status.HTTP_404_NOT_FOUND "Источник не найден".

Definition read_source (source_id : Z) : M Source.t :=
  result <- execute_select sources (fun s => (Source.id s =? source_id)%Z) ;;
  source <- scalar_one_or_none result ;;
  match source with
  | None => raise source_not_found
  | Some source => ret source
  end.

Definition get_articles_by_source (source_id : Z) : M (list Article.t) :=
  result <- execute_select sources (fun s => (Source.id s =? source_id)%Z) ;;
  source <- scalar_one_or_none result ;;
  match source with
  | None =>
      raise (http_exception status.HTTP_404_NOT_FOUND
               ("Источник с ID " ++ str_int source_id ++ " не найден"))
  | Some _ =>
      execute_select articles (fun a => (Article.source_id a =? source_id)%Z)
  end.

Definition SourceUpdate_model_dump (m : SourceUpdate.t) : list (string * option string) :=
  dump_field "name" (SourceUpdate.name m)
  ++ dump_field "url" (SourceUpdate.url m)
  ++ dump_field "description" (SourceUpdate.description m).

(** [setattr(source, key, value)] for the keys of a [SourceUpdate] *)
Definition Source_setattr (source : Source.t) (kv : string * option string) : Source.t :=
  let '(key, value) := kv in
  if key =? "name" then
    Source.mk (Source.id source) value (Source.url source) (Source.description source)
              (Source.created_at source) (Source.author_id source)
  else if key =? "url" then
    Source.mk (Source.id source) (Source.name source) value (Source.description source)
              (Source.created_at source) (Source.author_id source)
  else if key =? "description" then
    Source.mk (Source.id source) (Source.name source) (Source.url source) value
              (Source.created_at source) (Source.author_id source)
  else source.

Definition update_source_forbidden : string :=
  "Недостаточно прав. Только Администратор или Автор могут обновить источник.".

Definition delete_source_forbidden : string :=
  "Недостаточно прав. Только администратор или автор могут удалить источник.".

(** The loop [for key, value in update_data.items(): setattr(source, key, value)] *)
Definition Source_setattrs (source : Source.t) (source_in : SourceUpdate.t) : Source.t :=
  let update_data := SourceUpdate_model_dump source_in in
  fold_left Source_setattr update_data source.

Definition update_source (source_id : Z) (source_in : SourceUpdate.t)
    (current_user : User.t) : M Source.t :=
  result <- execute_select sources (fun s => (Source.id s =? source_id)%Z) ;;
  source <- scalar_one_or_none result ;;
  match source with
  | None => raise source_not_found
  | Some source =>
      owner_or_admin update_source_forbidden
        current_user (Source.author_id source) ;;
      let source := Source_setattrs source source_in in
      dirty_Source source ;;
      commit ;;
      refresh sources Source.id source
  end.

Definition delete_source (source_id : Z) (current_user : User.t) : M unit :=
  result_find <- execute_select sources (fun s => (Source.id s =? source_id)%Z) ;;
  source_to_delete <- scalar_one_or_none result_find ;;
  match source_to_delete with
  | None => raise source_not_found
  | Some source_to_delete =>
      owner_or_admin delete_source_forbidden
        current_user (Source.author_id source_to_delete) ;;
      delete_Source source_to_delete ;;
      commit
  end.

(** ** /articles (app/routers/articles.py) *)

Definition parent_not_found (source_id : Z) : Exn :=
  http_exception status.HTTP_404_NOT_FOUND
    ("Источник с ID " ++ str_int source_id ++ " не найден.").

(** [Article] built from the items of [article_in.model_dump(exclude_unset=True)]
    and [author_id=current_user.id]; a summary left out and a null summary both
    give a NULL column; [author_name] is not a field of [ArticleCreate] and stays NULL. *)
Definition new_article (article_in : ArticleCreate.t) (current_user : User.t)
    (id created_at : Z) : Article.t :=
  {| Article.id := id;
     Article.title := Some (ArticleCreate.title article_in);
     Article.summary := ArticleCreate.summary article_in;
     Article.content := Some (ArticleCreate.content article_in);
     Article.author_name := None;
     Article.source_id := ArticleCreate.source_id article_in;
     Article.author_id := User.id current_user;
     Article.created_at := created_at |}.

Definition create_article (now : Z) (article_in : ArticleCreate.t)
    (current_user : User.t) : M Article.t :=
  result <- execute_select sources
              (fun s => (Source.id s =? ArticleCreate.source_id article_in)%Z) ;;
  source_exists <- scalar_one_or_none result ;;
  match source_exists with
  | None => raise (parent_not_found (ArticleCreate.source_id article_in))
  | Some _ =>
      new_article <- add_Article now (new_article article_in current_user) ;;
      commit ;;
      refresh articles Article.id new_article
  end.

Definition read_articles : M (list Article.t) :=
  execute_select articles (fun _ => true).

Definition article_not_found : Exn :=
  http_exception status.HTTP_404_NOT_FOUND "Статья не найдена".

Definition read_article (article_id : Z) : M Article.t :=
  result <- execute_select articles (fun a => (Article.id a =? article_id)%Z) ;;
  article <- scalar_one_or_none result ;;
  match article with
  | None => raise article_not_found
  | Some article => ret article
  end.

Definition ArticleUpdate_model_dump (m : ArticleUpdate.t)
  : list (string * option string) :=
  dump_field "title" (ArticleUpdate.title m)
  ++ dump_field "summary" (ArticleUpdate.summary m)
  ++ dump_field "content" (ArticleUpdate.content m)
  ++ dump_field "author_name" (ArticleUpdate.author_name m).

(** [setattr(article, key, value)] for the keys of an [ArticleUpdate] *)
Definition Article_setattr (article : Article.t) (kv : string * option string)
  : Article.t :=
  let '(key, value) := kv in
  if key =? "title" then
    Article.mk (Article.id article) value (Article.summary article)
               (Article.content article) (Article.author_name article)
               (Article.source_id article) (Article.author_id article)
               (Article.created_at article)
  else if key =? "summary" then
    Article.mk (Article.id article) (Article.title article) value
               (Article.content article) (Article.author_name article)
               (Article.source_id article) (Article.author_id article)
               (Article.created_at article)
  else if key =? "content" then
    Article.mk (Article.id article) (Article.title article) (Article.summary article)
               value (Article.author_name article)
               (Article.source_id article) (Article.author_id article)
               (Article.created_at article)
  else if key =? "author_name" then
    Article.mk (Article.id article) (Article.title article) (Article.summary article)
               (Article.content article) value
               (Article.source_id article) (Article.author_id article)
               (Article.created_at article)
  else article.

Definition update_article_forbidden : string :=
  "Недостаточно прав. Только Администратор или Автор могут обновить статью.".

Definition delete_article_forbidden : string := "Недостаточно прав.".

(** The loop [for key, value in update_data.items(): setattr(article, key, value)] *)
Definition Article_setattrs (article : Article.t) (article_in : ArticleUpdate.t)
  : Article.t :=
  let update_data := ArticleUpdate_model_dump article_in in
  fold_left Article_setattr update_data article.

Definition update_article (article_id : Z) (article_in : ArticleUpdate.t)
    (current_user : User.t) : M Article.t :=
  result <- execute_select articles (fun a => (Article.id a =? article_id)%Z) ;;
  article <- scalar_one_or_none result ;;
  match article with
  | None => raise article_not_found
  | Some article =>
      owner_or_admin update_article_forbidden
        current_user (Article.author_id article) ;;
      let article := Article_setattrs article article_in in
      dirty_Article article ;;
      commit ;;
      refresh articles Article.id article
  end.

Definition delete_article (article_id : Z) (current_user : User.t) : M unit :=
  result <- execute_select articles (fun a => (Article.id a =? article_id)%Z) ;;
  article <- scalar_one_or_none result ;;
  match article with
  | None => raise article_not_found
  | Some article =>
      owner_or_admin delete_article_forbidden
        current_user (Article.author_id article) ;;
      execute_delete_Article (fun a => (Article.id a =? article_id)%Z) ;;
      commit
  end.

(** ** A fixture: a security module, three users, two sources, three articles *)

Module Fixture.

(** The tokens of the fixture: a user id and a role claim, a token with
    no role claim, an expired token [x]; anything else is malformed. *)
Definition decode (token : string) : JWTError + TokenData.t :=
  if token =? "1:user" then inr (TokenData.mk (Some 1%Z) (Some "user"))
  else if token =? "1:admin" then inr (TokenData.mk (Some 1%Z) (Some "admin"))
  else if token =? "2:user" then inr (TokenData.mk (Some 2%Z) (Some "user"))
  else if token =? "3:admin" then inr (TokenData.mk (Some 3%Z) (Some "admin"))
  else if token =? "9:user" then inr (TokenData.mk (Some 9%Z) (Some "user"))
  else if token =? "1" then inr (TokenData.mk (Some 1%Z) None)
  else if token =? "x" then inl ExpiredSignatureError
  else inl JWTError_base.

#[export] Instance security : Security := {|
  SECRET_KEY := "secret";
  ALGORITHM := "HS256";
  ACCESS_TOKEN_EXPIRE_MINUTES := 30;
  get_password_hash := fun p => "#" ++ p;
  verify_password := fun p h => ("#" ++ p) =? h;
  create_access_token := fun d _ =>
    match TokenData.user_id d, TokenData.role d with
    | Some i, Some r => str_int i ++ ":" ++ r
    | _, _ => ""%string
    end;
  jwt_decode := fun token _ _ => decode token
|}.

Definition alice : User.t := User.mk 1 "alice" "a@x.com" "#pw-a" "user" 100.
Definition bob : User.t := User.mk 2 "bob" "b@x.com" "#pw-b" "user" 101.
Definition root : User.t := User.mk 3 "root" "root@x.com" "#pw-r" "admin" 50.

Definition s1 : Source.t :=
  Source.mk 1 (Some "Wire") (Some "http://wire") None 110 1.
Definition s2 : Source.t :=
  Source.mk 2 (Some "Post") (Some "http://post") (Some "daily") 111 2.

Definition a1 : Article.t :=
  Article.mk 1 (Some "t1") None (Some "c1") None 1 1 120.
Definition a2 : Article.t :=
  Article.mk 2 (Some "t2") (Some "s2") (Some "c2") None 1 2 121.
Definition a3 : Article.t :=
  Article.mk 3 (Some "t3") None (Some "c3") (Some "B.") 2 2 122.

Definition db0 : DB :=
  {| users := [alice; bob; root]; sources := [s1; s2]; articles := [a1; a2; a3] |}.

End Fixture.

(** ** Startup (app/main.py)

    [create_admin_user] runs once when the application starts, on a session
    of its own.  The three settings of app/config.py are read from the
    environment; the model is for an environment that sets them.  The salt
    that [bcrypt.gensalt()] draws is an argument. *)

Class AdminConfig := {
  ADMIN_EMAIL : string;
  ADMIN_PASSWORD : string;
  ADMIN_USERNAME : string;
  (** [bcrypt.hashpw(password, salt)] *)
  bcrypt_hashpw : string -> string -> string
}.

(** [async with AsyncSessionLocal() as session]: what is not committed when
    the block is left is dropped with the session. *)
Definition AsyncSessionLocal {A : Type} (body : M A) (db : DB) : Result A * DB :=
  let '(r, s) := body (begin db) in (r, store s).

Definition admin_user `{AdminConfig} (salt : string) (id created_at : Z) : User.t :=
  {| User.id := id;
     User.username := ADMIN_USERNAME;
     User.email := ADMIN_EMAIL;
     User.password := bcrypt_hashpw ADMIN_PASSWORD salt;
     User.role := "admin";
     User.created_at := created_at |}.

Definition create_admin_user `{AdminConfig} (now : Z) (salt : string)
    (db : DB) : Result unit * DB :=
  AsyncSessionLocal
    (result <- execute_select users (fun u => User.email u =? ADMIN_EMAIL) ;;
     exists_ <- scalar_one_or_none result ;;
     match exists_ with
     | None => add_User now (admin_user salt) ;; commit
     | Some _ => ret tt
     end) db.

(** ** The application (app/main.py)

    The three routers are mounted under /auth, /sources and /articles; a
    request is one call of one route.  Routes that declare [LoggedInUser]
    take the bearer token of the request. *)

Inductive Request :=
| POST_auth_register (user_in : UserCreate.t)
| POST_auth_login (form_data : UserLogin.t)
| GET_auth_me (token : string)
| POST_sources (token : string) (source_in : SourceCreate.t)
| GET_sources
| GET_source (source_id : Z)
| GET_source_articles (source_id : Z)
| PATCH_source (token : string) (source_id : Z) (source_in : SourceUpdate.t)
| DELETE_source (token : string) (source_id : Z)
| POST_articles (token : string) (article_in : ArticleCreate.t)
| GET_articles
| GET_article (article_id : Z)
| PATCH_article (token : string) (article_id : Z) (article_in : ArticleUpdate.t)
| DELETE_article (token : string) (article_id : Z).

(** What a handler returns, before it is serialized. *)
Inductive Response :=
| UserBody (u : User.t)
| TokenBody (t : Token.t)
| SourceBody (s : Source.t)
| SourceList (l : list Source.t)
| ArticleBody (a : Article.t)
| ArticleList (l : list Article.t)
| NoContent.

Definition respond {A : Type} (body : A -> Response) (r : Result A * DB)
  : Result Response * DB :=
  (match fst r with inl e => inl e | inr a => inr (body a) end, snd r).

(** [now] is the server's clock when the request is served. *)
Definition app `{Security} (now : Z) (req : Request) (db : DB) : Result Response * DB :=
  match req with
  | POST_auth_register user_in =>
      respond UserBody (get_db (register_user now user_in) db)
  | POST_auth_login form_data =>
      respond TokenBody (get_db (login_for_access_token form_data) db)
  | GET_auth_me token =>
      respond UserBody (route LoggedInUser read_users_me token db)
  | POST_sources token source_in =>
      respond SourceBody (route LoggedInUser (create_source now source_in) token db)
  | GET_sources => respond SourceList (get_db read_sources db)
  | GET_source source_id => respond SourceBody (get_db (read_source source_id) db)
  | GET_source_articles source_id =>
      respond ArticleList (get_db (get_articles_by_source source_id) db)
  | PATCH_source token source_id source_in =>
      respond SourceBody
        (route LoggedInUser (update_source source_id source_in) token db)
  | DELETE_source token source_id =>
      respond (fun _ => NoContent) (route LoggedInUser (delete_source source_id) token db)
  | POST_articles token article_in =>
      respond ArticleBody (route LoggedInUser (create_article now article_in) token db)
  | GET_articles => respond ArticleList (get_db read_articles db)
  | GET_article article_id => respond ArticleBody (get_db (read_article article_id) db)
  | PATCH_article token article_id article_in =>
      respond ArticleBody
        (route LoggedInUser (update_article article_id article_in) token db)
  | DELETE_article token article_id =>
      respond (fun _ => NoContent)
        (route LoggedInUser (delete_article article_id) token db)
  end.

(** The stored state after a sequence of requests, each served at the time
    paired with it. *)
Fixpoint serve `{Security} (reqs : list (Z * Request)) (db : DB) : DB :=
  match reqs with
  | [] => db
  | (now, req) :: rest => serve rest (snd (app now req db))
  end.

Definition empty_db : DB := {| users := []; sources := []; articles := [] |}.

(** The references that the tables declare as foreign keys and the engine
    does not check: the author of a source, the source and the author of an
    article. *)
Definition fk_ok (db : DB) : bool :=
  forallb (fun s => existsb (fun u => (User.id u =? Source.author_id s)%Z) (users db))
          (sources db)
  && forallb (fun a =>
                existsb (fun s => (Source.id s =? Article.source_id a)%Z) (sources db)
                && existsb (fun u => (User.id u =? Article.author_id a)%Z) (users db))
             (articles db).




(** A configuration for the startup fixture. *)
Module SeedFixture.

#[export] Instance config : AdminConfig := {|
  ADMIN_EMAIL := "root@x.com";
  ADMIN_PASSWORD := "pw-r";
  ADMIN_USERNAME := "root";
  bcrypt_hashpw := fun p salt => salt ++ "$" ++ p
|}.

#[export] Instance other : AdminConfig := {|
  ADMIN_EMAIL := "a@x.com";
  ADMIN_PASSWORD := "pw-r";
  ADMIN_USERNAME := "boss";
  bcrypt_hashpw := fun p salt => salt ++ "$" ++ p
|}.

End SeedFixture.

(** * Facts about the storage layer *)

Unset Implicit Arguments.

Section ListFacts.

Variables (A K : Type) (clash : K -> K -> bool) (key : A -> K).

Lemma filter_nil_iff (p : A -> bool) (l : list A) :
  filter p l = [] <-> (forall y, In y l -> p y = false).
Proof.
  induction l as [|a l IH]; simpl.
  - split; [intros _ y [] | reflexivity].
  - destruct (p a) eqn:Ea.
    + split; [discriminate|].
      intros H. rewrite (H a (or_introl eq_refl)) in Ea. discriminate.
    + rewrite IH. split.
      * intros H y [<-|Hy]; auto.
      * intros H y Hy. apply H. now right.
Qed.

Lemma existsb_clash_false (k : K) (l : list A) (y : A) :
  existsb (clash k) (map key l) = false -> In y l -> clash k (key y) = false.
Proof.
  intros H Hy. destruct (clash k (key y)) eqn:E; [|reflexivity].
  rewrite <- H. symmetry. apply existsb_exists.
  exists (key y). split; [now apply in_map | assumption].
Qed.

(** A query on a unique key that one row satisfies returns that row alone. *)
Lemma filter_single (p : A -> bool) (l : list A) (x : A) :
  (forall a b, p a = true -> p b = true -> clash (key a) (key b) = true) ->
  nodupb clash (map key l) = true ->
  In x l -> p x = true -> filter p l = [x].
Proof.
  intros Hp. induction l as [|a l IH]; simpl; [intros _ []|].
  intros Hnd Hin Hx.
  apply andb_true_iff in Hnd as [Hex Hnd].
  apply negb_true_iff in Hex.
  destruct Hin as [->|Hin].
  - rewrite Hx. f_equal. apply filter_nil_iff. intros y Hy.
    destruct (p y) eqn:Ey; [|reflexivity].
    rewrite <- (existsb_clash_false _ _ _ Hex Hy). symmetry. now apply Hp.
  - destruct (p a) eqn:Ea.
    + exfalso. pose proof (existsb_clash_false _ _ _ Hex Hin) as Hc.
      rewrite (Hp a x Ea Hx) in Hc. discriminate.
    + now apply IH.
Qed.

Lemma nodupb_app_one (l : list A) (x : A) :
  nodupb clash (map key l) = true ->
  (forall y, In y l -> clash (key y) (key x) = false) ->
  nodupb clash (map key (l ++ [x])) = true.
Proof.
  induction l as [|a l IH]; simpl; [reflexivity|].
  intros Hnd Hx. apply andb_true_iff in Hnd as [Hex Hnd].
  apply andb_true_iff. split.
  - rewrite map_app, existsb_app. simpl.
    apply negb_true_iff in Hex. rewrite Hex, (Hx a (or_introl eq_refl)).
    reflexivity.
  - apply IH; [assumption|]. intros y Hy. apply Hx. now right.
Qed.

Lemma nodupb_filter (p : A -> bool) (l : list A) :
  nodupb clash (map key l) = true -> nodupb clash (map key (filter p l)) = true.
Proof.
  induction l as [|a l IH]; simpl; [reflexivity|].
  intros Hnd. apply andb_true_iff in Hnd as [Hex Hnd].
  destruct (p a); simpl; [|now apply IH].
  apply andb_true_iff. split; [|now apply IH].
  apply negb_true_iff in Hex. apply negb_true_iff.
  destruct (existsb (clash (key a)) (map key (filter p l))) eqn:E; [|reflexivity].
  apply existsb_exists in E as (k & Hk & Hc).
  apply in_map_iff in Hk as (y & <- & Hy). apply filter_In in Hy as [Hy _].
  rewrite <- (existsb_clash_false _ _ _ Hex Hy). now symmetry.
Qed.

End ListFacts.

Lemma next_id_fresh (ids : list Z) (i : Z) : In i ids -> (i < next_id ids)%Z.
Proof.
  unfold next_id. induction ids as [|a ids IH]; cbn [fold_right In]; [intros []|].
  intros [->|Hi]; [lia|]. specialize (IH Hi). lia.
Qed.

(** What [db_ok] says, constraint by constraint. *)
Lemma db_ok_inv (db : DB) :
  db_ok db = true ->
  (nodupb Z.eqb (map User.id (users db)) = true
   /\ nodupb String.eqb (map User.username (users db)) = true
   /\ nodupb String.eqb (map User.email (users db)) = true)
  /\ (nodupb Z.eqb (map Source.id (sources db)) = true
      /\ forallb (fun s => not_null (Source.name s) && not_null (Source.url s))
                 (sources db) = true
      /\ nodupb col_clash (map Source.url (sources db)) = true)
  /\ (nodupb Z.eqb (map Article.id (articles db)) = true
      /\ forallb (fun a => not_null (Article.title a) && not_null (Article.content a))
                 (articles db) = true).
Proof.
  unfold db_ok, users_ok, sources_ok, articles_ok. intros H.
  rewrite !andb_true_iff in H. tauto.
Qed.

(** Queries by primary key. *)
Lemma select_user_by_id (db : DB) (u : User.t) :
  db_ok db = true -> In u (users db) ->
  filter (fun r => (User.id r =? User.id u)%Z) (users db) = [u].
Proof.
  intros Hok Hin. apply db_ok_inv in Hok as ((Hid & _) & _).
  apply (filter_single _ _ Z.eqb User.id); auto using Z.eqb_refl.
  intros a b Ha Hb. apply Z.eqb_eq in Ha, Hb. apply Z.eqb_eq. congruence.
Qed.

Lemma select_source_by_id (db : DB) (x : Source.t) :
  db_ok db = true -> In x (sources db) ->
  filter (fun r => (Source.id r =? Source.id x)%Z) (sources db) = [x].
Proof.
  intros Hok Hin. apply db_ok_inv in Hok as (_ & (Hid & _) & _).
  apply (filter_single _ _ Z.eqb Source.id); auto using Z.eqb_refl.
  intros a b Ha Hb. apply Z.eqb_eq in Ha, Hb. apply Z.eqb_eq. congruence.
Qed.

Lemma select_article_by_id (db : DB) (x : Article.t) :
  db_ok db = true -> In x (articles db) ->
  filter (fun r => (Article.id r =? Article.id x)%Z) (articles db) = [x].
Proof.
  intros Hok Hin. apply db_ok_inv in Hok as (_ & _ & (Hid & _)).
  apply (filter_single _ _ Z.eqb Article.id); auto using Z.eqb_refl.
  intros a b Ha Hb. apply Z.eqb_eq in Ha, Hb. apply Z.eqb_eq. congruence.
Qed.

Lemma select_by_id_none (A : Type) (key : A -> Z) (l : list A) (i : Z) :
  (forall r, In r l -> key r <> i) -> filter (fun r => (key r =? i)%Z) l = [].
Proof.
  intros H. apply filter_nil_iff. intros y Hy. apply Z.eqb_neq. now apply H.
Qed.

(** * The stored state satisfies the constraints

    Only [commit] writes to [store], and it does so after checking the
    constraints: whatever a handler does, a store that satisfies [db_ok]
    is followed by one that does. *)

Lemma preserves_ret (A : Type) (a : A) : preserves (ret a).
Proof. intros s r s' Hok E. injection E as _ <-. exact Hok. Qed.

Lemma preserves_raise (A : Type) (e : Exn) : preserves (@raise A e).
Proof. intros s r s' Hok E. injection E as _ <-. exact Hok. Qed.

Lemma preserves_bind (A B : Type) (m : M A) (k : A -> M B) :
  preserves m -> (forall a, preserves (k a)) -> preserves (bind m k).
Proof.
  intros Hm Hk s r s' Hok E. unfold bind in E.
  destruct (m s) as [[e|a] s1] eqn:Em.
  - injection E as _ <-. exact (Hm _ _ _ Hok Em).
  - exact (Hk a _ _ _ (Hm _ _ _ Hok Em) E).
Qed.

Lemma preserves_execute_select (A : Type) (table : DB -> list A) (p : A -> bool) :
  preserves (execute_select table p).
Proof. intros s r s' Hok E. injection E as _ <-. exact Hok. Qed.

Lemma preserves_scalar_one_or_none (A : Type) (l : list A) :
  preserves (scalar_one_or_none l).
Proof.
  destruct l as [|a [|b l]]; simpl;
    auto using preserves_ret, preserves_raise.
Qed.

Lemma preserves_set_work (f : DB -> DB) : preserves (set_work f).
Proof. intros s r s' Hok E. injection E as _ <-. exact Hok. Qed.

Lemma preserves_commit : preserves commit.
Proof.
  intros s r s' Hok E. unfold commit in E.
  destruct (db_ok (work s)) eqn:Ew; injection E as _ <-; assumption.
Qed.

Lemma preserves_add_User (now : Z) (obj : Z -> Z -> User.t) :
  preserves (add_User now obj).
Proof. intros s r s' Hok E. injection E as _ <-. exact Hok. Qed.

Lemma preserves_add_Source (now : Z) (obj : Z -> Z -> Source.t) :
  preserves (add_Source now obj).
Proof. intros s r s' Hok E. injection E as _ <-. exact Hok. Qed.

Lemma preserves_add_Article (now : Z) (obj : Z -> Z -> Article.t) :
  preserves (add_Article now obj).
Proof. intros s r s' Hok E. injection E as _ <-. exact Hok. Qed.

Lemma preserves_refresh (A : Type) (table : DB -> list A) (key : A -> Z) (obj : A) :
  preserves (refresh table key obj).
Proof.
  intros s r s' Hok E. unfold refresh in E.
  destruct (find _ _); injection E as _ <-; exact Hok.
Qed.

Lemma preserves_owner_or_admin (msg : string) (cu : User.t) (a : Z) :
  preserves (owner_or_admin msg cu a).
Proof.
  unfold owner_or_admin. destruct (_ && _); auto using preserves_ret, preserves_raise.
Qed.

#[local] Hint Resolve preserves_ret preserves_raise preserves_execute_select
  preserves_scalar_one_or_none preserves_set_work preserves_commit
  preserves_add_User preserves_add_Source preserves_add_Article
  preserves_refresh preserves_owner_or_admin : session.

Lemma preserves_get_current_user `{Security} (token : string) :
  preserves (get_current_user token).
Proof.
  unfold get_current_user. apply preserves_bind.
  - destruct (jwt_decode _ _ _) as [e|payload]; [auto with session|].
    destruct (TokenData.user_id payload), (TokenData.role payload);
      auto with session.
  - intro. preserve_with preserves_bind.
Qed.

Lemma preserves_require_role `{Security} (role token : string) :
  preserves (require_role role token).
Proof.
  unfold require_role. apply preserves_bind; [apply preserves_get_current_user|].
  intro u. destruct (negb _); auto with session.
Qed.

(** Every handler, behind either dependency or none, takes a store that
    satisfies the constraints to one that does. *)
Lemma preserves_handlers `{Security} (now i : Z) (cu : User.t) :
  (forall u_in, preserves (register_user now u_in))
  /\ (forall form_data, preserves (login_for_access_token form_data))
  /\ preserves (read_users_me cu)
  /\ (forall s_in, preserves (create_source now s_in cu))
  /\ preserves read_sources
  /\ preserves (read_source i)
  /\ preserves (get_articles_by_source i)
  /\ (forall upd, preserves (update_source i upd cu))
  /\ preserves (delete_source i cu)
  /\ (forall a_in, preserves (create_article now a_in cu))
  /\ preserves read_articles
  /\ preserves (read_article i)
  /\ (forall upd, preserves (update_article i upd cu))
  /\ preserves (delete_article i cu).
Proof.
  repeat match goal with |- _ /\ _ => split end; intros.
  - unfold register_user. preserve_with preserves_bind.
  - unfold login_for_access_token. preserve_with preserves_bind.
  - apply preserves_ret.
  - unfold create_source. preserve_with preserves_bind.
  - apply preserves_execute_select.
  - unfold read_source. preserve_with preserves_bind.
  - unfold get_articles_by_source. preserve_with preserves_bind.
  - unfold update_source, dirty_Source. preserve_with preserves_bind.
  - unfold delete_source, delete_Source. preserve_with preserves_bind.
  - unfold create_article. preserve_with preserves_bind.
  - apply preserves_execute_select.
  - unfold read_article. preserve_with preserves_bind.
  - unfold update_article, dirty_Article. preserve_with preserves_bind.
  - unfold delete_article, execute_delete_Article. preserve_with preserves_bind.
Qed.

Lemma preserves_get_db (A : Type) (h : M A) (db : DB) :
  preserves h -> db_ok db = true -> db_ok (snd (get_db h db)) = true.
Proof.
  intros Hh Hok. unfold get_db. destruct (h (begin db)) as [r s] eqn:E.
  exact (Hh (begin db) r s Hok E).
Qed.

Lemma preserves_route (A : Type) (dep : string -> M User.t)
    (handler : User.t -> M A) (token : string) (db : DB) :
  preserves (dep token) -> (forall u, preserves (handler u)) ->
  db_ok db = true -> db_ok (snd (route dep handler token db)) = true.
Proof.
  intros Hd Hh. unfold route. apply preserves_get_db.
  now apply preserves_bind.
Qed.

(** * Running the handlers *)

Lemma owner_or_admin_allow (msg : string) (cu : User.t) (a : Z) (s : Session) :
  User.role cu = "admin" \/ User.id cu = a ->
  owner_or_admin msg cu a s = (inr tt, s).
Proof.
  unfold owner_or_admin. intros [Hr | Hi].
  - apply String.eqb_eq in Hr. rewrite Hr. reflexivity.
  - apply Z.eqb_eq in Hi. rewrite Z.eqb_sym, Hi, andb_false_r. reflexivity.
Qed.

Lemma owner_or_admin_deny (msg : string) (cu : User.t) (a : Z) (s : Session) :
  ~ (User.role cu = "admin" \/ User.id cu = a) ->
  owner_or_admin msg cu a s
  = (inl (http_exception status.HTTP_403_FORBIDDEN msg), s).
Proof.
  unfold owner_or_admin. intros Hn.
  destruct (String.eqb_spec (User.role cu) "admin") as [E|E]; [tauto|].
  destruct (Z.eqb_spec a (User.id cu)) as [E'|E']; [subst; tauto|].
  reflexivity.
Qed.

(** Each mutating handler, once its target is found, is the check followed
    by the write. *)
Lemma update_source_run (i : Z) (upd : SourceUpdate.t) (cu : User.t)
    (s : Session) (x : Source.t) :
  filter (fun r => (Source.id r =? i)%Z) (sources (work s)) = [x] ->
  update_source i upd cu s =
  (owner_or_admin update_source_forbidden cu (Source.author_id x) ;;
   dirty_Source (Source_setattrs x upd) ;;
   commit ;;
   refresh sources Source.id (Source_setattrs x upd)) s.
Proof.
  intros H. unfold update_source. unfold bind at 1 2.
  unfold execute_select. rewrite H. reflexivity.
Qed.

Lemma delete_source_run (i : Z) (cu : User.t) (s : Session) (x : Source.t) :
  filter (fun r => (Source.id r =? i)%Z) (sources (work s)) = [x] ->
  delete_source i cu s =
  (owner_or_admin delete_source_forbidden cu (Source.author_id x) ;;
   delete_Source x ;;
   commit) s.
Proof.
  intros H. unfold delete_source. unfold bind at 1 2.
  unfold execute_select. rewrite H. reflexivity.
Qed.

Lemma update_article_run (i : Z) (upd : ArticleUpdate.t) (cu : User.t)
    (s : Session) (x : Article.t) :
  filter (fun r => (Article.id r =? i)%Z) (articles (work s)) = [x] ->
  update_article i upd cu s =
  (owner_or_admin update_article_forbidden cu (Article.author_id x) ;;
   dirty_Article (Article_setattrs x upd) ;;
   commit ;;
   refresh articles Article.id (Article_setattrs x upd)) s.
Proof.
  intros H. unfold update_article. unfold bind at 1 2.
  unfold execute_select. rewrite H. reflexivity.
Qed.

Lemma delete_article_run (i : Z) (cu : User.t) (s : Session) (x : Article.t) :
  filter (fun r => (Article.id r =? i)%Z) (articles (work s)) = [x] ->
  delete_article i cu s =
  (owner_or_admin delete_article_forbidden cu (Article.author_id x) ;;
   execute_delete_Article (fun a => (Article.id a =? i)%Z) ;;
   commit) s.
Proof.
  intros H. unfold delete_article. unfold bind at 1 2.
  unfold execute_select. rewrite H. reflexivity.
Qed.

(** With no row under the key, each of them raises its 404 and touches
    nothing. *)
Lemma update_source_absent (i : Z) (upd : SourceUpdate.t) (cu : User.t) (s : Session) :
  filter (fun r => (Source.id r =? i)%Z) (sources (work s)) = [] ->
  update_source i upd cu s = (inl source_not_found, s).
Proof.
  intros H. unfold update_source. unfold bind at 1 2.
  unfold execute_select. rewrite H. reflexivity.
Qed.

Lemma delete_source_absent (i : Z) (cu : User.t) (s : Session) :
  filter (fun r => (Source.id r =? i)%Z) (sources (work s)) = [] ->
  delete_source i cu s = (inl source_not_found, s).
Proof.
  intros H. unfold delete_source. unfold bind at 1 2.
  unfold execute_select. rewrite H. reflexivity.
Qed.

Lemma update_article_absent (i : Z) (upd : ArticleUpdate.t) (cu : User.t) (s : Session) :
  filter (fun r => (Article.id r =? i)%Z) (articles (work s)) = [] ->
  update_article i upd cu s = (inl article_not_found, s).
Proof.
  intros H. unfold update_article. unfold bind at 1 2.
  unfold execute_select. rewrite H. reflexivity.
Qed.

Lemma delete_article_absent (i : Z) (cu : User.t) (s : Session) :
  filter (fun r => (Article.id r =? i)%Z) (articles (work s)) = [] ->
  delete_article i cu s = (inl article_not_found, s).
Proof.
  intros H. unfold delete_article. unfold bind at 1 2.
  unfold execute_select. rewrite H. reflexivity.
Qed.

(** The rows an update and a delete write. *)
Lemma find_put (A : Type) (key : A -> Z) (obj : A) (l : list A) :
  (exists r, In r l /\ key r = key obj) ->
  find (fun r => (key r =? key obj)%Z)
       (map (fun r => if (key r =? key obj)%Z then obj else r) l) = Some obj.
Proof.
  induction l as [|a l IH]; intros (r & Hin & Hk); [destruct Hin|].
  simpl. destruct (Z.eqb_spec (key a) (key obj)) as [E|E].
  - now rewrite Z.eqb_refl.
  - apply Z.eqb_neq in E. rewrite E. apply IH. exists r. split; [|assumption].
    destruct Hin as [->|Hin]; [|assumption].
    apply Z.eqb_neq in E. contradiction.
Qed.

Lemma find_put_Source (obj : Source.t) (db : DB) :
  (exists r, In r (sources db) /\ Source.id r = Source.id obj) ->
  find (fun r => (Source.id r =? Source.id obj)%Z) (sources (put_Source obj db))
  = Some obj.
Proof. apply (find_put _ Source.id). Qed.

Lemma find_put_Article (obj : Article.t) (db : DB) :
  (exists r, In r (articles db) /\ Article.id r = Article.id obj) ->
  find (fun r => (Article.id r =? Article.id obj)%Z) (articles (put_Article obj db))
  = Some obj.
Proof. apply (find_put _ Article.id). Qed.

Lemma find_app_fresh (A : Type) (key : A -> Z) (row : A) (l : list A) :
  (forall r, In r l -> key r <> key row) ->
  find (fun r => (key r =? key row)%Z) (l ++ [row]) = Some row.
Proof.
  induction l as [|a l IH]; intros H; simpl.
  - now rewrite Z.eqb_refl.
  - destruct (Z.eqb_spec (key a) (key row)) as [E|E].
    + exfalso. apply (H a); [now left | assumption].
    + apply IH. intros r Hr. apply H. now right.
Qed.

Lemma forallb_filter (A : Type) (q p : A -> bool) (l : list A) :
  forallb q l = true -> forallb q (filter p l) = true.
Proof.
  rewrite !forallb_forall. intros H y Hy. apply filter_In in Hy as [Hy _]. auto.
Qed.

Lemma Source_setattrs_id (x : Source.t) (upd : SourceUpdate.t) :
  Source.id (Source_setattrs x upd) = Source.id x.
Proof. destruct upd as [[n|] [u|] [d|]]; reflexivity. Qed.

Lemma Article_setattrs_id (x : Article.t) (upd : ArticleUpdate.t) :
  Article.id (Article_setattrs x upd) = Article.id x.
Proof. destruct upd as [[t|] [m|] [c|] [n|]]; reflexivity. Qed.

Lemma db_ok_drop_Source (x : Source.t) (db : DB) :
  db_ok db = true -> db_ok (drop_Source x db) = true.
Proof.
  intros H. apply db_ok_inv in H as (Hu & (S1 & S2 & S3) & (A1 & A2)).
  unfold db_ok, users_ok, sources_ok, articles_ok, drop_Source. simpl.
  destruct Hu as (-> & -> & ->).
  rewrite (nodupb_filter _ _ Z.eqb Source.id _ _ S1), (forallb_filter _ _ _ _ S2),
    (nodupb_filter _ _ col_clash Source.url _ _ S3),
    (nodupb_filter _ _ Z.eqb Article.id _ _ A1), (forallb_filter _ _ _ _ A2).
  reflexivity.
Qed.

Lemma db_ok_drop_Articles (p : Article.t -> bool) (db : DB) :
  db_ok db = true -> db_ok (drop_Articles p db) = true.
Proof.
  intros H. apply db_ok_inv in H as (Hu & (S1 & S2 & S3) & (A1 & A2)).
  unfold db_ok, users_ok, sources_ok, articles_ok, drop_Articles. simpl.
  destruct Hu as (-> & -> & ->). rewrite S1, S2, S3.
  rewrite (nodupb_filter _ _ Z.eqb Article.id _ _ A1), (forallb_filter _ _ _ _ A2).
  reflexivity.
Qed.

(** ** The mutating handlers on a request of their own *)

Lemma update_source_denied (db : DB) (x : Source.t) (upd : SourceUpdate.t) (cu : User.t) :
  db_ok db = true -> In x (sources db) ->
  ~ (User.role cu = "admin" \/ User.id cu = Source.author_id x) ->
  update_source (Source.id x) upd cu (begin db)
  = (inl (http_exception status.HTTP_403_FORBIDDEN update_source_forbidden), begin db).
Proof.
  intros Hok Hin Hn.
  rewrite (update_source_run _ _ _ (begin db) _ (select_source_by_id _ _ Hok Hin)).
  unfold bind at 1. now rewrite owner_or_admin_deny.
Qed.

Lemma update_source_allowed (db : DB) (x : Source.t) (upd : SourceUpdate.t) (cu : User.t) :
  db_ok db = true -> In x (sources db) ->
  User.role cu = "admin" \/ User.id cu = Source.author_id x ->
  get_db (update_source (Source.id x) upd cu) db
  = if db_ok (put_Source (Source_setattrs x upd) db)
    then (inr (Source_setattrs x upd), put_Source (Source_setattrs x upd) db)
    else (inl IntegrityError, db).
Proof.
  intros Hok Hin Ha. unfold get_db.
  rewrite (update_source_run _ _ _ (begin db) _ (select_source_by_id _ _ Hok Hin)).
  unfold bind at 1. rewrite owner_or_admin_allow by assumption.
  unfold bind, dirty_Source, set_work, commit, refresh, begin. cbn [work store].
  destruct (db_ok (put_Source (Source_setattrs x upd) db)); [|reflexivity].
  cbn [work]. rewrite find_put_Source; [reflexivity|].
  exists x. split; [assumption|]. symmetry. apply Source_setattrs_id.
Qed.

Lemma delete_source_denied (db : DB) (x : Source.t) (cu : User.t) :
  db_ok db = true -> In x (sources db) ->
  ~ (User.role cu = "admin" \/ User.id cu = Source.author_id x) ->
  delete_source (Source.id x) cu (begin db)
  = (inl (http_exception status.HTTP_403_FORBIDDEN delete_source_forbidden), begin db).
Proof.
  intros Hok Hin Hn.
  rewrite (delete_source_run _ _ (begin db) _ (select_source_by_id _ _ Hok Hin)).
  unfold bind at 1. now rewrite owner_or_admin_deny.
Qed.

Lemma delete_source_allowed (db : DB) (x : Source.t) (cu : User.t) :
  db_ok db = true -> In x (sources db) ->
  User.role cu = "admin" \/ User.id cu = Source.author_id x ->
  get_db (delete_source (Source.id x) cu) db = (inr tt, drop_Source x db).
Proof.
  intros Hok Hin Ha. unfold get_db.
  rewrite (delete_source_run _ _ (begin db) _ (select_source_by_id _ _ Hok Hin)).
  unfold bind at 1. rewrite owner_or_admin_allow by assumption.
  unfold bind, delete_Source, set_work, commit, begin. cbn [work store].
  now rewrite db_ok_drop_Source.
Qed.

Lemma update_article_denied (db : DB) (x : Article.t) (upd : ArticleUpdate.t) (cu : User.t) :
  db_ok db = true -> In x (articles db) ->
  ~ (User.role cu = "admin" \/ User.id cu = Article.author_id x) ->
  update_article (Article.id x) upd cu (begin db)
  = (inl (http_exception status.HTTP_403_FORBIDDEN update_article_forbidden), begin db).
Proof.
  intros Hok Hin Hn.
  rewrite (update_article_run _ _ _ (begin db) _ (select_article_by_id _ _ Hok Hin)).
  unfold bind at 1. now rewrite owner_or_admin_deny.
Qed.

Lemma update_article_allowed (db : DB) (x : Article.t) (upd : ArticleUpdate.t) (cu : User.t) :
  db_ok db = true -> In x (articles db) ->
  User.role cu = "admin" \/ User.id cu = Article.author_id x ->
  get_db (update_article (Article.id x) upd cu) db
  = if db_ok (put_Article (Article_setattrs x upd) db)
    then (inr (Article_setattrs x upd), put_Article (Article_setattrs x upd) db)
    else (inl IntegrityError, db).
Proof.
  intros Hok Hin Ha. unfold get_db.
  rewrite (update_article_run _ _ _ (begin db) _ (select_article_by_id _ _ Hok Hin)).
  unfold bind at 1. rewrite owner_or_admin_allow by assumption.
  unfold bind, dirty_Article, set_work, commit, refresh, begin. cbn [work store].
  destruct (db_ok (put_Article (Article_setattrs x upd) db)); [|reflexivity].
  cbn [work]. rewrite find_put_Article; [reflexivity|].
  exists x. split; [assumption|]. symmetry. apply Article_setattrs_id.
Qed.

Lemma delete_article_denied (db : DB) (x : Article.t) (cu : User.t) :
  db_ok db = true -> In x (articles db) ->
  ~ (User.role cu = "admin" \/ User.id cu = Article.author_id x) ->
  delete_article (Article.id x) cu (begin db)
  = (inl (http_exception status.HTTP_403_FORBIDDEN delete_article_forbidden), begin db).
Proof.
  intros Hok Hin Hn.
  rewrite (delete_article_run _ _ (begin db) _ (select_article_by_id _ _ Hok Hin)).
  unfold bind at 1. now rewrite owner_or_admin_deny.
Qed.

Lemma delete_article_allowed (db : DB) (x : Article.t) (cu : User.t) :
  db_ok db = true -> In x (articles db) ->
  User.role cu = "admin" \/ User.id cu = Article.author_id x ->
  get_db (delete_article (Article.id x) cu) db
  = (inr tt, drop_Articles (fun a => (Article.id a =? Article.id x)%Z) db).
Proof.
  intros Hok Hin Ha. unfold get_db.
  rewrite (delete_article_run _ _ (begin db) _ (select_article_by_id _ _ Hok Hin)).
  unfold bind at 1. rewrite owner_or_admin_allow by assumption.
  unfold bind, execute_delete_Article, set_work, commit, begin. cbn [work store].
  now rewrite db_ok_drop_Articles.
Qed.

Lemma owner_or_admin_dec (cu : User.t) (a : Z) :
  {User.role cu = "admin" \/ User.id cu = a}
  + {~ (User.role cu = "admin" \/ User.id cu = a)}.
Proof.
  destruct (String.eqb_spec (User.role cu) "admin") as [E|E]; [left; now left|].
  destruct (Z.eq_dec (User.id cu) a) as [E'|E']; [left; now right|].
  right. tauto.
Qed.

(** * The authorization policy *)

(** C1.  The owner-or-admin check lets a principal through exactly when its
    role is ["admin"] or its id is the resource's [author_id], and raises
    403 Forbidden in every other case; the four mutating handlers of sources
    and articles answer 403 on an existing target exactly when the check
    does.  For a resource owned by user 5: user 5 with role ["user"] passes,
    user 7 with role ["user"] is forbidden, user 7 with role ["admin"]
    passes. *)
Theorem owner_or_admin_decides :
  (forall msg cu owner s,
      (owner_or_admin msg cu owner s = (inr tt, s)
       <-> User.role cu = "admin" \/ User.id cu = owner)
      /\ (~ (User.role cu = "admin" \/ User.id cu = owner)
          -> owner_or_admin msg cu owner s
             = (inl (http_exception status.HTTP_403_FORBIDDEN msg), s)))
  /\ (forall db cu, db_ok db = true ->
      (forall x upd, In x (sources db) ->
          (fst (get_db (update_source (Source.id x) upd cu) db)
           = inl (http_exception status.HTTP_403_FORBIDDEN update_source_forbidden)
           <-> ~ (User.role cu = "admin" \/ User.id cu = Source.author_id x)))
      /\ (forall x, In x (sources db) ->
          (fst (get_db (delete_source (Source.id x) cu) db)
           = inl (http_exception status.HTTP_403_FORBIDDEN delete_source_forbidden)
           <-> ~ (User.role cu = "admin" \/ User.id cu = Source.author_id x)))
      /\ (forall x upd, In x (articles db) ->
          (fst (get_db (update_article (Article.id x) upd cu) db)
           = inl (http_exception status.HTTP_403_FORBIDDEN update_article_forbidden)
           <-> ~ (User.role cu = "admin" \/ User.id cu = Article.author_id x)))
      /\ (forall x, In x (articles db) ->
          (fst (get_db (delete_article (Article.id x) cu) db)
           = inl (http_exception status.HTTP_403_FORBIDDEN delete_article_forbidden)
           <-> ~ (User.role cu = "admin" \/ User.id cu = Article.author_id x))))
  /\ (forall msg s username email password created_at,
      owner_or_admin msg (User.mk 5 username email password "user" created_at) 5 s
      = (inr tt, s)
      /\ owner_or_admin msg (User.mk 7 username email password "user" created_at) 5 s
         = (inl (http_exception status.HTTP_403_FORBIDDEN msg), s)
      /\ owner_or_admin msg (User.mk 7 username email password "admin" created_at) 5 s
         = (inr tt, s)).
Proof.
  split; [|split].
  - intros msg cu owner s. split; [split|].
    + intros H. destruct (owner_or_admin_dec cu owner) as [Ha|Hn]; [assumption|].
      rewrite owner_or_admin_deny in H by assumption. discriminate.
    + apply owner_or_admin_allow.
    + apply owner_or_admin_deny.
  - intros db cu Hok. repeat split.
    + intros Hres Ha. rewrite update_source_allowed in Hres by assumption.
      destruct (db_ok _) in Hres; discriminate.
    + intros Hn. unfold get_db. now rewrite update_source_denied.
    + intros Hres Ha. rewrite delete_source_allowed in Hres by assumption.
      discriminate.
    + intros Hn. unfold get_db. now rewrite delete_source_denied.
    + intros Hres Ha. rewrite update_article_allowed in Hres by assumption.
      destruct (db_ok _) in Hres; discriminate.
    + intros Hn. unfold get_db. now rewrite update_article_denied.
    + intros Hres Ha. rewrite delete_article_allowed in Hres by assumption.
      discriminate.
    + intros Hn. unfold get_db. now rewrite delete_article_denied.
  - intros. repeat split.
Qed.

Lemma owner_or_admin_decides_witness :
  db_ok Fixture.db0 = true
  /\ fst (get_db (update_source 2
                    (SourceUpdate.mk (Some (Some "Mail")) None None) Fixture.alice)
            Fixture.db0)
     = inl (http_exception status.HTTP_403_FORBIDDEN update_source_forbidden)
  /\ fst (get_db (delete_article 1 Fixture.bob) Fixture.db0)
     = inl (http_exception status.HTTP_403_FORBIDDEN delete_article_forbidden).
Proof.
  assert (Hok : db_ok Fixture.db0 = true) by reflexivity.
  destruct owner_or_admin_decides as (_ & H & _).
  destruct (H Fixture.db0 Fixture.alice Hok) as (Hus & _).
  destruct (H Fixture.db0 Fixture.bob Hok) as (_ & _ & _ & Hda).
  split; [exact Hok|]. split.
  - apply (Hus Fixture.s2); [simpl; tauto|].
    intros [E|E]; discriminate E.
  - apply (Hda Fixture.a1); [simpl; tauto|].
    intros [E|E]; discriminate E.
Defined.



(** * Creation and deletion *)

Lemma next_id_new (A : Type) (key : A -> Z) (l : list A) (r : A) :
  In r l -> key r <> next_id (map key l).
Proof.
  intros Hr E. pose proof (next_id_fresh (map key l) (key r) (in_map key l r Hr)). lia.
Qed.

Lemma db_ok_insert_Article (db : DB) (row : Article.t) :
  db_ok db = true ->
  Article.id row = next_id (map Article.id (articles db)) ->
  not_null (Article.title row) = true -> not_null (Article.content row) = true ->
  db_ok (insert_Article row db) = true.
Proof.
  intros H Hid Ht Hc. apply db_ok_inv in H as (Hu & (S1 & S2 & S3) & (A1 & A2)).
  unfold db_ok, users_ok, sources_ok, articles_ok, insert_Article. simpl.
  destruct Hu as (-> & -> & ->). rewrite S1, S2, S3.
  rewrite (nodupb_app_one _ _ Z.eqb Article.id _ row A1).
  - rewrite forallb_app, A2. simpl. now rewrite Ht, Hc.
  - intros y Hy. apply Z.eqb_neq. rewrite Hid. now apply next_id_new.
Qed.

Lemma find_inserted_Article (db : DB) (row : Article.t) :
  Article.id row = next_id (map Article.id (articles db)) ->
  find (fun r => (Article.id r =? Article.id row)%Z) (articles (insert_Article row db))
  = Some row.
Proof.
  intros Hid. apply (find_app_fresh _ Article.id).
  intros r Hr. rewrite Hid. now apply next_id_new.
Qed.

Lemma create_article_run (now : Z) (a_in : ArticleCreate.t) (cu : User.t)
    (s : Session) (x : Source.t) :
  filter (fun r => (Source.id r =? ArticleCreate.source_id a_in)%Z) (sources (work s))
  = [x] ->
  create_article now a_in cu s =
  (new_article <- add_Article now (new_article a_in cu) ;;
   commit ;;
   refresh articles Article.id new_article) s.
Proof.
  intros H. unfold create_article. unfold bind at 1 2.
  unfold execute_select. rewrite H. reflexivity.
Qed.

Lemma create_article_absent (now : Z) (a_in : ArticleCreate.t) (cu : User.t)
    (s : Session) :
  filter (fun r => (Source.id r =? ArticleCreate.source_id a_in)%Z) (sources (work s))
  = [] ->
  create_article now a_in cu s
  = (inl (parent_not_found (ArticleCreate.source_id a_in)), s).
Proof.
  intros H. unfold create_article. unfold bind at 1 2.
  unfold execute_select. rewrite H. reflexivity.
Qed.



Lemma filter_length_split (A : Type) (p : A -> bool) (l : list A) :
  (List.length (filter p l) + List.length (filter (fun a => negb (p a)) l)
   = List.length l)%nat.
Proof.
  induction l as [|a l IH]; simpl; [reflexivity|].
  destruct (p a); simpl; lia.
Qed.

Lemma filter_filter_negb (A : Type) (p : A -> bool) (l : list A) :
  filter p (filter (fun a => negb (p a)) l) = [].
Proof.
  apply filter_nil_iff. intros y Hy. apply filter_In in Hy as [_ Hy].
  now apply negb_true_iff.
Qed.

(** C6.  Deleting a source, by its author or by an admin, succeeds; the
    source is gone, none of its N articles remains, and exactly those N
    articles were removed: every other row of every table is kept. *)
Theorem delete_source_cascades (db : DB) (x : Source.t) (cu : User.t) :
  db_ok db = true -> In x (sources db) ->
  User.role cu = "admin" \/ User.id cu = Source.author_id x ->
  exists db',
    get_db (delete_source (Source.id x) cu) db = (inr tt, db')
    /\ filter (fun a => (Article.source_id a =? Source.id x)%Z) (articles db') = []
    /\ (forall a, In a (articles db') -> Article.source_id a <> Source.id x)
    /\ (forall r, In r (sources db') -> Source.id r <> Source.id x)
    /\ (List.length (articles db')
        + List.length (filter (fun a => (Article.source_id a =? Source.id x)%Z)
                              (articles db))
        = List.length (articles db))%nat
    /\ (forall a, In a (articles db) -> Article.source_id a <> Source.id x ->
                  In a (articles db'))
    /\ (forall r, In r (sources db) -> Source.id r <> Source.id x -> In r (sources db'))
    /\ users db' = users db.
Proof.
  intros Hok Hin Ha. exists (drop_Source x db).
  split; [now apply delete_source_allowed|].
  unfold drop_Source. cbn [articles sources users]. repeat split.
  - apply filter_filter_negb.
  - intros a Hin'. apply filter_In in Hin' as [_ Hne].
    apply negb_true_iff in Hne. now apply Z.eqb_neq.
  - intros r Hin'. apply filter_In in Hin' as [_ Hne].
    apply negb_true_iff in Hne. now apply Z.eqb_neq.
  - rewrite Nat.add_comm. apply filter_length_split.
  - intros a Hin' Hne. apply filter_In. split; [assumption|].
    apply negb_true_iff. now apply Z.eqb_neq.
  - intros r Hin' Hne. apply filter_In. split; [assumption|].
    apply negb_true_iff. now apply Z.eqb_neq.
Qed.

Lemma delete_source_cascades_witness :
  exists db',
    get_db (delete_source 1 Fixture.alice) Fixture.db0 = (inr tt, db')
    /\ filter (fun a => (Article.source_id a =? 1)%Z) (articles db') = []
    /\ List.length (filter (fun a => (Article.source_id a =? 1)%Z) (articles Fixture.db0))
       = 2%nat.
Proof.
  destruct (delete_source_cascades Fixture.db0 Fixture.s1 Fixture.alice eq_refl)
    as (db' & Hrun & Hnone & _).
  - simpl. tauto.
  - right. reflexivity.
  - exists db'. repeat split; assumption || reflexivity.
Defined.

(** * Registration and uniqueness *)

Lemma get_db_unchanged (A : Type) (h : M A) (db : DB) (r : Result A) :
  h (begin db) = (r, begin db) -> get_db h db = (r, db).
Proof. intros H. unfold get_db. now rewrite H. Qed.

Lemma select_user_by_email (db : DB) (u : User.t) :
  db_ok db = true -> In u (users db) ->
  filter (fun r => User.email r =? User.email u) (users db) = [u].
Proof.
  intros Hok Hin. apply db_ok_inv in Hok as ((_ & _ & He) & _).
  apply (filter_single _ _ String.eqb User.email); auto using String.eqb_refl.
  intros a b Ha Hb. apply String.eqb_eq in Ha, Hb. apply String.eqb_eq. congruence.
Qed.

Lemma select_user_by_username (db : DB) (u : User.t) :
  db_ok db = true -> In u (users db) ->
  filter (fun r => User.username r =? User.username u) (users db) = [u].
Proof.
  intros Hok Hin. apply db_ok_inv in Hok as ((_ & Hn & _) & _).
  apply (filter_single _ _ String.eqb User.username); auto using String.eqb_refl.
  intros a b Ha Hb. apply String.eqb_eq in Ha, Hb. apply String.eqb_eq. congruence.
Qed.

Lemma select_source_by_url (db : DB) (x : Source.t) (u : string) :
  db_ok db = true -> In x (sources db) -> Source.url x = Some u ->
  filter (fun r => col_eqb (Source.url r) u) (sources db) = [x].
Proof.
  intros Hok Hin Hu. apply db_ok_inv in Hok as (_ & (_ & _ & Hn) & _).
  apply (filter_single _ _ col_clash Source.url); auto.
  - intros a b Ha Hb. unfold col_clash, col_eqb in *.
    destruct (Source.url a) as [ua|]; [|discriminate].
    destruct (Source.url b) as [ub|]; [|discriminate].
    apply String.eqb_eq in Ha, Hb. apply String.eqb_eq. congruence.
  - rewrite Hu. apply String.eqb_refl.
Qed.

Lemma select_by_string_none (A : Type) (key : A -> string) (l : list A) (v : string) :
  (forall r, In r l -> key r <> v) -> filter (fun r => key r =? v) l = [].
Proof.
  intros H. apply filter_nil_iff. intros y Hy. apply String.eqb_neq. now apply H.
Qed.

Section Registration.

Context `{Security}.

Lemma register_user_email_taken (now : Z) (u_in : UserCreate.t) (s : Session)
    (u : User.t) :
  filter (fun r => User.email r =? UserCreate.email u_in) (users (work s)) = [u] ->
  register_user now u_in s = (inl email_exists_exception, s).
Proof.
  intros He. unfold register_user. unfold bind at 1 2.
  unfold execute_select. rewrite He. reflexivity.
Qed.

Lemma register_user_username_taken (now : Z) (u_in : UserCreate.t) (s : Session)
    (u : User.t) :
  filter (fun r => User.email r =? UserCreate.email u_in) (users (work s)) = [] ->
  filter (fun r => User.username r =? UserCreate.username u_in) (users (work s))
  = [u] ->
  register_user now u_in s = (inl username_exists_exception, s).
Proof.
  intros He Hn. unfold register_user. unfold bind at 1 2.
  unfold execute_select. rewrite He. cbn [scalar_one_or_none ret].
  unfold bind at 1 2. rewrite Hn. reflexivity.
Qed.

Lemma register_user_run (now : Z) (u_in : UserCreate.t) (s : Session) :
  filter (fun r => User.email r =? UserCreate.email u_in) (users (work s)) = [] ->
  filter (fun r => User.username r =? UserCreate.username u_in) (users (work s))
  = [] ->
  register_user now u_in s
  = (new_user <- add_User now (new_user u_in) ;;
     commit ;;
     refresh users User.id new_user) s.
Proof.
  intros He Hn. unfold register_user. unfold bind at 1 2.
  unfold execute_select. rewrite He. cbn [scalar_one_or_none ret].
  unfold bind at 1 2. rewrite Hn. reflexivity.
Qed.

(** What a registration that reaches the insert returns. *)
Lemma register_user_insert (now : Z) (u_in : UserCreate.t) (db : DB) :
  let row := new_user u_in (next_id (map User.id (users db))) now in
  get_db (new_user <- add_User now (new_user u_in) ;;
          commit ;;
          refresh users User.id new_user) db
  = if db_ok (insert_User row db)
    then (inr row, insert_User row db)
    else (inl IntegrityError, db).
Proof.
  intros row. unfold get_db, bind, add_User, commit, refresh, begin.
  cbn [work store]. fold row.
  destruct (db_ok (insert_User row db)); [|reflexivity].
  cbn [work store]. unfold insert_User at 1. cbn [users].
  rewrite (find_app_fresh _ User.id row (users db)); [reflexivity|].
  intros r Hr. now apply (next_id_new _ User.id).
Qed.

End Registration.

Lemma get_db_ext (A : Type) (h k : M A) (db : DB) :
  h (begin db) = k (begin db) -> get_db h db = get_db k db.
Proof. intros E. unfold get_db. now rewrite E. Qed.

Lemma db_ok_insert_User (db : DB) (row : User.t) :
  db_ok db = true ->
  User.id row = next_id (map User.id (users db)) ->
  (forall r, In r (users db) -> User.username r <> User.username row) ->
  (forall r, In r (users db) -> User.email r <> User.email row) ->
  db_ok (insert_User row db) = true.
Proof.
  intros H Hid Hn He. apply db_ok_inv in H as ((U1 & U2 & U3) & Hs & Ha).
  unfold db_ok, users_ok, sources_ok, articles_ok, insert_User. simpl.
  destruct Hs as (-> & -> & ->). destruct Ha as (-> & ->).
  rewrite (nodupb_app_one _ _ Z.eqb User.id _ row U1),
    (nodupb_app_one _ _ String.eqb User.username _ row U2),
    (nodupb_app_one _ _ String.eqb User.email _ row U3); [reflexivity| | |].
  - intros y Hy. apply String.eqb_neq. now apply He.
  - intros y Hy. apply String.eqb_neq. now apply Hn.
  - intros y Hy. apply Z.eqb_neq. rewrite Hid. now apply next_id_new.
Qed.

(** C9.  A registration that succeeds creates a user whose role is
    ["user"]: the request body ([UserCreate]) has no role field and the
    handler writes the constant, so the stored row is determined by the
    username, the email and the password alone and never has the role
    ["admin"]; and a registration with a new username and a new email does
    succeed. *)
Theorem register_user_role `{Security} (db : DB) (now : Z) (u_in : UserCreate.t) :
  (forall u db',
      get_db (register_user now u_in) db = (inr u, db') ->
      User.role u = "user" /\ User.role u <> "admin"
      /\ u = new_user u_in (next_id (map User.id (users db))) now
      /\ db' = insert_User u db)
  /\ (db_ok db = true ->
      (forall r, In r (users db) -> User.email r <> UserCreate.email u_in) ->
      (forall r, In r (users db) -> User.username r <> UserCreate.username u_in) ->
      exists u db', get_db (register_user now u_in) db = (inr u, db')).
Proof.
  split.
  - intros u db' Hrun.
    assert (E : u = new_user u_in (next_id (map User.id (users db))) now
                /\ db' = insert_User u db).
    { destruct (filter (fun r => User.email r =? UserCreate.email u_in) (users db))
        as [|a [|b l]] eqn:He;
      [ destruct (filter (fun r => User.username r =? UserCreate.username u_in)
                    (users db)) as [|a [|b l]] eqn:Hn | | ].
      - rewrite (get_db_ext _ _ _ _ (register_user_run now u_in (begin db) He Hn))
          in Hrun.
        rewrite register_user_insert in Hrun.
        destruct (db_ok _) in Hrun; [|discriminate].
        injection Hrun as <- <-. now split.
      - unfold get_db in Hrun.
        rewrite (register_user_username_taken now u_in (begin db) a He Hn) in Hrun.
        discriminate.
      - unfold get_db, register_user, bind, execute_select, begin in Hrun.
        cbn [work store] in Hrun. rewrite He in Hrun. cbn in Hrun.
        rewrite Hn in Hrun. discriminate.
      - unfold get_db in Hrun.
        rewrite (register_user_email_taken now u_in (begin db) a He) in Hrun.
        discriminate.
      - unfold get_db, register_user, bind, execute_select, begin in Hrun.
        cbn [work store] in Hrun. rewrite He in Hrun. discriminate. }
    destruct E as [Eu Edb]. repeat split; try assumption.
    + rewrite Eu. reflexivity.
    + rewrite Eu. discriminate.
  - intros Hok He Hn.
    exists (new_user u_in (next_id (map User.id (users db))) now).
    exists (insert_User (new_user u_in (next_id (map User.id (users db))) now) db).
    rewrite (get_db_ext _ _ _ _
               (register_user_run now u_in (begin db)
                  (select_by_string_none _ User.email _ _ He)
                  (select_by_string_none _ User.username _ _ Hn))).
    rewrite register_user_insert.
    now rewrite db_ok_insert_User.
Qed.

Lemma register_user_role_witness :
  exists u db',
    get_db (register_user (H := Fixture.security) 600
              (UserCreate.mk "carol" "c@x.com" "pw-c")) Fixture.db0 = (inr u, db')
    /\ User.role u = "user".
Proof.
  destruct (register_user_role (H := Fixture.security) Fixture.db0 600
              (UserCreate.mk "carol" "c@x.com" "pw-c")) as (Hrole & Hruns).
  destruct (Hruns eq_refl) as (u & db' & Hrun).
  - simpl. intros r [<-|[<-|[<-|[]]]]; discriminate.
  - simpl. intros r [<-|[<-|[<-|[]]]]; discriminate.
  - exists u, db'. split; [assumption|]. now apply (Hrole u db').
Defined.

(** C7.  Registration with the email or the username of a stored user, and
    creation of a source with the url of a stored source, are refused by the
    handler's own query before anything is added to the session: the
    exception raised is the handler's 422 with its own message, not the
    storage layer's [IntegrityError], and the session is returned as it was
    opened, so no row is created. *)
Theorem duplicates_rejected_before_insert `{Security} (db : DB) (now : Z) :
  db_ok db = true ->
  (forall u_in,
      (exists u, In u (users db) /\ User.email u = UserCreate.email u_in) ->
      register_user now u_in (begin db) = (inl email_exists_exception, begin db)
      /\ get_db (register_user now u_in) db = (inl email_exists_exception, db))
  /\ (forall u_in,
      (forall u, In u (users db) -> User.email u <> UserCreate.email u_in) ->
      (exists u, In u (users db) /\ User.username u = UserCreate.username u_in) ->
      register_user now u_in (begin db) = (inl username_exists_exception, begin db)
      /\ get_db (register_user now u_in) db = (inl username_exists_exception, db))
  /\ (forall s_in cu,
      (exists r, In r (sources db) /\ Source.url r = Some (SourceCreate.url s_in)) ->
      create_source now s_in cu (begin db) = (inl url_exists_exception, begin db)
      /\ get_db (create_source now s_in cu) db = (inl url_exists_exception, db))
  /\ (exists m1 m2 m3,
      email_exists_exception
      = http_exception status.HTTP_422_UNPROCESSABLE_ENTITY m1
      /\ username_exists_exception
         = http_exception status.HTTP_422_UNPROCESSABLE_ENTITY m2
      /\ url_exists_exception
         = http_exception status.HTTP_422_UNPROCESSABLE_ENTITY m3).
Proof.
  intros Hok. split; [|split; [|split]].
  - intros u_in (u & Hin & He).
    assert (E : register_user now u_in (begin db)
                = (inl email_exists_exception, begin db)).
    { apply (register_user_email_taken now u_in (begin db) u).
      rewrite <- He. now apply select_user_by_email. }
    split; [exact E | now apply get_db_unchanged].
  - intros u_in Hnone (u & Hin & Hn).
    assert (E : register_user now u_in (begin db)
                = (inl username_exists_exception, begin db)).
    { apply (register_user_username_taken now u_in (begin db) u).
      - now apply select_by_string_none.
      - rewrite <- Hn. now apply select_user_by_username. }
    split; [exact E | now apply get_db_unchanged].
  - intros s_in cu (r & Hin & Hu).
    assert (E : create_source now s_in cu (begin db)
                = (inl url_exists_exception, begin db)).
    { unfold create_source. unfold bind at 1 2. unfold execute_select.
      cbn [work begin]. now rewrite (select_source_by_url db r _ Hok Hin Hu). }
    split; [exact E | now apply get_db_unchanged].
  - now eexists _, _, _.
Qed.

Lemma duplicates_rejected_before_insert_witness :
  get_db (register_user (H := Fixture.security) 600
            (UserCreate.mk "carol" "a@x.com" "pw-c")) Fixture.db0
  = (inl email_exists_exception, Fixture.db0)
  /\ get_db (register_user (H := Fixture.security) 600
               (UserCreate.mk "bob" "c@x.com" "pw-c")) Fixture.db0
     = (inl username_exists_exception, Fixture.db0)
  /\ get_db (create_source 600 (SourceCreate.mk "Wire 2" "http://wire" None)
               Fixture.bob) Fixture.db0
     = (inl url_exists_exception, Fixture.db0).
Proof.
  destruct (duplicates_rejected_before_insert (H := Fixture.security)
              Fixture.db0 600 eq_refl) as (He & Hn & Hu & _).
  split; [|split].
  - apply He. exists Fixture.alice. simpl. tauto.
  - apply Hn.
    + simpl. intros r [<-|[<-|[<-|[]]]]; discriminate.
    + exists Fixture.bob. simpl. tauto.
  - apply Hu. exists Fixture.s1. simpl. tauto.
Defined.

(** * Identity *)

Section Identity.

Context `{Security}.

Lemma get_current_user_decode_error (token : string) (s : Session) (e : JWTError) :
  jwt_decode token SECRET_KEY [ALGORITHM] = inl e ->
  get_current_user token s = (inl credentials_exception, s).
Proof.
  intros Hd. unfold get_current_user. unfold bind at 1. now rewrite Hd.
Qed.

Lemma get_current_user_missing_claim (token : string) (s : Session)
    (payload : TokenData.t) :
  jwt_decode token SECRET_KEY [ALGORITHM] = inr payload ->
  TokenData.user_id payload = None \/ TokenData.role payload = None ->
  get_current_user token s = (inl credentials_exception, s).
Proof.
  intros Hd Hc. unfold get_current_user. unfold bind at 1. rewrite Hd.
  destruct (TokenData.user_id payload), (TokenData.role payload);
    try reflexivity.
  destruct Hc; discriminate.
Qed.

Lemma get_current_user_select (token : string) (s : Session)
    (payload : TokenData.t) (uid : Z) (r : string) :
  jwt_decode token SECRET_KEY [ALGORITHM] = inr payload ->
  TokenData.user_id payload = Some uid -> TokenData.role payload = Some r ->
  get_current_user token s
  = match filter (fun u => (User.id u =? uid)%Z) (users (work s)) with
    | [] => (inl credentials_exception, s)
    | [u] => (inr u, s)
    | _ :: _ :: _ => (inl MultipleResultsFound, s)
    end.
Proof.
  intros Hd Hu Hr. unfold get_current_user. unfold bind at 1.
  rewrite Hd, Hu, Hr. cbn [ret]. unfold bind at 1 2. unfold execute_select.
  cbn [TokenData.user_id].
  destruct (filter _ _) as [|a [|b l]]; reflexivity.
Qed.

Lemma login_no_user (form_data : UserLogin.t) (s : Session) :
  filter (fun u => User.email u =? UserLogin.email form_data) (users (work s)) = [] ->
  login_for_access_token form_data s = (inl login_exception, s).
Proof.
  intros He. unfold login_for_access_token. unfold bind at 1 2.
  unfold execute_select. now rewrite He.
Qed.

Lemma login_user_found (form_data : UserLogin.t) (s : Session) (u : User.t) :
  filter (fun u => User.email u =? UserLogin.email form_data) (users (work s)) = [u] ->
  login_for_access_token form_data s
  = if negb (verify_password (UserLogin.password form_data) (User.password u))
    then (inl login_exception, s)
    else (inr {| Token.access_token :=
                   create_access_token
                     (TokenData.mk (Some (User.id u)) (Some (User.role u)))
                     ACCESS_TOKEN_EXPIRE_MINUTES;
                 Token.token_type := "bearer" |}, s).
Proof.
  intros He. unfold login_for_access_token. unfold bind at 1 2.
  unfold execute_select. rewrite He. cbn [scalar_one_or_none ret].
  destruct (negb _); reflexivity.
Qed.

End Identity.

(** C3, as stated, fails: the outcome is not one and the same across the
    failures of a token and the failures of a login.  A token that does not
    decode and a login with an unknown email are both answered 401, but with
    two exceptions that differ in their [detail], so the caller can tell
    them apart. *)
Lemma unauthorized_outcomes_differ :
  ~ (forall (H : Security) (db : DB) (token : string) (form_data : UserLogin.t)
            (e1 e2 : Exn),
        route (LoggedInUser (H := H)) read_users_me token db = (inl e1, db) ->
        get_db (login_for_access_token (H := H) form_data) db = (inl e2, db) ->
        e1 = e2).
Proof.
  intros Hclaim.
  pose proof (Hclaim Fixture.security Fixture.db0 "garbage"
                (UserLogin.mk "nobody@x.com" "pw-a")
                credentials_exception login_exception eq_refl eq_refl) as E.
  apply (f_equal (fun e => match e with
                           | HTTPError h => detail h
                           | _ => EmptyString
                           end)) in E.
  cbn in E. discriminate E.
Qed.

(** C3, amended.  Every way a bearer token can fail to resolve (the decoder
    raises a [JWTError], be it for a malformed token, a bad signature or an
    expired one; the [user_id] or the [role] claim is absent; no user is
    stored under the decoded id, an id that the driver binds) raises one and
    the same exception, [credentials_exception]; a login with an unknown
    email and a login with a wrong password raise one and the same
    exception, [login_exception].  The two exceptions are both a 401
    Unauthorized with the same [WWW-Authenticate] header and differ in
    nothing but their [detail], which tells a failed token from a failed
    login and no cause from another.  Nothing is written in any of these
    cases. *)
Theorem unauthorized_is_undifferentiated `{Security} (db : DB) :
  (forall token,
      (exists e, jwt_decode token SECRET_KEY [ALGORITHM] = inl e)
      \/ (exists payload,
             jwt_decode token SECRET_KEY [ALGORITHM] = inr payload
             /\ (TokenData.user_id payload = None \/ TokenData.role payload = None))
      \/ (exists payload uid,
             jwt_decode token SECRET_KEY [ALGORITHM] = inr payload
             /\ TokenData.user_id payload = Some uid
             /\ in_int64 uid = true
             /\ (forall u, In u (users db) -> User.id u <> uid)) ->
      get_current_user token (begin db) = (inl credentials_exception, begin db)
      /\ forall (A : Type) (handler : User.t -> M A),
          route LoggedInUser handler token db = (inl credentials_exception, db))
  /\ (forall form_data,
      (forall u, In u (users db) -> User.email u <> UserLogin.email form_data)
      \/ (db_ok db = true
          /\ exists u, In u (users db)
                       /\ User.email u = UserLogin.email form_data
                       /\ verify_password (UserLogin.password form_data)
                            (User.password u) = false) ->
      login_for_access_token form_data (begin db) = (inl login_exception, begin db)
      /\ get_db (login_for_access_token form_data) db = (inl login_exception, db))
  /\ (exists h1 h2,
      credentials_exception = HTTPError h1 /\ login_exception = HTTPError h2
      /\ status_code h1 = status.HTTP_401_UNAUTHORIZED
      /\ status_code h2 = status.HTTP_401_UNAUTHORIZED
      /\ headers h1 = [("WWW-Authenticate", "Bearer")]
      /\ headers h2 = headers h1
      /\ detail h1 = "Токен недействителен или отсутствует"
      /\ detail h2 = "Неправильный email или пароль"
      /\ detail h1 <> detail h2).
Proof.
  split; [|split].
  - intros token Hcause.
    assert (E : get_current_user token (begin db)
                = (inl credentials_exception, begin db)).
    { destruct Hcause
        as [(e & Hd) | [(payload & Hd & Hc) | (payload & uid & Hd & Hu & _ & Hnone)]].
      - now apply (get_current_user_decode_error token _ e).
      - now apply (get_current_user_missing_claim token _ payload).
      - destruct (TokenData.role payload) as [r|] eqn:Hr.
        + rewrite (get_current_user_select token _ payload uid r Hd Hu Hr).
          cbn [work begin].
          now rewrite (select_by_id_none _ User.id (users db) uid Hnone).
        + apply (get_current_user_missing_claim token _ payload Hd). now right. }
    split; [exact E|]. intros A handler.
    unfold route, LoggedInUser, get_db, bind. now rewrite E.
  - intros form_data Hcause.
    assert (E : login_for_access_token form_data (begin db)
                = (inl login_exception, begin db)).
    { destruct Hcause as [Hnone | (Hok & u & Hin & He & Hv)].
      - apply login_no_user. cbn [work begin]. now apply select_by_string_none.
      - rewrite (login_user_found form_data (begin db) u).
        + now rewrite Hv.
        + cbn [work begin]. rewrite <- He. now apply select_user_by_email. }
    split; [exact E | now apply get_db_unchanged].
  - eexists _, _. split; [reflexivity|]. split; [reflexivity|].
    cbn [status_code headers detail]. repeat (split; [reflexivity|]).
    discriminate.
Qed.

Lemma unauthorized_is_undifferentiated_witness :
  route (LoggedInUser (H := Fixture.security)) read_users_me "garbage" Fixture.db0
  = (inl credentials_exception, Fixture.db0)
  /\ route (LoggedInUser (H := Fixture.security)) read_users_me "x" Fixture.db0
     = (inl credentials_exception, Fixture.db0)
  /\ route (LoggedInUser (H := Fixture.security)) read_users_me "1" Fixture.db0
     = (inl credentials_exception, Fixture.db0)
  /\ route (LoggedInUser (H := Fixture.security)) read_users_me "9:user" Fixture.db0
     = (inl credentials_exception, Fixture.db0)
  /\ get_db (login_for_access_token (H := Fixture.security)
               (UserLogin.mk "nobody@x.com" "pw-a")) Fixture.db0
     = (inl login_exception, Fixture.db0)
  /\ get_db (login_for_access_token (H := Fixture.security)
               (UserLogin.mk "a@x.com" "guess")) Fixture.db0
     = (inl login_exception, Fixture.db0).
Proof.
  destruct (unauthorized_is_undifferentiated (H := Fixture.security) Fixture.db0)
    as (Htok & Hlogin & _).
  split; [|split; [|split; [|split; [|split]]]].
  - apply (Htok "garbage"). left. now exists JWTError_base.
  - apply (Htok "x"). left. now exists ExpiredSignatureError.
  - apply (Htok "1"). right. left. exists (TokenData.mk (Some 1%Z) None).
    split; [reflexivity | now right].
  - apply (Htok "9:user"). right. right.
    exists (TokenData.mk (Some 9%Z) (Some "user")), 9%Z.
    split; [reflexivity|]. split; [reflexivity|]. split; [reflexivity|].
    simpl. intros u [<-|[<-|[<-|[]]]]; discriminate.
  - apply (Hlogin (UserLogin.mk "nobody@x.com" "pw-a")). left.
    simpl. intros u [<-|[<-|[<-|[]]]]; discriminate.
  - apply (Hlogin (UserLogin.mk "a@x.com" "guess")). right.
    split; [reflexivity|]. exists Fixture.alice. simpl. tauto.
Defined.

(** C2.  A token that decodes to the id of a stored user resolves to that
    user's row as it is in storage now.  The role claim in the token is only
    required to be present: whatever it says, [require_role] compares the
    stored role, and a handler behind either dependency runs with the stored
    row, so the owner-or-admin checks of the mutating handlers read the
    stored role too. *)
Theorem principal_is_stored_user `{Security} (db : DB) (token : string)
    (payload : TokenData.t) (uid : Z) (token_role : string) (u : User.t) :
  jwt_decode token SECRET_KEY [ALGORITHM] = inr payload ->
  TokenData.user_id payload = Some uid ->
  TokenData.role payload = Some token_role ->
  db_ok db = true -> In u (users db) -> User.id u = uid ->
  get_current_user token (begin db) = (inr u, begin db)
  /\ (forall role,
         require_role role token (begin db)
         = if User.role u =? role
           then (inr u, begin db)
           else (inl (http_exception status.HTTP_403_FORBIDDEN
                        ("Недостаточно прав. Требуется роль: " ++ role)),
                 begin db))
  /\ (forall (A : Type) (handler : User.t -> M A),
         route LoggedInUser handler token db = get_db (handler u) db)
  /\ (forall (A : Type) (handler : User.t -> M A),
         route AdminUser handler token db
         = if User.role u =? "admin"
           then get_db (handler u) db
           else (inl (http_exception status.HTTP_403_FORBIDDEN
                        ("Недостаточно прав. Требуется роль: " ++ "admin")), db))
  /\ (forall i upd,
         route LoggedInUser (update_source i upd) token db
         = get_db (update_source i upd u) db)
  /\ (forall i, route LoggedInUser (delete_source i) token db
                = get_db (delete_source i u) db)
  /\ (forall i upd,
         route LoggedInUser (update_article i upd) token db
         = get_db (update_article i upd u) db)
  /\ (forall i, route LoggedInUser (delete_article i) token db
                = get_db (delete_article i u) db).
Proof.
  intros Hd Hu Hr Hok Hin Hid.
  assert (E : get_current_user token (begin db) = (inr u, begin db)).
  { rewrite (get_current_user_select token _ payload uid token_role Hd Hu Hr).
    cbn [work begin]. rewrite <- Hid. now rewrite select_user_by_id. }
  assert (R : forall role,
             require_role role token (begin db)
             = if User.role u =? role
               then (inr u, begin db)
               else (inl (http_exception status.HTTP_403_FORBIDDEN
                            ("Недостаточно прав. Требуется роль: " ++ role)),
                     begin db)).
  { intros role. unfold require_role, bind. rewrite E.
    destruct (User.role u =? role); reflexivity. }
  assert (L : forall (A : Type) (handler : User.t -> M A),
             route LoggedInUser handler token db = get_db (handler u) db).
  { intros A handler. unfold route, LoggedInUser, get_db. unfold bind at 1.
    now rewrite E. }
  repeat split; try (intros; apply L); try assumption.
  intros A handler. unfold route, AdminUser, get_db. unfold bind at 1.
  rewrite R. destruct (User.role u =? "admin"); reflexivity.
Qed.

Lemma principal_is_stored_user_witness :
  get_current_user (H := Fixture.security) "1:admin" (begin Fixture.db0)
  = (inr Fixture.alice, begin Fixture.db0)
  /\ route (LoggedInUser (H := Fixture.security)) (delete_source 2) "1:admin" Fixture.db0
     = (inl (http_exception status.HTTP_403_FORBIDDEN delete_source_forbidden),
        Fixture.db0)
  /\ fst (route (AdminUser (H := Fixture.security)) read_users_me "1:admin" Fixture.db0)
     = inl (http_exception status.HTTP_403_FORBIDDEN
              ("Недостаточно прав. Требуется роль: " ++ "admin")).
Proof.
  destruct (principal_is_stored_user (H := Fixture.security) Fixture.db0 "1:admin"
              (TokenData.mk (Some 1%Z) (Some "admin")) 1 "admin" Fixture.alice
              eq_refl eq_refl eq_refl eq_refl (or_introl eq_refl) eq_refl)
    as (Hme & _ & _ & Hadm & _ & Hdel & _).
  split; [exact Hme|]. split.
  - rewrite Hdel. reflexivity.
  - rewrite Hadm. reflexivity.
Defined.

(** * Partial updates *)

Lemma nodupb_clash_eq (A K : Type) (clash : K -> K -> bool) (key : A -> K)
    (l : list A) (a b : A) :
  (forall k1 k2, clash k1 k2 = clash k2 k1) ->
  nodupb clash (map key l) = true ->
  In a l -> In b l -> clash (key a) (key b) = true -> a = b.
Proof.
  intros Hsym. induction l as [|c l IH]; simpl; [intros _ []|].
  intros Hnd Ha Hb Hc. apply andb_true_iff in Hnd as [Hex Hnd].
  apply negb_true_iff in Hex.
  destruct Ha as [->|Ha], Hb as [->|Hb].
  - reflexivity.
  - rewrite (existsb_clash_false _ _ clash key _ _ _ Hex Hb) in Hc. discriminate.
  - rewrite Hsym, (existsb_clash_false _ _ clash key _ _ _ Hex Ha) in Hc.
    discriminate.
  - now apply IH.
Qed.

Lemma col_clash_sym (c d : option string) : col_clash c d = col_clash d c.
Proof. destruct c, d; simpl; auto using String.eqb_sym. Qed.

Lemma Source_setattrs_fields (x : Source.t) (upd : SourceUpdate.t) :
  Source.name (Source_setattrs x upd)
  = match SourceUpdate.name upd with Some v => v | None => Source.name x end
  /\ Source.url (Source_setattrs x upd)
     = match SourceUpdate.url upd with Some v => v | None => Source.url x end
  /\ Source.description (Source_setattrs x upd)
     = match SourceUpdate.description upd with
       | Some v => v
       | None => Source.description x
       end
  /\ Source.id (Source_setattrs x upd) = Source.id x
  /\ Source.author_id (Source_setattrs x upd) = Source.author_id x
  /\ Source.created_at (Source_setattrs x upd) = Source.created_at x.
Proof. destruct upd as [[n|] [u|] [d|]]; repeat split. Qed.

Lemma Article_setattrs_fields (x : Article.t) (upd : ArticleUpdate.t) :
  Article.title (Article_setattrs x upd)
  = match ArticleUpdate.title upd with Some v => v | None => Article.title x end
  /\ Article.summary (Article_setattrs x upd)
     = match ArticleUpdate.summary upd with Some v => v | None => Article.summary x end
  /\ Article.content (Article_setattrs x upd)
     = match ArticleUpdate.content upd with Some v => v | None => Article.content x end
  /\ Article.author_name (Article_setattrs x upd)
     = match ArticleUpdate.author_name upd with
       | Some v => v
       | None => Article.author_name x
       end
  /\ Article.id (Article_setattrs x upd) = Article.id x
  /\ Article.author_id (Article_setattrs x upd) = Article.author_id x
  /\ Article.source_id (Article_setattrs x upd) = Article.source_id x
  /\ Article.created_at (Article_setattrs x upd) = Article.created_at x.
Proof. destruct upd as [[t|] [m|] [c|] [n|]]; repeat split. Qed.

(** The rows of a table after one of them was replaced. *)
Lemma In_put (A : Type) (key : A -> Z) (obj : A) (l : list A) (r : A) :
  In r (map (fun r => if (key r =? key obj)%Z then obj else r) l)
  <-> (r = obj /\ exists r0, In r0 l /\ key r0 = key obj)
      \/ (In r l /\ key r <> key obj).
Proof.
  rewrite in_map_iff. split.
  - intros (r0 & E & Hin). destruct (Z.eqb_spec (key r0) (key obj)) as [Ek|Ek].
    + left. split; [now symmetry|]. now exists r0.
    + right. subst r0. now split.
  - intros [(-> & r0 & Hin & Ek) | (Hin & Ek)].
    + exists r0. split; [|assumption]. apply Z.eqb_eq in Ek. now rewrite Ek.
    + exists r. split; [|assumption]. apply Z.eqb_neq in Ek. now rewrite Ek.
Qed.

Lemma update_source_session (db : DB) (x : Source.t) (upd : SourceUpdate.t)
    (cu : User.t) :
  db_ok db = true -> In x (sources db) ->
  User.role cu = "admin" \/ User.id cu = Source.author_id x ->
  update_source (Source.id x) upd cu (begin db)
  = if db_ok (put_Source (Source_setattrs x upd) db)
    then (inr (Source_setattrs x upd),
          {| store := put_Source (Source_setattrs x upd) db;
             work := put_Source (Source_setattrs x upd) db |})
    else (inl IntegrityError,
          {| store := db; work := put_Source (Source_setattrs x upd) db |}).
Proof.
  intros Hok Hin Ha.
  rewrite (update_source_run _ _ _ (begin db) _ (select_source_by_id _ _ Hok Hin)).
  unfold bind at 1. rewrite owner_or_admin_allow by assumption.
  unfold bind, dirty_Source, set_work, commit, refresh, begin. cbn [work store].
  destruct (db_ok (put_Source (Source_setattrs x upd) db)); [|reflexivity].
  cbn [work]. rewrite find_put_Source; [reflexivity|].
  exists x. split; [assumption|]. symmetry. apply Source_setattrs_id.
Qed.

(** A second source with the url that an update gives to [x] makes the
    updated table violate [uq_sources_url]. *)
Lemma put_Source_duplicate_url (db : DB) (x y obj : Source.t) (u : string) :
  In x (sources db) -> In y (sources db) ->
  Source.id obj = Source.id x -> Source.id y <> Source.id x ->
  Source.url y = Some u -> Source.url obj = Some u ->
  db_ok (put_Source obj db) = false.
Proof.
  intros Hx Hy Hid Hne Hyu Hou.
  destruct (db_ok (put_Source obj db)) eqn:E; [exfalso|reflexivity].
  apply db_ok_inv in E as (_ & (_ & _ & Hn) & _).
  assert (Heq : y = obj).
  { apply (nodupb_clash_eq _ _ col_clash Source.url _ y obj col_clash_sym Hn).
    - unfold put_Source. cbn [sources]. apply (In_put _ Source.id).
      right. split; [assumption|]. congruence.
    - unfold put_Source. cbn [sources]. apply (In_put _ Source.id).
      left. split; [reflexivity|]. exists x. split; [assumption|]. congruence.
    - rewrite Hyu, Hou. simpl. apply String.eqb_refl. }
  subst y. contradiction.
Qed.

(** C10.  An authorized update that sets the url of a source to the url of
    another stored source is not refused by the handler: the url is assigned
    to the loaded source and handed to the storage layer, whose rejection
    ([IntegrityError]) is what the request ends with; no [HTTPException],
    and so no 422, comes out of it, and nothing is stored. *)
Theorem update_source_duplicate_url (db : DB) (x y : Source.t)
    (upd : SourceUpdate.t) (cu : User.t) (u : string) :
  db_ok db = true -> In x (sources db) -> In y (sources db) ->
  Source.id y <> Source.id x -> Source.url y = Some u ->
  SourceUpdate.url upd = Some (Some u) ->
  User.role cu = "admin" \/ User.id cu = Source.author_id x ->
  Source.url (Source_setattrs x upd) = Some u
  /\ update_source (Source.id x) upd cu (begin db)
     = (inl IntegrityError,
        {| store := db; work := put_Source (Source_setattrs x upd) db |})
  /\ In (Source_setattrs x upd) (sources (put_Source (Source_setattrs x upd) db))
  /\ get_db (update_source (Source.id x) upd cu) db = (inl IntegrityError, db)
  /\ (forall e, fst (get_db (update_source (Source.id x) upd cu) db)
                <> inl (HTTPError e)).
Proof.
  intros Hok Hx Hy Hne Hyu Hupd Ha.
  destruct (Source_setattrs_fields x upd) as (_ & Hurl & _ & Hid & _).
  rewrite Hupd in Hurl.
  assert (Hbad : db_ok (put_Source (Source_setattrs x upd) db) = false)
    by now apply (put_Source_duplicate_url db x y _ u).
  assert (Hrun : update_source (Source.id x) upd cu (begin db)
                 = (inl IntegrityError,
                    {| store := db; work := put_Source (Source_setattrs x upd) db |})).
  { rewrite update_source_session by assumption. now rewrite Hbad. }
  split; [exact Hurl|]. split; [exact Hrun|]. split; [|split].
  - unfold put_Source. cbn [sources]. apply (In_put _ Source.id).
    left. split; [reflexivity|]. exists x. split; [assumption|]. congruence.
  - unfold get_db. now rewrite Hrun.
  - intros e. unfold get_db. rewrite Hrun. discriminate.
Qed.

Lemma update_source_duplicate_url_witness :
  get_db (update_source 2 (SourceUpdate.mk None (Some (Some "http://wire")) None)
            Fixture.bob) Fixture.db0
  = (inl IntegrityError, Fixture.db0).
Proof.
  apply (update_source_duplicate_url Fixture.db0 Fixture.s2 Fixture.s1
           (SourceUpdate.mk None (Some (Some "http://wire")) None) Fixture.bob
           "http://wire" eq_refl).
  - simpl. tauto.
  - simpl. tauto.
  - discriminate.
  - reflexivity.
  - reflexivity.
  - right. reflexivity.
Defined.

(** C8, as stated, fails: an authorized update may supply a value that
    does not replace the stored one.  Bob, the author of source 2, sets its
    url to the url of source 1; the storage layer rejects the write and the
    stored url of source 2 is still the old one. *)
Lemma supplied_field_not_always_stored :
  ~ (forall (db : DB) (x : Source.t) (upd : SourceUpdate.t) (cu : User.t)
            (v : option string),
        db_ok db = true -> In x (sources db) ->
        User.role cu = "admin" \/ User.id cu = Source.author_id x ->
        SourceUpdate.url upd = Some v ->
        exists x',
          In x' (sources (snd (get_db (update_source (Source.id x) upd cu) db)))
          /\ Source.id x' = Source.id x /\ Source.url x' = v).
Proof.
  intros Hclaim.
  destruct (Hclaim Fixture.db0 Fixture.s2
              (SourceUpdate.mk None (Some (Some "http://wire")) None) Fixture.bob
              (Some "http://wire") eq_refl (or_intror (or_introl eq_refl))
              (or_intror eq_refl) eq_refl) as (x' & Hin & Hid & Hurl).
  vm_compute in Hin. destruct Hin as [<-|[<-|[]]]; discriminate.
Qed.

(** C8, amended.  An authorized partial update builds the row in which
    exactly the supplied fields hold the supplied values and every other
    field, among them the key, [author_id], [source_id] and [created_at],
    holds what was stored.  If the storage layer accepts that row it is
    returned and takes the place of the old one, every other row of every
    table staying as it was; if it does not, the request ends with the
    storage error and the stored state is unchanged. *)
Theorem partial_update_frame (db : DB) (cu : User.t) :
  db_ok db = true ->
  (forall x upd,
      In x (sources db) ->
      User.role cu = "admin" \/ User.id cu = Source.author_id x ->
      exists x',
        (Source.name x'
         = match SourceUpdate.name upd with Some v => v | None => Source.name x end
         /\ Source.url x'
            = match SourceUpdate.url upd with Some v => v | None => Source.url x end
         /\ Source.description x'
            = match SourceUpdate.description upd with
              | Some v => v
              | None => Source.description x
              end
         /\ Source.id x' = Source.id x
         /\ Source.author_id x' = Source.author_id x
         /\ Source.created_at x' = Source.created_at x)
        /\ (db_ok (put_Source x' db) = true ->
            exists db',
              get_db (update_source (Source.id x) upd cu) db = (inr x', db')
              /\ (forall r, In r (sources db')
                            <-> r = x' \/ (In r (sources db)
                                           /\ Source.id r <> Source.id x))
              /\ users db' = users db /\ articles db' = articles db)
        /\ (db_ok (put_Source x' db) = false ->
            get_db (update_source (Source.id x) upd cu) db
            = (inl IntegrityError, db)))
  /\ (forall x upd,
      In x (articles db) ->
      User.role cu = "admin" \/ User.id cu = Article.author_id x ->
      exists x',
        (Article.title x'
         = match ArticleUpdate.title upd with Some v => v | None => Article.title x end
         /\ Article.summary x'
            = match ArticleUpdate.summary upd with
              | Some v => v
              | None => Article.summary x
              end
         /\ Article.content x'
            = match ArticleUpdate.content upd with
              | Some v => v
              | None => Article.content x
              end
         /\ Article.author_name x'
            = match ArticleUpdate.author_name upd with
              | Some v => v
              | None => Article.author_name x
              end
         /\ Article.id x' = Article.id x
         /\ Article.author_id x' = Article.author_id x
         /\ Article.source_id x' = Article.source_id x
         /\ Article.created_at x' = Article.created_at x)
        /\ (db_ok (put_Article x' db) = true ->
            exists db',
              get_db (update_article (Article.id x) upd cu) db = (inr x', db')
              /\ (forall r, In r (articles db')
                            <-> r = x' \/ (In r (articles db)
                                           /\ Article.id r <> Article.id x))
              /\ users db' = users db /\ sources db' = sources db)
        /\ (db_ok (put_Article x' db) = false ->
            get_db (update_article (Article.id x) upd cu) db
            = (inl IntegrityError, db))).
Proof.
  intros Hok. split.
  - intros x upd Hin Ha. exists (Source_setattrs x upd).
    pose proof (Source_setattrs_fields x upd) as Hf.
    split; [exact Hf|]. destruct Hf as (_ & _ & _ & Hid & _).
    split.
    + intros Hacc. exists (put_Source (Source_setattrs x upd) db).
      rewrite update_source_allowed, Hacc by assumption.
      split; [reflexivity|]. split; [|split; reflexivity].
      intros r. unfold put_Source. cbn [sources].
      rewrite (In_put _ Source.id), Hid. split.
      * intros [(-> & _) | Hr]; [now left | now right].
      * intros [-> | Hr]; [left | now right].
        split; [reflexivity|]. now exists x.
    + intros Hrej. now rewrite update_source_allowed, Hrej by assumption.
  - intros x upd Hin Ha. exists (Article_setattrs x upd).
    pose proof (Article_setattrs_fields x upd) as Hf.
    split; [exact Hf|]. destruct Hf as (_ & _ & _ & _ & Hid & _).
    split.
    + intros Hacc. exists (put_Article (Article_setattrs x upd) db).
      rewrite update_article_allowed, Hacc by assumption.
      split; [reflexivity|]. split; [|split; reflexivity].
      intros r. unfold put_Article. cbn [articles].
      rewrite (In_put _ Article.id), Hid. split.
      * intros [(-> & _) | Hr]; [now left | now right].
      * intros [-> | Hr]; [left | now right].
        split; [reflexivity|]. now exists x.
    + intros Hrej. now rewrite update_article_allowed, Hrej by assumption.
Qed.

Lemma partial_update_frame_witness :
  (exists x' db',
      get_db (update_source 2
                (SourceUpdate.mk None (Some (Some "http://new")) (Some None))
                Fixture.bob) Fixture.db0 = (inr x', db')
      /\ Source.name x' = Some "Post"
      /\ Source.url x' = Some "http://new"
      /\ Source.description x' = None
      /\ Source.author_id x' = 2%Z)
  /\ get_db (update_article 3 (ArticleUpdate.mk (Some None) None None None)
               Fixture.bob) Fixture.db0
     = (inl IntegrityError, Fixture.db0).
Proof.
  destruct (partial_update_frame Fixture.db0 Fixture.bob eq_refl) as (Hsrc & Hart).
  split.
  - destruct (Hsrc Fixture.s2
                (SourceUpdate.mk None (Some (Some "http://new")) (Some None))
                (or_intror (or_introl eq_refl)) (or_intror eq_refl))
      as (x' & (Hn & Hu & Hd & Hi & Hau & Hc) & Hacc & _).
    destruct x' as [i n u d c a]. cbn in Hn, Hu, Hd, Hi, Hau, Hc. subst i n u d c a.
    destruct (Hacc eq_refl) as (db' & Hrun & _).
    exists (Source.mk 2 (Some "Post") (Some "http://new") None 111 2), db'.
    split; [exact Hrun|]. repeat split.
  - destruct (Hart Fixture.a3 (ArticleUpdate.mk (Some None) None None None)
                (or_intror (or_intror (or_introl eq_refl))) (or_intror eq_refl))
      as (x' & (Ht & Hs & Hc & Hn & Hi & Hau & Hsi & Hca) & _ & Hrej).
    destruct x' as [i t s c n si au ca].
    cbn in Ht, Hs, Hc, Hn, Hi, Hau, Hsi, Hca. subst i t s c n si au ca.
    exact (Hrej eq_refl).
Defined.

(** * What a request can change *)

(** A query on a unique key finds no row or one. *)
Lemma filter_at_most_one (A K : Type) (clash : K -> K -> bool) (key : A -> K)
    (p : A -> bool) (l : list A) :
  (forall a b, p a = true -> p b = true -> clash (key a) (key b) = true) ->
  nodupb clash (map key l) = true ->
  filter p l = [] \/ exists x, In x l /\ p x = true /\ filter p l = [x].
Proof.
  intros Hp Hnd. destruct (filter p l) as [|a r] eqn:E; [now left|right].
  assert (Ha : In a (filter p l)) by (rewrite E; now left).
  apply filter_In in Ha as [Hin Hpa].
  exists a. rewrite <- E. repeat split; try assumption.
  now apply (filter_single _ _ clash key).
Qed.

Lemma by_id_at_most_one (A : Type) (key : A -> Z) (l : list A) (i : Z) :
  nodupb Z.eqb (map key l) = true ->
  filter (fun r => (key r =? i)%Z) l = []
  \/ exists x, In x l /\ key x = i /\ filter (fun r => (key r =? i)%Z) l = [x].
Proof.
  intros Hnd.
  destruct (filter_at_most_one A Z Z.eqb key (fun r => (key r =? i)%Z) l) as [E|(x & Hin & Hp & E)];
    [ | assumption | now left | ].
  - intros a b Ha Hb. apply Z.eqb_eq in Ha, Hb. apply Z.eqb_eq. congruence.
  - right. exists x. apply Z.eqb_eq in Hp. auto.
Qed.

Lemma by_string_at_most_one (A : Type) (key : A -> string) (l : list A) (v : string) :
  nodupb String.eqb (map key l) = true ->
  filter (fun r => key r =? v) l = []
  \/ exists x, In x l /\ key x = v /\ filter (fun r => key r =? v) l = [x].
Proof.
  intros Hnd.
  destruct (filter_at_most_one A string String.eqb key (fun r => key r =? v) l)
    as [E|(x & Hin & Hp & E)]; [ | assumption | now left | ].
  - intros a b Ha Hb. apply String.eqb_eq in Ha, Hb. apply String.eqb_eq. congruence.
  - right. exists x. apply String.eqb_eq in Hp. auto.
Qed.

Lemma by_url_at_most_one (l : list Source.t) (v : string) :
  nodupb col_clash (map Source.url l) = true ->
  filter (fun r => col_eqb (Source.url r) v) l = []
  \/ exists x, In x l /\ Source.url x = Some v
               /\ filter (fun r => col_eqb (Source.url r) v) l = [x].
Proof.
  intros Hnd.
  destruct (filter_at_most_one _ _ col_clash Source.url
              (fun r => col_eqb (Source.url r) v) l) as [E|(x & Hin & Hp & E)];
    [ | assumption | now left | ].
  - intros a b Ha Hb. unfold col_clash, col_eqb in *.
    destruct (Source.url a); [|discriminate]. destruct (Source.url b); [|discriminate].
    apply String.eqb_eq in Ha, Hb. apply String.eqb_eq. congruence.
  - right. exists x. repeat split; try assumption.
    unfold col_eqb in Hp. destruct (Source.url x); [|discriminate].
    apply String.eqb_eq in Hp. now subst.
Qed.

(** ** The outcomes of each handler on a store that satisfies the constraints *)

Lemma ids_of_users (db : DB) :
  db_ok db = true -> nodupb Z.eqb (map User.id (users db)) = true.
Proof. intros H. now apply db_ok_inv in H as ((? & _) & _). Qed.

Lemma ids_of_sources (db : DB) :
  db_ok db = true -> nodupb Z.eqb (map Source.id (sources db)) = true.
Proof. intros H. now apply db_ok_inv in H as (_ & (? & _) & _). Qed.

Lemma ids_of_articles (db : DB) :
  db_ok db = true -> nodupb Z.eqb (map Article.id (articles db)) = true.
Proof. intros H. now apply db_ok_inv in H as (_ & _ & (? & _)). Qed.

Lemma update_source_cases (db : DB) (i : Z) (upd : SourceUpdate.t) (cu : User.t) :
  db_ok db = true ->
  ((forall r, In r (sources db) -> Source.id r <> i)
   /\ get_db (update_source i upd cu) db = (inl source_not_found, db))
  \/ exists x, In x (sources db) /\ Source.id x = i
     /\ ((~ (User.role cu = "admin" \/ User.id cu = Source.author_id x)
          /\ get_db (update_source i upd cu) db
             = (inl (http_exception status.HTTP_403_FORBIDDEN update_source_forbidden),
                db))
         \/ ((User.role cu = "admin" \/ User.id cu = Source.author_id x)
             /\ ((db_ok (put_Source (Source_setattrs x upd) db) = true
                  /\ get_db (update_source i upd cu) db
                     = (inr (Source_setattrs x upd),
                        put_Source (Source_setattrs x upd) db))
                 \/ (db_ok (put_Source (Source_setattrs x upd) db) = false
                     /\ get_db (update_source i upd cu) db
                        = (inl IntegrityError, db))))).
Proof.
  intros Hok.
  destruct (by_id_at_most_one _ Source.id (sources db) i (ids_of_sources db Hok))
    as [E|(x & Hin & Hid & E)].
  - left. split.
    + intros r Hr Hi. pose proof (proj1 (filter_nil_iff _ _ _) E r Hr) as Hf.
      simpl in Hf. apply Z.eqb_neq in Hf. contradiction.
    + apply get_db_unchanged. now apply update_source_absent.
  - right. exists x. split; [assumption|]. split; [assumption|]. subst i.
    destruct (owner_or_admin_dec cu (Source.author_id x)) as [Ha|Hn].
    + right. split; [assumption|].
      rewrite update_source_allowed by assumption.
      destruct (db_ok (put_Source (Source_setattrs x upd) db)); [left|right]; now split.
    + left. split; [assumption|]. apply get_db_unchanged.
      now apply update_source_denied.
Qed.

Lemma update_article_cases (db : DB) (i : Z) (upd : ArticleUpdate.t) (cu : User.t) :
  db_ok db = true ->
  ((forall r, In r (articles db) -> Article.id r <> i)
   /\ get_db (update_article i upd cu) db = (inl article_not_found, db))
  \/ exists x, In x (articles db) /\ Article.id x = i
     /\ ((~ (User.role cu = "admin" \/ User.id cu = Article.author_id x)
          /\ get_db (update_article i upd cu) db
             = (inl (http_exception status.HTTP_403_FORBIDDEN update_article_forbidden),
                db))
         \/ ((User.role cu = "admin" \/ User.id cu = Article.author_id x)
             /\ ((db_ok (put_Article (Article_setattrs x upd) db) = true
                  /\ get_db (update_article i upd cu) db
                     = (inr (Article_setattrs x upd),
                        put_Article (Article_setattrs x upd) db))
                 \/ (db_ok (put_Article (Article_setattrs x upd) db) = false
                     /\ get_db (update_article i upd cu) db
                        = (inl IntegrityError, db))))).
Proof.
  intros Hok.
  destruct (by_id_at_most_one _ Article.id (articles db) i (ids_of_articles db Hok))
    as [E|(x & Hin & Hid & E)].
  - left. split.
    + intros r Hr Hi. pose proof (proj1 (filter_nil_iff _ _ _) E r Hr) as Hf.
      simpl in Hf. apply Z.eqb_neq in Hf. contradiction.
    + apply get_db_unchanged. now apply update_article_absent.
  - right. exists x. split; [assumption|]. split; [assumption|]. subst i.
    destruct (owner_or_admin_dec cu (Article.author_id x)) as [Ha|Hn].
    + right. split; [assumption|].
      rewrite update_article_allowed by assumption.
      destruct (db_ok (put_Article (Article_setattrs x upd) db)); [left|right]; now split.
    + left. split; [assumption|]. apply get_db_unchanged.
      now apply update_article_denied.
Qed.

Lemma delete_source_cases (db : DB) (i : Z) (cu : User.t) :
  db_ok db = true ->
  ((forall r, In r (sources db) -> Source.id r <> i)
   /\ get_db (delete_source i cu) db = (inl source_not_found, db))
  \/ exists x, In x (sources db) /\ Source.id x = i
     /\ ((~ (User.role cu = "admin" \/ User.id cu = Source.author_id x)
          /\ get_db (delete_source i cu) db
             = (inl (http_exception status.HTTP_403_FORBIDDEN delete_source_forbidden),
                db))
         \/ ((User.role cu = "admin" \/ User.id cu = Source.author_id x)
             /\ get_db (delete_source i cu) db = (inr tt, drop_Source x db))).
Proof.
  intros Hok.
  destruct (by_id_at_most_one _ Source.id (sources db) i (ids_of_sources db Hok))
    as [E|(x & Hin & Hid & E)].
  - left. split.
    + intros r Hr Hi. pose proof (proj1 (filter_nil_iff _ _ _) E r Hr) as Hf.
      simpl in Hf. apply Z.eqb_neq in Hf. contradiction.
    + apply get_db_unchanged. now apply delete_source_absent.
  - right. exists x. split; [assumption|]. split; [assumption|]. subst i.
    destruct (owner_or_admin_dec cu (Source.author_id x)) as [Ha|Hn].
    + right. split; [assumption|]. now apply delete_source_allowed.
    + left. split; [assumption|]. apply get_db_unchanged.
      now apply delete_source_denied.
Qed.

Lemma delete_article_cases (db : DB) (i : Z) (cu : User.t) :
  db_ok db = true ->
  ((forall r, In r (articles db) -> Article.id r <> i)
   /\ get_db (delete_article i cu) db = (inl article_not_found, db))
  \/ exists x, In x (articles db) /\ Article.id x = i
     /\ ((~ (User.role cu = "admin" \/ User.id cu = Article.author_id x)
          /\ get_db (delete_article i cu) db
             = (inl (http_exception status.HTTP_403_FORBIDDEN delete_article_forbidden),
                db))
         \/ ((User.role cu = "admin" \/ User.id cu = Article.author_id x)
             /\ get_db (delete_article i cu) db
                = (inr tt, drop_Articles (fun a => (Article.id a =? i)%Z) db))).
Proof.
  intros Hok.
  destruct (by_id_at_most_one _ Article.id (articles db) i (ids_of_articles db Hok))
    as [E|(x & Hin & Hid & E)].
  - left. split.
    + intros r Hr Hi. pose proof (proj1 (filter_nil_iff _ _ _) E r Hr) as Hf.
      simpl in Hf. apply Z.eqb_neq in Hf. contradiction.
    + apply get_db_unchanged. now apply delete_article_absent.
  - right. exists x. split; [assumption|]. split; [assumption|]. subst i.
    destruct (owner_or_admin_dec cu (Article.author_id x)) as [Ha|Hn].
    + right. split; [assumption|]. now apply delete_article_allowed.
    + left. split; [assumption|]. apply get_db_unchanged.
      now apply delete_article_denied.
Qed.

Lemma db_ok_insert_Source (db : DB) (row : Source.t) (u : string) :
  db_ok db = true ->
  Source.id row = next_id (map Source.id (sources db)) ->
  not_null (Source.name row) = true -> Source.url row = Some u ->
  (forall r, In r (sources db) -> Source.url r <> Some u) ->
  db_ok (insert_Source row db) = true.
Proof.
  intros H Hid Hn Hu Hfresh. apply db_ok_inv in H as (Hus & (S1 & S2 & S3) & (A1 & A2)).
  unfold db_ok, users_ok, sources_ok, articles_ok, insert_Source. simpl.
  destruct Hus as (-> & -> & ->). rewrite A1, A2.
  rewrite (nodupb_app_one _ _ Z.eqb Source.id _ row S1),
    (nodupb_app_one _ _ col_clash Source.url _ row S3).
  - rewrite forallb_app, S2. simpl. rewrite Hn, Hu. reflexivity.
  - intros y Hy. rewrite Hu. unfold col_clash, col_eqb.
    destruct (Source.url y) as [v|] eqn:Ev; [|reflexivity].
    apply String.eqb_neq. intros <-. now apply (Hfresh y).
  - intros y Hy. apply Z.eqb_neq. rewrite Hid. now apply next_id_new.
Qed.

Lemma create_source_cases (db : DB) (now : Z) (s_in : SourceCreate.t) (cu : User.t) :
  db_ok db = true ->
  ((exists r, In r (sources db) /\ Source.url r = Some (SourceCreate.url s_in))
   /\ get_db (create_source now s_in cu) db = (inl url_exists_exception, db))
  \/ ((forall r, In r (sources db) -> Source.url r <> Some (SourceCreate.url s_in))
      /\ get_db (create_source now s_in cu) db
         = (inr (new_source s_in cu (next_id (map Source.id (sources db))) now),
            insert_Source
              (new_source s_in cu (next_id (map Source.id (sources db))) now) db)).
Proof.
  intros Hok.
  assert (Hn : nodupb col_clash (map Source.url (sources db)) = true)
    by now apply db_ok_inv in Hok as (_ & (_ & _ & ?) & _).
  destruct (by_url_at_most_one (sources db) (SourceCreate.url s_in) Hn)
    as [E|(x & Hin & Hu & E)].
  - right.
    assert (Hfresh : forall r, In r (sources db)
                               -> Source.url r <> Some (SourceCreate.url s_in)).
    { intros r Hr Hu. pose proof (proj1 (filter_nil_iff _ _ _) E r Hr) as Hf.
      simpl in Hf. rewrite Hu in Hf. simpl in Hf. now rewrite String.eqb_refl in Hf. }
    split; [assumption|].
    unfold get_db, create_source. unfold bind at 1 2. unfold execute_select.
    cbn [work begin]. rewrite E. cbn [scalar_one_or_none ret].
    unfold bind, add_Source, commit, refresh. cbn [work store].
    rewrite (db_ok_insert_Source db _ (SourceCreate.url s_in));
      try assumption; try reflexivity.
    cbn [work store]. unfold insert_Source at 1. cbn [sources].
    rewrite (find_app_fresh _ Source.id _ (sources db)); [reflexivity|].
    intros r Hr. now apply (next_id_new _ Source.id).
  - left. split; [now exists x|]. apply get_db_unchanged.
    unfold create_source. unfold bind at 1 2. unfold execute_select.
    cbn [work begin]. now rewrite E.
Qed.

Lemma create_article_cases (db : DB) (now : Z) (a_in : ArticleCreate.t) (cu : User.t) :
  db_ok db = true ->
  ((forall r, In r (sources db) -> Source.id r <> ArticleCreate.source_id a_in)
   /\ get_db (create_article now a_in cu) db
      = (inl (parent_not_found (ArticleCreate.source_id a_in)), db))
  \/ ((exists r, In r (sources db) /\ Source.id r = ArticleCreate.source_id a_in)
      /\ get_db (create_article now a_in cu) db
         = (inr (new_article a_in cu (next_id (map Article.id (articles db))) now),
            insert_Article
              (new_article a_in cu (next_id (map Article.id (articles db))) now) db)).
Proof.
  intros Hok.
  destruct (by_id_at_most_one _ Source.id (sources db) (ArticleCreate.source_id a_in)
              (ids_of_sources db Hok)) as [E|(x & Hin & Hid & E)].
  - left. split.
    + intros r Hr Hi. pose proof (proj1 (filter_nil_iff _ _ _) E r Hr) as Hf.
      simpl in Hf. apply Z.eqb_neq in Hf. contradiction.
    + apply get_db_unchanged. now apply create_article_absent.
  - right. split; [now exists x|].
    unfold get_db. rewrite (create_article_run _ _ _ (begin db) x E).
    unfold bind, add_Article, commit, refresh, begin. cbn [work store].
    rewrite db_ok_insert_Article by (assumption || reflexivity).
    cbn [work store]. now rewrite find_inserted_Article.
Qed.

Lemma register_user_cases `{Security} (db : DB) (now : Z) (u_in : UserCreate.t) :
  db_ok db = true ->
  ((exists u, In u (users db) /\ User.email u = UserCreate.email u_in)
   /\ get_db (register_user now u_in) db = (inl email_exists_exception, db))
  \/ ((forall u, In u (users db) -> User.email u <> UserCreate.email u_in)
      /\ (exists u, In u (users db) /\ User.username u = UserCreate.username u_in)
      /\ get_db (register_user now u_in) db = (inl username_exists_exception, db))
  \/ ((forall u, In u (users db) -> User.email u <> UserCreate.email u_in)
      /\ (forall u, In u (users db) -> User.username u <> UserCreate.username u_in)
      /\ get_db (register_user now u_in) db
         = (inr (new_user u_in (next_id (map User.id (users db))) now),
            insert_User (new_user u_in (next_id (map User.id (users db))) now) db)).
Proof.
  intros Hok.
  pose proof (db_ok_inv db Hok) as ((_ & Hun & Hue) & _).
  destruct (by_string_at_most_one _ User.email (users db) (UserCreate.email u_in) Hue)
    as [Ee|(x & Hin & Hx & Ee)].
  - assert (He : forall u, In u (users db) -> User.email u <> UserCreate.email u_in).
    { intros u Hu Heq. pose proof (proj1 (filter_nil_iff _ _ _) Ee u Hu) as Hf.
      simpl in Hf. apply String.eqb_neq in Hf. contradiction. }
    destruct (by_string_at_most_one _ User.username (users db)
                (UserCreate.username u_in) Hun) as [En|(y & Hiny & Hy & En)].
    + right. right.
      assert (Hn : forall u, In u (users db)
                           -> User.username u <> UserCreate.username u_in).
      { intros u Hu Heq. pose proof (proj1 (filter_nil_iff _ _ _) En u Hu) as Hf.
        simpl in Hf. apply String.eqb_neq in Hf. contradiction. }
      split; [assumption|]. split; [assumption|].
      rewrite (get_db_ext _ _ _ _ (register_user_run now u_in (begin db) Ee En)).
      rewrite register_user_insert. now rewrite db_ok_insert_User.
    + right. left. split; [assumption|]. split; [now exists y|].
      apply get_db_unchanged.
      now apply (register_user_username_taken now u_in (begin db) y).
  - left. split; [now exists x|]. apply get_db_unchanged.
    now apply (register_user_email_taken now u_in (begin db) x).
Qed.

Lemma login_cases `{Security} (db : DB) (form_data : UserLogin.t) :
  db_ok db = true ->
  get_db (login_for_access_token form_data) db = (inl login_exception, db)
  \/ exists u, In u (users db) /\ User.email u = UserLogin.email form_data
     /\ verify_password (UserLogin.password form_data) (User.password u) = true
     /\ get_db (login_for_access_token form_data) db
        = (inr {| Token.access_token :=
                    create_access_token
                      (TokenData.mk (Some (User.id u)) (Some (User.role u)))
                      ACCESS_TOKEN_EXPIRE_MINUTES;
                  Token.token_type := "bearer" |}, db).
Proof.
  intros Hok.
  pose proof (db_ok_inv db Hok) as ((_ & _ & Hue) & _).
  destruct (by_string_at_most_one _ User.email (users db) (UserLogin.email form_data) Hue)
    as [E|(x & Hin & Hx & E)].
  - left. apply get_db_unchanged. now apply login_no_user.
  - destruct (verify_password (UserLogin.password form_data) (User.password x)) eqn:Hv.
    + right. exists x. repeat (split; [assumption|]).
      apply get_db_unchanged. rewrite (login_user_found form_data (begin db) x E).
      now rewrite Hv.
    + left. apply get_db_unchanged. rewrite (login_user_found form_data (begin db) x E).
      now rewrite Hv.
Qed.

Lemma get_current_user_cases `{Security} (db : DB) (token : string) :
  db_ok db = true ->
  get_current_user token (begin db) = (inl credentials_exception, begin db)
  \/ exists u payload, In u (users db)
     /\ jwt_decode token SECRET_KEY [ALGORITHM] = inr payload
     /\ TokenData.user_id payload = Some (User.id u)
     /\ get_current_user token (begin db) = (inr u, begin db).
Proof.
  intros Hok.
  destruct (jwt_decode token SECRET_KEY [ALGORITHM]) as [e|payload] eqn:Hd.
  - left. now apply (get_current_user_decode_error token _ e).
  - destruct payload as [[uid|] [r|]].
    + rewrite (get_current_user_select token _ _ uid r Hd eq_refl eq_refl).
      cbn [work begin].
      destruct (by_id_at_most_one _ User.id (users db) uid (ids_of_users db Hok))
        as [E|(x & Hin & Hx & E)]; rewrite E.
      * now left.
      * right. exists x, (TokenData.mk (Some uid) (Some r)). subst uid.
        split; [assumption|]. split; [reflexivity|]. split; reflexivity.
    + left. apply (get_current_user_missing_claim token _ _ Hd). now right.
    + left. apply (get_current_user_missing_claim token _ _ Hd). now left.
    + left. apply (get_current_user_missing_claim token _ _ Hd). now left.
Qed.

Lemma route_cases `{Security} (A : Type) (db : DB) (token : string)
    (handler : User.t -> M A) :
  db_ok db = true ->
  route LoggedInUser handler token db = (inl credentials_exception, db)
  \/ exists u, In u (users db)
     /\ get_current_user token (begin db) = (inr u, begin db)
     /\ route LoggedInUser handler token db = get_db (handler u) db.
Proof.
  intros Hok. destruct (get_current_user_cases db token Hok) as [E|(u & p & Hin & _ & _ & E)].
  - left. unfold route, LoggedInUser, get_db, bind. now rewrite E.
  - right. exists u. split; [assumption|]. split; [assumption|].
    unfold route, LoggedInUser, get_db. unfold bind at 1. now rewrite E.
Qed.

(** * Reading *)

Lemma filter_all (A : Type) (l : list A) : filter (fun _ => true) l = l.
Proof. induction l as [|a l IH]; simpl; [reflexivity | now rewrite IH]. Qed.

Lemma read_source_cases (db : DB) (i : Z) :
  db_ok db = true ->
  ((forall r, In r (sources db) -> Source.id r <> i)
   /\ get_db (read_source i) db = (inl source_not_found, db))
  \/ exists x, In x (sources db) /\ Source.id x = i
               /\ get_db (read_source i) db = (inr x, db).
Proof.
  intros Hok.
  destruct (by_id_at_most_one _ Source.id (sources db) i (ids_of_sources db Hok))
    as [E|(x & Hin & Hid & E)].
  - left. split.
    + intros r Hr Hi. pose proof (proj1 (filter_nil_iff _ _ _) E r Hr) as Hf.
      simpl in Hf. apply Z.eqb_neq in Hf. contradiction.
    + unfold get_db, read_source, bind, execute_select. cbn [work begin].
      now rewrite E.
  - right. exists x. split; [assumption|]. split; [assumption|].
    unfold get_db, read_source, bind, execute_select. cbn [work begin].
    now rewrite E.
Qed.

Lemma read_article_cases (db : DB) (i : Z) :
  db_ok db = true ->
  ((forall r, In r (articles db) -> Article.id r <> i)
   /\ get_db (read_article i) db = (inl article_not_found, db))
  \/ exists x, In x (articles db) /\ Article.id x = i
               /\ get_db (read_article i) db = (inr x, db).
Proof.
  intros Hok.
  destruct (by_id_at_most_one _ Article.id (articles db) i (ids_of_articles db Hok))
    as [E|(x & Hin & Hid & E)].
  - left. split.
    + intros r Hr Hi. pose proof (proj1 (filter_nil_iff _ _ _) E r Hr) as Hf.
      simpl in Hf. apply Z.eqb_neq in Hf. contradiction.
    + unfold get_db, read_article, bind, execute_select. cbn [work begin].
      now rewrite E.
  - right. exists x. split; [assumption|]. split; [assumption|].
    unfold get_db, read_article, bind, execute_select. cbn [work begin].
    now rewrite E.
Qed.

Lemma get_articles_by_source_cases (db : DB) (i : Z) :
  db_ok db = true ->
  ((forall r, In r (sources db) -> Source.id r <> i)
   /\ get_db (get_articles_by_source i) db
      = (inl (http_exception status.HTTP_404_NOT_FOUND
                ("Источник с ID " ++ str_int i ++ " не найден")), db))
  \/ ((exists x, In x (sources db) /\ Source.id x = i)
      /\ get_db (get_articles_by_source i) db
         = (inr (filter (fun a => (Article.source_id a =? i)%Z) (articles db)), db)).
Proof.
  intros Hok.
  destruct (by_id_at_most_one _ Source.id (sources db) i (ids_of_sources db Hok))
    as [E|(x & Hin & Hid & E)].
  - left. split.
    + intros r Hr Hi. pose proof (proj1 (filter_nil_iff _ _ _) E r Hr) as Hf.
      simpl in Hf. apply Z.eqb_neq in Hf. contradiction.
    + unfold get_db, get_articles_by_source, bind, execute_select. cbn [work begin].
      now rewrite E.
  - right. split; [now exists x|].
    unfold get_db, get_articles_by_source, bind, execute_select. cbn [work begin].
    now rewrite E.
Qed.

(** X1.  Reading sources needs no principal and changes nothing.  The
    listing returns every stored source in insertion order; a lookup by id
    returns the one source with that id, and 404 when there is none and the
    driver binds the id. *)
Theorem source_reads (db : DB) :
  db_ok db = true ->
  get_db read_sources db = (inr (sources db), db)
  /\ (forall x, In x (sources db) -> get_db (read_source (Source.id x)) db = (inr x, db))
  /\ (forall i, in_int64 i = true ->
                (forall r, In r (sources db) -> Source.id r <> i) ->
                get_db (read_source i) db = (inl source_not_found, db)).
Proof.
  intros Hok. split; [|split].
  - unfold get_db, read_sources, execute_select. cbn [work begin store].
    now rewrite filter_all.
  - intros x Hin. unfold get_db, read_source, bind, execute_select. cbn [work begin].
    now rewrite select_source_by_id.
  - intros i _ Hnone.
    destruct (read_source_cases db i Hok) as [[_ E]|(x & Hin & Hid & _)];
      [assumption|]. now destruct (Hnone x Hin).
Qed.

Lemma source_reads_witness :
  get_db (read_source 2) Fixture.db0 = (inr Fixture.s2, Fixture.db0)
  /\ get_db (read_source 5) Fixture.db0 = (inl source_not_found, Fixture.db0).
Proof.
  destruct (source_reads Fixture.db0 eq_refl) as (_ & Hfound & Hnone).
  split.
  - apply (Hfound Fixture.s2). simpl. tauto.
  - apply (Hnone 5%Z); [reflexivity|]. simpl. intros r [<-|[<-|[]]]; discriminate.
Defined.

(** X2.  The articles of a source: for a stored source the answer is
    exactly the stored articles whose [source_id] is the source's id, in
    insertion order, and the empty list when it has none; for an id that
    the driver binds and no source has, the answer is 404, with the id in the
    message.  Nothing is changed. *)
Theorem articles_of_source (db : DB) :
  db_ok db = true ->
  (forall x, In x (sources db) ->
      exists l,
        get_db (get_articles_by_source (Source.id x)) db = (inr l, db)
        /\ l = filter (fun a => (Article.source_id a =? Source.id x)%Z) (articles db)
        /\ (forall a, In a l <-> In a (articles db)
                                 /\ Article.source_id a = Source.id x)
        /\ ((forall a, In a (articles db) -> Article.source_id a <> Source.id x) ->
            l = []))
  /\ (forall i, in_int64 i = true ->
                (forall r, In r (sources db) -> Source.id r <> i) ->
                get_db (get_articles_by_source i) db
                = (inl (http_exception status.HTTP_404_NOT_FOUND
                          ("Источник с ID " ++ str_int i ++ " не найден")), db)).
Proof.
  intros Hok. split.
  - intros x Hin.
    exists (filter (fun a => (Article.source_id a =? Source.id x)%Z) (articles db)).
    split; [|split; [reflexivity|split]].
    + destruct (get_articles_by_source_cases db (Source.id x) Hok) as [[Hnone _]|[_ E]];
        [|assumption]. now destruct (Hnone x Hin).
    + intros a. rewrite filter_In, Z.eqb_eq. tauto.
    + intros Hnone. apply filter_nil_iff. intros a Ha. apply Z.eqb_neq. now apply Hnone.
  - intros i _ Hnone.
    destruct (get_articles_by_source_cases db i Hok) as [[_ E]|[(x & Hin & Hid) _]];
      [assumption|]. now destruct (Hnone x Hin).
Qed.

Lemma articles_of_source_witness :
  get_db (get_articles_by_source 1) Fixture.db0
  = (inr [Fixture.a1; Fixture.a2], Fixture.db0)
  /\ fst (get_db (get_articles_by_source 7) Fixture.db0)
     = inl (http_exception status.HTTP_404_NOT_FOUND "Источник с ID 7 не найден").
Proof.
  destruct (articles_of_source Fixture.db0 eq_refl) as (Hfound & Hnone).
  split.
  - destruct (Hfound Fixture.s1) as (l & Hrun & -> & _); [simpl; tauto|]. exact Hrun.
  - rewrite (Hnone 7%Z); [reflexivity|reflexivity|].
    simpl. intros r [<-|[<-|[]]]; discriminate.
Defined.

(** X3.  Reading articles needs no principal and changes nothing.  The
    listing returns every stored article in insertion order; a lookup by id
    returns the one article with that id, and 404 when there is none and the
    driver binds the id. *)
Theorem article_reads (db : DB) :
  db_ok db = true ->
  get_db read_articles db = (inr (articles db), db)
  /\ (forall x, In x (articles db) ->
                get_db (read_article (Article.id x)) db = (inr x, db))
  /\ (forall i, in_int64 i = true ->
                (forall r, In r (articles db) -> Article.id r <> i) ->
                get_db (read_article i) db = (inl article_not_found, db)).
Proof.
  intros Hok. split; [|split].
  - unfold get_db, read_articles, execute_select. cbn [work begin store].
    now rewrite filter_all.
  - intros x Hin. unfold get_db, read_article, bind, execute_select. cbn [work begin].
    now rewrite select_article_by_id.
  - intros i _ Hnone.
    destruct (read_article_cases db i Hok) as [[_ E]|(x & Hin & Hid & _)];
      [assumption|]. now destruct (Hnone x Hin).
Qed.

Lemma article_reads_witness :
  get_db (read_article 3) Fixture.db0 = (inr Fixture.a3, Fixture.db0)
  /\ get_db (read_article 8) Fixture.db0 = (inl article_not_found, Fixture.db0).
Proof.
  destruct (article_reads Fixture.db0 eq_refl) as (_ & Hfound & Hnone).
  split.
  - apply (Hfound Fixture.a3). simpl. tauto.
  - apply (Hnone 8%Z); [reflexivity|].
    simpl. intros r [<-|[<-|[<-|[]]]]; discriminate.
Defined.

(** * Writing and reading back *)

(** X4.  Creating a source with a url that no stored source has succeeds:
    one row is appended, with a new id, the request's name, url and
    description, the server's time and the principal as author; the answer is
    that row and a lookup by its id returns it.  (With a url in use the
    answer is the 422 of C7.) *)
Theorem create_source_inserts (db : DB) (now : Z) (s_in : SourceCreate.t)
    (cu : User.t) :
  db_ok db = true ->
  (forall r, In r (sources db) -> Source.url r <> Some (SourceCreate.url s_in)) ->
  exists row db',
    get_db (create_source now s_in cu) db = (inr row, db')
    /\ sources db' = (sources db ++ [row])%list
    /\ users db' = users db /\ articles db' = articles db
    /\ Source.author_id row = User.id cu
    /\ Source.name row = Some (SourceCreate.name s_in)
    /\ Source.url row = Some (SourceCreate.url s_in)
    /\ Source.description row = SourceCreate.description s_in
    /\ Source.created_at row = now
    /\ (forall r, In r (sources db) -> (Source.id r < Source.id row)%Z)
    /\ get_db (read_source (Source.id row)) db' = (inr row, db').
Proof.
  intros Hok Hfresh.
  destruct (create_source_cases db now s_in cu Hok) as [[(r & Hr & Hu) _]|[_ E]];
    [now destruct (Hfresh r Hr)|].
  eexists _, _. split; [exact E|].
  split; [reflexivity|]. do 7 (split; [reflexivity|]). split.
  - intros r Hr. apply next_id_fresh. now apply in_map.
  - pose proof (db_ok_insert_Source db
                  (new_source s_in cu (next_id (map Source.id (sources db))) now)
                  (SourceCreate.url s_in) Hok eq_refl eq_refl eq_refl Hfresh) as Hok'.
    unfold get_db, read_source, bind, execute_select. cbn [work begin].
    rewrite select_source_by_id; [reflexivity|assumption|].
    unfold insert_Source. cbn [sources]. apply in_or_app. right. now left.
Qed.

Lemma create_source_inserts_witness :
  exists row db',
    get_db (create_source 600 (SourceCreate.mk "Mail" "http://mail" None) Fixture.bob)
      Fixture.db0 = (inr row, db')
    /\ Source.author_id row = 2%Z.
Proof.
  destruct (create_source_inserts Fixture.db0 600
              (SourceCreate.mk "Mail" "http://mail" None) Fixture.bob eq_refl)
    as (row & db' & Hrun & _ & _ & _ & Hau & _).
  - simpl. intros r [<-|[<-|[]]]; discriminate.
  - exists row, db'. split; assumption.
Defined.

Lemma In_unique_id (A : Type) (key : A -> Z) (l : list A) (a b : A) :
  nodupb Z.eqb (map key l) = true -> In a l -> In b l -> key a = key b -> a = b.
Proof.
  intros Hnd Ha Hb Hk.
  apply (nodupb_clash_eq A Z Z.eqb key l a b Z.eqb_sym Hnd Ha Hb).
  now apply Z.eqb_eq.
Qed.

(** X5.  Deleting an article, by its author or by an admin, removes that
    article and nothing else: every other article, every source and every
    user is kept, and a lookup by the id then answers 404. *)
Theorem delete_article_removes_one (db : DB) (x : Article.t) (cu : User.t) :
  db_ok db = true -> In x (articles db) ->
  User.role cu = "admin" \/ User.id cu = Article.author_id x ->
  exists db',
    get_db (delete_article (Article.id x) cu) db = (inr tt, db')
    /\ (forall a, In a (articles db') <-> In a (articles db) /\ a <> x)
    /\ sources db' = sources db /\ users db' = users db
    /\ get_db (read_article (Article.id x)) db' = (inl article_not_found, db').
Proof.
  intros Hok Hin Ha.
  exists (drop_Articles (fun a => (Article.id a =? Article.id x)%Z) db).
  split; [now apply delete_article_allowed|].
  assert (Hmem : forall a,
             In a (articles (drop_Articles
                               (fun a => (Article.id a =? Article.id x)%Z) db))
             <-> In a (articles db) /\ a <> x).
  { intros a. unfold drop_Articles. cbn [articles].
    rewrite filter_In, negb_true_iff, Z.eqb_neq. split.
    - intros [Hi Hne]. split; [assumption|]. intros ->. now apply Hne.
    - intros [Hi Hne]. split; [assumption|]. intros Hk. apply Hne.
      now apply (In_unique_id _ Article.id (articles db) a x (ids_of_articles db Hok)). }
  split; [exact Hmem|]. split; [reflexivity|]. split; [reflexivity|].
  unfold get_db, read_article, bind, execute_select. cbn [work begin].
  rewrite select_by_id_none; [reflexivity|].
  intros r Hr Hk. apply Hmem in Hr as [Hr Hne]. apply Hne.
  now apply (In_unique_id _ Article.id (articles db) r x (ids_of_articles db Hok)).
Qed.

Lemma delete_article_removes_one_witness :
  exists db',
    get_db (delete_article 2 Fixture.root) Fixture.db0 = (inr tt, db')
    /\ articles db' = [Fixture.a1; Fixture.a3].
Proof.
  destruct (delete_article_removes_one Fixture.db0 Fixture.a2 Fixture.root eq_refl)
    as (db' & Hrun & _).
  - simpl. tauto.
  - left. reflexivity.
  - exists db'. split; [exact Hrun|].
    assert (E : get_db (delete_article 2 Fixture.root) Fixture.db0
                = (inr tt, drop_Articles (fun a => (Article.id a =? 2)%Z) Fixture.db0))
      by reflexivity.
    change (delete_article (Article.id Fixture.a2)) with (delete_article 2) in Hrun.
    rewrite E in Hrun. injection Hrun as <-. reflexivity.
Defined.

(** X6.  A login succeeds exactly when a stored user has the email and the
    password verifies against the stored hash; the token is then issued for
    that user's stored id and stored role, with the configured lifetime and
    the type ["bearer"].  A login that fails raises [login_exception], and
    does so when no stored user has the email or the password does not
    verify.  Nothing is written either way: the store after the request is
    the store before it. *)
Theorem login_issues_token `{Security} (db : DB) (form_data : UserLogin.t) :
  db_ok db = true ->
  snd (get_db (login_for_access_token form_data) db) = db
  /\ (forall e db',
      get_db (login_for_access_token form_data) db = (inl e, db') ->
      db' = db /\ e = login_exception
      /\ forall u, In u (users db) -> User.email u = UserLogin.email form_data ->
                   verify_password (UserLogin.password form_data) (User.password u)
                   = false)
  /\ (forall u, In u (users db) -> User.email u = UserLogin.email form_data ->
      verify_password (UserLogin.password form_data) (User.password u) = false ->
      get_db (login_for_access_token form_data) db = (inl login_exception, db))
  /\ ((forall u, In u (users db) -> User.email u <> UserLogin.email form_data) ->
      get_db (login_for_access_token form_data) db = (inl login_exception, db))
  /\ (forall t db',
      get_db (login_for_access_token form_data) db = (inr t, db') ->
      db' = db
      /\ exists u, In u (users db) /\ User.email u = UserLogin.email form_data
         /\ verify_password (UserLogin.password form_data) (User.password u) = true
         /\ t = {| Token.access_token :=
                     create_access_token
                       (TokenData.mk (Some (User.id u)) (Some (User.role u)))
                       ACCESS_TOKEN_EXPIRE_MINUTES;
                   Token.token_type := "bearer" |})
  /\ (forall u, In u (users db) -> User.email u = UserLogin.email form_data ->
      verify_password (UserLogin.password form_data) (User.password u) = true ->
      get_db (login_for_access_token form_data) db
      = (inr {| Token.access_token :=
                  create_access_token
                    (TokenData.mk (Some (User.id u)) (Some (User.role u)))
                    ACCESS_TOKEN_EXPIRE_MINUTES;
                Token.token_type := "bearer" |}, db)).
Proof.
  intros Hok.
  assert (Hfound : forall u, In u (users db) ->
            User.email u = UserLogin.email form_data ->
            login_for_access_token form_data (begin db)
            = if negb (verify_password (UserLogin.password form_data)
                         (User.password u))
              then (inl login_exception, begin db)
              else (inr {| Token.access_token :=
                             create_access_token
                               (TokenData.mk (Some (User.id u)) (Some (User.role u)))
                               ACCESS_TOKEN_EXPIRE_MINUTES;
                           Token.token_type := "bearer" |}, begin db)).
  { intros u Hin He. apply login_user_found.
    cbn [work begin]. rewrite <- He. now apply select_user_by_email. }
  split; [|split; [|split; [|split; [|split]]]].
  - destruct (login_cases db form_data Hok) as [E|(u & _ & _ & _ & E)];
      now rewrite E.
  - intros e db' Hrun.
    destruct (login_cases db form_data Hok) as [E|(u & Hin & He & Hv & E)];
      rewrite E in Hrun; [|discriminate].
    injection Hrun as <- <-. split; [reflexivity|]. split; [reflexivity|].
    intros u Hin He.
    destruct (verify_password (UserLogin.password form_data) (User.password u))
      eqn:Hv; [|reflexivity].
    pose proof (Hfound u Hin He) as E'. rewrite Hv in E'. cbn [negb] in E'.
    apply get_db_unchanged in E'. rewrite E in E'. discriminate E'.
  - intros u Hin He Hv. apply get_db_unchanged.
    rewrite (Hfound u Hin He). now rewrite Hv.
  - intros Hnone. apply get_db_unchanged. apply login_no_user.
    cbn [work begin]. now apply select_by_string_none.
  - intros t db' Hrun.
    destruct (login_cases db form_data Hok) as [E|(u & Hin & He & Hv & E)];
      rewrite E in Hrun; [discriminate|].
    injection Hrun as <- <-. split; [reflexivity|]. exists u. auto.
  - intros u Hin He Hv. apply get_db_unchanged.
    rewrite (Hfound u Hin He). now rewrite Hv.
Qed.

Lemma login_issues_token_witness :
  get_db (login_for_access_token (H := Fixture.security)
            (UserLogin.mk "root@x.com" "pw-r")) Fixture.db0
  = (inr (Token.mk "3:admin" "bearer"), Fixture.db0)
  /\ get_db (login_for_access_token (H := Fixture.security)
               (UserLogin.mk "root@x.com" "guess")) Fixture.db0
     = (inl login_exception, Fixture.db0).
Proof.
  split.
  - destruct (login_issues_token (H := Fixture.security) Fixture.db0
                (UserLogin.mk "root@x.com" "pw-r") eq_refl)
      as (_ & _ & _ & _ & _ & Hlogin).
    apply (Hlogin Fixture.root); [simpl; tauto | reflexivity | reflexivity].
  - destruct (login_issues_token (H := Fixture.security) Fixture.db0
                (UserLogin.mk "root@x.com" "guess") eq_refl)
      as (_ & _ & Hwrong & _).
    apply (Hwrong Fixture.root); [simpl; tauto | reflexivity | reflexivity].
Defined.

(** X7.  Registration followed by login: when the hasher verifies the
    password it has just hashed, a user registered with a new email and a new
    username can log in with the same email and password at once, and the
    token is issued for the new id and the role ["user"]. *)
Theorem register_then_login `{Security} (db : DB) (now : Z) (u_in : UserCreate.t) :
  db_ok db = true ->
  (forall r, In r (users db) -> User.email r <> UserCreate.email u_in) ->
  (forall r, In r (users db) -> User.username r <> UserCreate.username u_in) ->
  verify_password (UserCreate.password u_in)
    (get_password_hash (UserCreate.password u_in)) = true ->
  exists u db',
    get_db (register_user now u_in) db = (inr u, db')
    /\ get_db (login_for_access_token
                 (UserLogin.mk (UserCreate.email u_in) (UserCreate.password u_in))) db'
       = (inr {| Token.access_token :=
                   create_access_token
                     (TokenData.mk (Some (User.id u)) (Some "user"))
                     ACCESS_TOKEN_EXPIRE_MINUTES;
                 Token.token_type := "bearer" |}, db').
Proof.
  intros Hok He Hn Hv.
  destruct (register_user_cases db now u_in Hok)
    as [[(r & Hr & Hre) _]|[(_ & (r & Hr & Hrn) & _)|(_ & _ & E)]];
    [now destruct (He r Hr) | now destruct (Hn r Hr) |].
  eexists _, _. split; [exact E|].
  apply get_db_unchanged.
  rewrite (login_user_found _ _ (new_user u_in (next_id (map User.id (users db))) now)).
  - cbn [UserLogin.password new_user User.password]. now rewrite Hv.
  - cbn [work begin UserLogin.email].
    change (UserCreate.email u_in)
      with (User.email (new_user u_in (next_id (map User.id (users db))) now)).
    apply select_user_by_email.
    + now apply db_ok_insert_User.
    + unfold insert_User. cbn [users]. apply in_or_app. right. now left.
Qed.

Lemma register_then_login_witness :
  exists u db',
    get_db (register_user (H := Fixture.security) 600
              (UserCreate.mk "carol" "c@x.com" "pw-c")) Fixture.db0 = (inr u, db')
    /\ get_db (login_for_access_token (H := Fixture.security)
                 (UserLogin.mk "c@x.com" "pw-c")) db'
       = (inr (Token.mk "4:user" "bearer"), db').
Proof.
  destruct (register_then_login (H := Fixture.security) Fixture.db0 600
              (UserCreate.mk "carol" "c@x.com" "pw-c") eq_refl)
    as (u & db' & Hreg & Hlogin).
  - simpl. intros r [<-|[<-|[<-|[]]]]; discriminate.
  - simpl. intros r [<-|[<-|[<-|[]]]]; discriminate.
  - reflexivity.
  - exists u, db'. split; [exact Hreg|].
    assert (Eu : (inr u, db')
                 = get_db (register_user (H := Fixture.security) 600
                             (UserCreate.mk "carol" "c@x.com" "pw-c")) Fixture.db0)
      by (now symmetry).
    vm_compute in Eu. injection Eu as -> ->. exact Hlogin.
Defined.

(** X8.  Login followed by a request with the token: when the decoder
    returns the claims the token was issued with, the token that a login
    returns resolves to the user who logged in, so that /auth/me answers with
    that user's stored row. *)
Theorem login_then_me `{Security} (db : DB) (now : Z) (u : User.t) (password : string) :
  db_ok db = true -> In u (users db) ->
  verify_password password (User.password u) = true ->
  jwt_decode
    (create_access_token (TokenData.mk (Some (User.id u)) (Some (User.role u)))
       ACCESS_TOKEN_EXPIRE_MINUTES) SECRET_KEY [ALGORITHM]
  = inr (TokenData.mk (Some (User.id u)) (Some (User.role u))) ->
  exists t,
    get_db (login_for_access_token (UserLogin.mk (User.email u) password)) db
    = (inr t, db)
    /\ get_current_user (Token.access_token t) (begin db) = (inr u, begin db)
    /\ app now (GET_auth_me (Token.access_token t)) db = (inr (UserBody u), db).
Proof.
  intros Hok Hin Hv Hd.
  exists {| Token.access_token :=
              create_access_token
                (TokenData.mk (Some (User.id u)) (Some (User.role u)))
                ACCESS_TOKEN_EXPIRE_MINUTES;
            Token.token_type := "bearer" |}.
  assert (Eme : get_current_user
                  (create_access_token
                     (TokenData.mk (Some (User.id u)) (Some (User.role u)))
                     ACCESS_TOKEN_EXPIRE_MINUTES) (begin db) = (inr u, begin db)).
  { rewrite (get_current_user_select _ _ _ (User.id u) (User.role u) Hd eq_refl eq_refl).
    cbn [work begin]. now rewrite select_user_by_id. }
  split; [|split].
  - apply get_db_unchanged.
    rewrite (login_user_found _ (begin db) u).
    + cbn [UserLogin.password]. now rewrite Hv.
    + cbn [work begin UserLogin.email]. now apply select_user_by_email.
  - exact Eme.
  - cbn [app Token.access_token]. unfold respond, route, LoggedInUser, get_db, bind.
    rewrite Eme. reflexivity.
Qed.

Lemma login_then_me_witness :
  exists t,
    get_db (login_for_access_token (H := Fixture.security)
              (UserLogin.mk "a@x.com" "pw-a")) Fixture.db0 = (inr t, Fixture.db0)
    /\ app (H := Fixture.security) 700 (GET_auth_me (Token.access_token t)) Fixture.db0
       = (inr (UserBody Fixture.alice), Fixture.db0).
Proof.
  destruct (login_then_me (H := Fixture.security) Fixture.db0 700 Fixture.alice "pw-a"
              eq_refl (or_introl eq_refl) eq_refl eq_refl) as (t & Hlogin & _ & Hme).
  exists t. split; assumption.
Defined.

(** X9.  A created article can be read back: a lookup by the id of the
    answer returns the article, and the listing of its source is the listing
    from before with the article added at the end. *)
Theorem create_article_then_read (db : DB) (now : Z) (a_in : ArticleCreate.t)
    (cu : User.t) :
  db_ok db = true ->
  (exists r, In r (sources db) /\ Source.id r = ArticleCreate.source_id a_in) ->
  exists row db',
    get_db (create_article now a_in cu) db = (inr row, db')
    /\ get_db (read_article (Article.id row)) db' = (inr row, db')
    /\ get_db (get_articles_by_source (ArticleCreate.source_id a_in)) db'
       = (inr (filter (fun a => (Article.source_id a =? ArticleCreate.source_id a_in)%Z)
                 (articles db) ++ [row])%list, db').
Proof.
  intros Hok (x & Hx & Hid).
  destruct (create_article_cases db now a_in cu Hok) as [[Hnone _]|[_ E]];
    [now destruct (Hnone x Hx)|].
  eexists _, _. split; [exact E|].
  pose proof (db_ok_insert_Article db
                (new_article a_in cu (next_id (map Article.id (articles db))) now)
                Hok eq_refl eq_refl eq_refl) as Hok'.
  split.
  - unfold get_db, read_article, bind, execute_select. cbn [work begin].
    rewrite select_article_by_id; [reflexivity|assumption|].
    unfold insert_Article. cbn [articles]. apply in_or_app. right. now left.
  - destruct (get_articles_by_source_cases _ (ArticleCreate.source_id a_in) Hok')
      as [[Hnone _]|[_ E']]; [now destruct (Hnone x Hx)|].
    rewrite E'. unfold insert_Article. cbn [articles].
    rewrite filter_app. cbn [filter new_article Article.source_id].
    now rewrite Z.eqb_refl.
Qed.

Lemma create_article_then_read_witness :
  exists row db',
    get_db (create_article 500 (ArticleCreate.mk "t" None "c" 2) Fixture.alice)
      Fixture.db0 = (inr row, db')
    /\ get_db (get_articles_by_source 2) db' = (inr [Fixture.a3; row], db').
Proof.
  destruct (create_article_then_read Fixture.db0 500 (ArticleCreate.mk "t" None "c" 2)
              Fixture.alice eq_refl) as (row & db' & Hrun & _ & Hlist).
  - exists Fixture.s2. simpl. tauto.
  - exists row, db'. split; [exact Hrun | exact Hlist].
Defined.

Lemma map_replace_same (A : Type) (key : A -> Z) (l : list A) (x : A) :
  nodupb Z.eqb (map key l) = true -> In x l ->
  map (fun r => if (key r =? key x)%Z then x else r) l = l.
Proof.
  intros Hnd Hin. rewrite <- (map_id l) at 2. apply map_ext_in.
  intros r Hr. destruct (Z.eqb_spec (key r) (key x)) as [E|E]; [|reflexivity].
  symmetry. now apply (In_unique_id A key l r x).
Qed.

Lemma put_Source_same (db : DB) (x : Source.t) :
  db_ok db = true -> In x (sources db) -> put_Source x db = db.
Proof.
  intros Hok Hin. unfold put_Source.
  rewrite (map_replace_same _ Source.id _ x (ids_of_sources db Hok) Hin).
  now destruct db.
Qed.

Lemma put_Article_same (db : DB) (x : Article.t) :
  db_ok db = true -> In x (articles db) -> put_Article x db = db.
Proof.
  intros Hok Hin. unfold put_Article.
  rewrite (map_replace_same _ Article.id _ x (ids_of_articles db Hok) Hin).
  now destruct db.
Qed.

Lemma In_put_Source (db : DB) (x obj : Source.t) :
  In x (sources db) -> Source.id obj = Source.id x -> In obj (sources (put_Source obj db)).
Proof.
  intros Hin Hid. unfold put_Source. cbn [sources]. apply (In_put _ Source.id).
  left. split; [reflexivity|]. exists x. split; [assumption|]. now symmetry.
Qed.

Lemma In_put_Article (db : DB) (x obj : Article.t) :
  In x (articles db) -> Article.id obj = Article.id x ->
  In obj (articles (put_Article obj db)).
Proof.
  intros Hin Hid. unfold put_Article. cbn [articles]. apply (In_put _ Article.id).
  left. split; [reflexivity|]. exists x. split; [assumption|]. now symmetry.
Qed.

Lemma Source_setattrs_twice (x : Source.t) (upd : SourceUpdate.t) :
  Source_setattrs (Source_setattrs x upd) upd = Source_setattrs x upd.
Proof. destruct upd as [[n|] [u|] [d|]]; destruct x; reflexivity. Qed.

Lemma Article_setattrs_twice (x : Article.t) (upd : ArticleUpdate.t) :
  Article_setattrs (Article_setattrs x upd) upd = Article_setattrs x upd.
Proof. destruct upd as [[t|] [m|] [c|] [n|]]; destruct x; reflexivity. Qed.

(** X10.  An update of a source that the storage layer accepts can be read
    back, and sending the same update again gives the same answer and leaves
    the store as the first one left it. *)
Theorem update_source_repeatable (db : DB) (x : Source.t) (upd : SourceUpdate.t)
    (cu : User.t) :
  db_ok db = true -> In x (sources db) ->
  User.role cu = "admin" \/ User.id cu = Source.author_id x ->
  db_ok (put_Source (Source_setattrs x upd) db) = true ->
  exists x' db',
    get_db (update_source (Source.id x) upd cu) db = (inr x', db')
    /\ get_db (read_source (Source.id x)) db' = (inr x', db')
    /\ get_db (update_source (Source.id x) upd cu) db' = (inr x', db').
Proof.
  intros Hok Hin Ha Hacc.
  exists (Source_setattrs x upd), (put_Source (Source_setattrs x upd) db).
  pose proof (Source_setattrs_id x upd) as Hid.
  destruct (Source_setattrs_fields x upd) as (_ & _ & _ & _ & Hau & _).
  pose proof (In_put_Source db x _ Hin Hid) as Hin'.
  split; [|split].
  - now rewrite update_source_allowed, Hacc.
  - rewrite <- Hid. unfold get_db, read_source, bind, execute_select.
    cbn [work begin]. now rewrite select_source_by_id.
  - rewrite <- Hid. rewrite update_source_allowed; try assumption.
    + rewrite Source_setattrs_twice, put_Source_same by assumption.
      now rewrite Hacc.
    + now rewrite Hau.
Qed.

Lemma update_source_repeatable_witness :
  exists x' db',
    get_db (update_source 2 (SourceUpdate.mk (Some (Some "Mail")) None (Some None))
              Fixture.bob) Fixture.db0 = (inr x', db')
    /\ get_db (update_source 2 (SourceUpdate.mk (Some (Some "Mail")) None (Some None))
                 Fixture.bob) db' = (inr x', db').
Proof.
  destruct (update_source_repeatable Fixture.db0 Fixture.s2
              (SourceUpdate.mk (Some (Some "Mail")) None (Some None)) Fixture.bob
              eq_refl (or_intror (or_introl eq_refl)) (or_intror eq_refl) eq_refl)
    as (x' & db' & H1 & _ & H2).
  exists x', db'. split; assumption.
Defined.

(** X11.  The same for an article: an accepted update can be read back and
    is repeatable. *)
Theorem update_article_repeatable (db : DB) (x : Article.t) (upd : ArticleUpdate.t)
    (cu : User.t) :
  db_ok db = true -> In x (articles db) ->
  User.role cu = "admin" \/ User.id cu = Article.author_id x ->
  db_ok (put_Article (Article_setattrs x upd) db) = true ->
  exists x' db',
    get_db (update_article (Article.id x) upd cu) db = (inr x', db')
    /\ get_db (read_article (Article.id x)) db' = (inr x', db')
    /\ get_db (update_article (Article.id x) upd cu) db' = (inr x', db').
Proof.
  intros Hok Hin Ha Hacc.
  exists (Article_setattrs x upd), (put_Article (Article_setattrs x upd) db).
  pose proof (Article_setattrs_id x upd) as Hid.
  destruct (Article_setattrs_fields x upd) as (_ & _ & _ & _ & _ & Hau & _).
  pose proof (In_put_Article db x _ Hin Hid) as Hin'.
  split; [|split].
  - now rewrite update_article_allowed, Hacc.
  - rewrite <- Hid. unfold get_db, read_article, bind, execute_select.
    cbn [work begin]. now rewrite select_article_by_id.
  - rewrite <- Hid. rewrite update_article_allowed; try assumption.
    + rewrite Article_setattrs_twice, put_Article_same by assumption.
      now rewrite Hacc.
    + now rewrite Hau.
Qed.

Lemma update_article_repeatable_witness :
  exists x' db',
    get_db (update_article 3 (ArticleUpdate.mk None (Some (Some "short")) None None)
              Fixture.root) Fixture.db0 = (inr x', db')
    /\ get_db (read_article 3) db' = (inr x', db').
Proof.
  destruct (update_article_repeatable Fixture.db0 Fixture.a3
              (ArticleUpdate.mk None (Some (Some "short")) None None) Fixture.root
              eq_refl (or_intror (or_intror (or_introl eq_refl))) (or_introl eq_refl)
              eq_refl)
    as (x' & db' & H1 & H2 & _).
  exists x', db'. split; assumption.
Defined.

(** X12.  An update that supplies no field, by the author or an admin,
    always succeeds: it answers with the stored row and changes nothing. *)
Theorem empty_update_is_noop (db : DB) (cu : User.t) :
  db_ok db = true ->
  (forall x, In x (sources db) ->
      User.role cu = "admin" \/ User.id cu = Source.author_id x ->
      get_db (update_source (Source.id x) (SourceUpdate.mk None None None) cu) db
      = (inr x, db))
  /\ (forall x, In x (articles db) ->
      User.role cu = "admin" \/ User.id cu = Article.author_id x ->
      get_db (update_article (Article.id x) (ArticleUpdate.mk None None None None) cu) db
      = (inr x, db)).
Proof.
  intros Hok. split; intros x Hin Ha.
  - rewrite update_source_allowed by assumption.
    change (Source_setattrs x (SourceUpdate.mk None None None)) with x.
    now rewrite put_Source_same, Hok.
  - rewrite update_article_allowed by assumption.
    change (Article_setattrs x (ArticleUpdate.mk None None None None)) with x.
    now rewrite put_Article_same, Hok.
Qed.

Lemma empty_update_is_noop_witness :
  get_db (update_source 1 (SourceUpdate.mk None None None) Fixture.alice) Fixture.db0
  = (inr Fixture.s1, Fixture.db0).
Proof.
  destruct (empty_update_is_noop Fixture.db0 Fixture.alice eq_refl) as (Hs & _).
  apply (Hs Fixture.s1); [simpl; tauto | right; reflexivity].
Defined.

(** X13.  After a source is deleted, a lookup by its id and the listing of
    its articles answer 404, and so does a lookup of each article it had. *)
Theorem delete_source_then_read (db : DB) (x : Source.t) (cu : User.t) :
  db_ok db = true -> In x (sources db) ->
  User.role cu = "admin" \/ User.id cu = Source.author_id x ->
  exists db',
    get_db (delete_source (Source.id x) cu) db = (inr tt, db')
    /\ get_db (read_source (Source.id x)) db' = (inl source_not_found, db')
    /\ get_db (get_articles_by_source (Source.id x)) db'
       = (inl (http_exception status.HTTP_404_NOT_FOUND
                 ("Источник с ID " ++ str_int (Source.id x) ++ " не найден")), db')
    /\ (forall a, In a (articles db) -> Article.source_id a = Source.id x ->
                  get_db (read_article (Article.id a)) db'
                  = (inl article_not_found, db')).
Proof.
  intros Hok Hin Ha. exists (drop_Source x db).
  pose proof (db_ok_drop_Source x db Hok) as Hok'.
  assert (Hgone : forall r, In r (sources (drop_Source x db))
                            -> Source.id r <> Source.id x).
  { intros r Hr. unfold drop_Source in Hr. cbn [sources] in Hr.
    apply filter_In in Hr as [_ Hne]. apply negb_true_iff in Hne.
    now apply Z.eqb_neq. }
  split; [now apply delete_source_allowed|]. split; [|split].
  - destruct (read_source_cases _ (Source.id x) Hok') as [[_ E]|(r & Hr & Hid & _)];
      [assumption|]. now destruct (Hgone r Hr).
  - destruct (get_articles_by_source_cases _ (Source.id x) Hok')
      as [[_ E]|[(r & Hr & Hid) _]]; [assumption|]. now destruct (Hgone r Hr).
  - intros a Hina Hsrc.
    destruct (read_article_cases _ (Article.id a) Hok') as [[_ E]|(r & Hr & Hid & _)];
      [assumption|exfalso].
    unfold drop_Source in Hr. cbn [articles] in Hr.
    apply filter_In in Hr as [Hr Hne]. apply negb_true_iff in Hne.
    apply Z.eqb_neq in Hne. apply Hne. rewrite <- Hsrc. f_equal.
    now apply (In_unique_id _ Article.id (articles db) r a (ids_of_articles db Hok)).
Qed.

Lemma delete_source_then_read_witness :
  exists db',
    get_db (delete_source 1 Fixture.root) Fixture.db0 = (inr tt, db')
    /\ get_db (read_article 2) db' = (inl article_not_found, db').
Proof.
  destruct (delete_source_then_read Fixture.db0 Fixture.s1 Fixture.root eq_refl)
    as (db' & Hrun & _ & _ & Harts).
  - simpl. tauto.
  - left. reflexivity.
  - exists db'. split; [exact Hrun|].
    apply (Harts Fixture.a2); [simpl; tauto | reflexivity].
Defined.

(** * What the application can do to the store *)

(** Every request leaves the store as it is or makes one of seven writes,
    each behind its guard. *)
Lemma app_store_cases `{Security} (now : Z) (req : Request) (db : DB) :
  db_ok db = true ->
  exists db',
    snd (app now req db) = db'
    /\ (db' = db
        \/ (exists u_in,
               req = POST_auth_register u_in
               /\ db' = insert_User
                          (new_user u_in (next_id (map User.id (users db))) now) db)
        \/ (exists token u,
               In u (users db)
               /\ get_current_user token (begin db) = (inr u, begin db)
               /\ ((exists s_in,
                       req = POST_sources token s_in
                       /\ db' = insert_Source
                                  (new_source s_in u
                                     (next_id (map Source.id (sources db))) now) db)
                   \/ (exists x upd,
                          req = PATCH_source token (Source.id x) upd
                          /\ In x (sources db)
                          /\ (User.role u = "admin" \/ User.id u = Source.author_id x)
                          /\ db' = put_Source (Source_setattrs x upd) db)
                   \/ (exists x,
                          req = DELETE_source token (Source.id x)
                          /\ In x (sources db)
                          /\ (User.role u = "admin" \/ User.id u = Source.author_id x)
                          /\ db' = drop_Source x db)
                   \/ (exists a_in,
                          req = POST_articles token a_in
                          /\ (exists r, In r (sources db)
                                        /\ Source.id r = ArticleCreate.source_id a_in)
                          /\ db' = insert_Article
                                     (new_article a_in u
                                        (next_id (map Article.id (articles db))) now)
                                     db)
                   \/ (exists x upd,
                          req = PATCH_article token (Article.id x) upd
                          /\ In x (articles db)
                          /\ (User.role u = "admin" \/ User.id u = Article.author_id x)
                          /\ db' = put_Article (Article_setattrs x upd) db)
                   \/ (exists x,
                          req = DELETE_article token (Article.id x)
                          /\ In x (articles db)
                          /\ (User.role u = "admin" \/ User.id u = Article.author_id x)
                          /\ db' = drop_Articles
                                     (fun a => (Article.id a =? Article.id x)%Z) db)))).
Proof.
  intros Hok. eexists. split; [reflexivity|].
  destruct req as [u_in|form|token|token s_in| |i|i|token i upd|token i
                  |token a_in| |i|token i upd|token i];
    cbn [app]; unfold respond; cbn [snd].
  - destruct (register_user_cases db now u_in Hok) as [[_ E]|[(_ & _ & E)|(_ & _ & E)]];
      rewrite E; cbn [snd]; [now left | now left |].
    right. left. now exists u_in.
  - left. destruct (login_cases db form Hok) as [E|(u & _ & _ & _ & E)];
      now rewrite E.
  - left. destruct (route_cases _ db token read_users_me Hok) as [E|(u & _ & _ & E)];
      now rewrite E.
  - destruct (route_cases _ db token (create_source now s_in) Hok)
      as [E|(u & Hu & Hme & E)]; rewrite E; [now left|].
    destruct (create_source_cases db now s_in u Hok) as [[_ E']|[_ E']];
      rewrite E'; cbn [snd]; [now left|].
    right. right. exists token, u. split; [assumption|]. split; [assumption|].
    left. now exists s_in.
  - now left.
  - left. destruct (read_source_cases db i Hok) as [[_ E]|(x & _ & _ & E)];
      now rewrite E.
  - left. destruct (get_articles_by_source_cases db i Hok) as [[_ E]|[_ E]];
      now rewrite E.
  - destruct (route_cases _ db token (update_source i upd) Hok)
      as [E|(u & Hu & Hme & E)]; rewrite E; [now left|].
    destruct (update_source_cases db i upd u Hok)
      as [[_ E']|(x & Hx & Hid & [[_ E']|[Ha [[_ E']|[_ E']]]])];
      rewrite E'; cbn [snd]; try (now left).
    right. right. exists token, u. split; [assumption|]. split; [assumption|].
    right. left. exists x, upd. subst i. auto.
  - destruct (route_cases _ db token (delete_source i) Hok)
      as [E|(u & Hu & Hme & E)]; rewrite E; [now left|].
    destruct (delete_source_cases db i u Hok)
      as [[_ E']|(x & Hx & Hid & [[_ E']|[Ha E']])];
      rewrite E'; cbn [snd]; try (now left).
    right. right. exists token, u. split; [assumption|]. split; [assumption|].
    right. right. left. exists x. subst i. auto.
  - destruct (route_cases _ db token (create_article now a_in) Hok)
      as [E|(u & Hu & Hme & E)]; rewrite E; [now left|].
    destruct (create_article_cases db now a_in u Hok) as [[_ E']|[Hsrc E']];
      rewrite E'; cbn [snd]; [now left|].
    right. right. exists token, u. split; [assumption|]. split; [assumption|].
    right. right. right. left. exists a_in. auto.
  - now left.
  - left. destruct (read_article_cases db i Hok) as [[_ E]|(x & _ & _ & E)];
      now rewrite E.
  - destruct (route_cases _ db token (update_article i upd) Hok)
      as [E|(u & Hu & Hme & E)]; rewrite E; [now left|].
    destruct (update_article_cases db i upd u Hok)
      as [[_ E']|(x & Hx & Hid & [[_ E']|[Ha [[_ E']|[_ E']]]])];
      rewrite E'; cbn [snd]; try (now left).
    right. right. exists token, u. split; [assumption|]. split; [assumption|].
    do 4 right. left. exists x, upd. subst i. auto.
  - destruct (route_cases _ db token (delete_article i) Hok)
      as [E|(u & Hu & Hme & E)]; rewrite E; [now left|].
    destruct (delete_article_cases db i u Hok)
      as [[_ E']|(x & Hx & Hid & [[_ E']|[Ha E']])];
      rewrite E'; cbn [snd]; try (now left).
    right. right. exists token, u. split; [assumption|]. split; [assumption|].
    do 5 right. exists x. subst i. auto.
Qed.

Lemma app_db_ok `{Security} (now : Z) (req : Request) (db : DB) :
  db_ok db = true -> db_ok (snd (app now req db)) = true.
Proof.
  intros Hok.
  destruct req; cbn [app]; unfold respond; cbn [snd];
    first [ apply preserves_route;
            [apply preserves_get_current_user | intro | assumption]
          | apply preserves_get_db; [|assumption] ];
    edestruct preserves_handlers as (?&?&?&?&?&?&?&?&?&?&?&?&?&?); eauto.
  Unshelve.
  all: first [exact 0%Z | exact (User.mk 0 "" "" "" "" 0)].
Qed.

Lemma app_users `{Security} (now : Z) (req : Request) (db : DB) :
  db_ok db = true ->
  exists new, users (snd (app now req db)) = (users db ++ new)%list
              /\ Forall (fun u => User.role u = "user") new.
Proof.
  intros Hok. destruct (app_store_cases now req db Hok) as (db' & -> & Hc).
  destruct Hc as [->|[(u_in & _ & ->)|(token & u & _ & _ & Hc)]].
  - exists []. split; [now rewrite app_nil_r | constructor].
  - eexists [_]. split; [reflexivity|]. constructor; [reflexivity|constructor].
  - exists []. split; [|constructor]. rewrite app_nil_r.
    destruct Hc as [(? & _ & ->)|[(? & ? & _ & _ & _ & ->)|[(? & _ & _ & _ & ->)
                   |[(? & _ & _ & ->)|[(? & ? & _ & _ & _ & ->)|(? & _ & _ & _ & ->)]]]]];
      reflexivity.
Qed.

(** X15.  No request changes or removes a stored user, and the only users
    that requests add have the role ["user"]: after any sequence of requests
    the users table is the one from before followed by users of role
    ["user"].  A stored role, admin or not, is never changed through the
    API. *)
Theorem users_only_grow `{Security} (reqs : list (Z * Request)) (db : DB) :
  db_ok db = true ->
  exists new, users (serve reqs db) = (users db ++ new)%list
              /\ Forall (fun u => User.role u = "user") new.
Proof.
  revert db. induction reqs as [|[now req] reqs IH]; intros db Hok.
  - exists []. split; [now rewrite app_nil_r | constructor].
  - cbn [serve]. destruct (app_users now req db Hok) as (n1 & E1 & F1).
    destruct (IH _ (app_db_ok now req db Hok)) as (n2 & E2 & F2).
    exists (n1 ++ n2)%list. split.
    + now rewrite E2, E1, app_assoc.
    + apply Forall_app. now split.
Qed.

Lemma users_only_grow_witness :
  exists new,
    users (serve (H := Fixture.security)
             [(600, POST_auth_register (UserCreate.mk "carol" "c@x.com" "pw-c"));
              (601, DELETE_source "3:admin" 1)]
             Fixture.db0)
    = ([Fixture.alice; Fixture.bob; Fixture.root] ++ new)%list
    /\ Forall (fun u => User.role u = "user") new.
Proof.
  exact (users_only_grow (H := Fixture.security)
           [(600, POST_auth_register (UserCreate.mk "carol" "c@x.com" "pw-c"));
            (601, DELETE_source "3:admin" 1)] Fixture.db0 eq_refl).
Defined.

(** ** References *)

Lemma fk_ok_iff (db : DB) :
  fk_ok db = true
  <-> (forall s, In s (sources db) ->
         exists u, In u (users db) /\ User.id u = Source.author_id s)
      /\ (forall a, In a (articles db) ->
            (exists s, In s (sources db) /\ Source.id s = Article.source_id a)
            /\ (exists u, In u (users db) /\ User.id u = Article.author_id a)).
Proof.
  unfold fk_ok. rewrite andb_true_iff, !forallb_forall. split.
  - intros [Hs Ha]. split.
    + intros s Hin. apply Hs in Hin. apply existsb_exists in Hin as (u & Hu & E).
      exists u. apply Z.eqb_eq in E. auto.
    + intros a Hin. apply Ha in Hin. apply andb_true_iff in Hin as [H1 H2].
      apply existsb_exists in H1 as (s & Hs' & E1).
      apply existsb_exists in H2 as (u & Hu & E2).
      apply Z.eqb_eq in E1, E2. split; [now exists s | now exists u].
  - intros [Hs Ha]. split.
    + intros s Hin. destruct (Hs s Hin) as (u & Hu & E).
      apply existsb_exists. exists u. split; [assumption | now apply Z.eqb_eq].
    + intros a Hin. destruct (Ha a Hin) as [(s & Hs' & E1) (u & Hu & E2)].
      apply andb_true_iff. split; apply existsb_exists;
        [exists s | exists u]; (split; [assumption | now apply Z.eqb_eq]).
Qed.

Lemma app_fk_ok `{Security} (now : Z) (req : Request) (db : DB) :
  db_ok db = true -> fk_ok db = true -> fk_ok (snd (app now req db)) = true.
Proof.
  intros Hok Hfk. destruct (app_store_cases now req db Hok) as (db' & -> & Hc).
  pose proof (proj1 (fk_ok_iff db) Hfk) as [Hs Ha].
  destruct Hc as [->|[(u_in & _ & ->)|(token & u & Hu & _ & Hc)]]; [assumption| |].
  - apply fk_ok_iff. unfold insert_User. cbn [users sources articles]. split.
    + intros s Hin. destruct (Hs s Hin) as (v & Hv & E). exists v.
      split; [apply in_or_app; now left | assumption].
    + intros a Hin. destruct (Ha a Hin) as [Hsrc (v & Hv & E)]. split; [assumption|].
      exists v. split; [apply in_or_app; now left | assumption].
  - destruct Hc as [(s_in & _ & ->)|[(x & upd & _ & Hx & _ & ->)|[(x & _ & Hx & _ & ->)
                   |[(a_in & _ & (r & Hr & Hrid) & ->)|[(x & upd & _ & Hx & _ & ->)
                   |(x & _ & Hx & _ & ->)]]]]];
      apply fk_ok_iff.
    + unfold insert_Source. cbn [users sources articles]. split.
      * intros s Hin. apply in_app_or in Hin as [Hin|[<-|[]]]; [now apply Hs|].
        now exists u.
      * intros a Hin. destruct (Ha a Hin) as [(s & Hs' & E) Hau]. split; [|assumption].
        exists s. split; [apply in_or_app; now left | assumption].
    + destruct (Source_setattrs_fields x upd) as (_ & _ & _ & Hid & Hau & _).
      unfold put_Source. cbn [users sources articles]. split.
      * intros s Hin. apply (In_put _ Source.id) in Hin as [(-> & _)|(Hin & _)];
          [|now apply Hs]. rewrite Hau. now apply Hs.
      * intros a Hin. destruct (Ha a Hin) as [(s & Hs' & E) Hauth]. split; [|assumption].
        destruct (Z.eq_dec (Source.id s) (Source.id x)) as [Ex|Ex].
        -- exists (Source_setattrs x upd). split; [|congruence].
           apply (In_put _ Source.id). left. split; [reflexivity|].
           exists x. split; [assumption | now symmetry].
        -- exists s. split; [|assumption]. apply (In_put _ Source.id). right.
           split; [assumption | congruence].
    + unfold drop_Source. cbn [users sources articles]. split.
      * intros s Hin. apply filter_In in Hin as [Hin _]. now apply Hs.
      * intros a Hin. apply filter_In in Hin as [Hin Hne].
        apply negb_true_iff, Z.eqb_neq in Hne.
        destruct (Ha a Hin) as [(s & Hs' & E) Hauth]. split; [|assumption].
        exists s. split; [|assumption]. apply filter_In. split; [assumption|].
        apply negb_true_iff, Z.eqb_neq. congruence.
    + unfold insert_Article. cbn [users sources articles]. split; [assumption|].
      intros a Hin. apply in_app_or in Hin as [Hin|[<-|[]]]; [now apply Ha|].
      split; [now exists r | now exists u].
    + destruct (Article_setattrs_fields x upd) as (_ & _ & _ & _ & _ & Hau & Hsrc & _).
      unfold put_Article. cbn [users sources articles]. split; [assumption|].
      intros a Hin. apply (In_put _ Article.id) in Hin as [(-> & _)|(Hin & _)];
        [|now apply Ha]. rewrite Hau, Hsrc. now apply Ha.
    + unfold drop_Articles. cbn [users sources articles]. split; [assumption|].
      intros a Hin. apply filter_In in Hin as [Hin _]. now apply Ha.
Qed.

(** X16.  The references between the tables, which the engine does not
    check, are kept by the handlers: if every source has a stored author and
    every article a stored source and a stored author, the same holds after
    any sequence of requests; it holds in the empty database. *)
Theorem references_hold_forever `{Security} :
  fk_ok empty_db = true
  /\ (forall reqs db, db_ok db = true -> fk_ok db = true ->
                      fk_ok (serve reqs db) = true).
Proof.
  split; [reflexivity|].
  induction reqs as [|[now req] reqs IH]; intros db Hok Hfk; [exact Hfk|].
  cbn [serve]. apply IH; [now apply app_db_ok | now apply app_fk_ok].
Qed.

Lemma references_hold_forever_witness :
  fk_ok (serve (H := Fixture.security)
           [(600, POST_articles "2:user" (ArticleCreate.mk "t" None "c" 1));
            (601, DELETE_source "1:user" 1)]
           Fixture.db0) = true.
Proof.
  destruct (references_hold_forever (H := Fixture.security)) as (_ & Hserve).
  apply Hserve; reflexivity.
Defined.

(** ** Ownership *)

(** X17.  A request never moves a row to another owner: a source that is
    stored before and after a request under the same id has the same author
    and creation time, and an article also the same source. *)
Theorem never_reassigned `{Security} (now : Z) (req : Request) (db : DB) :
  db_ok db = true ->
  (forall s s', In s (sources db) -> In s' (sources (snd (app now req db))) ->
      Source.id s' = Source.id s ->
      Source.author_id s' = Source.author_id s
      /\ Source.created_at s' = Source.created_at s)
  /\ (forall a a', In a (articles db) -> In a' (articles (snd (app now req db))) ->
      Article.id a' = Article.id a ->
      Article.author_id a' = Article.author_id a
      /\ Article.source_id a' = Article.source_id a
      /\ Article.created_at a' = Article.created_at a).
Proof.
  intros Hok. destruct (app_store_cases now req db Hok) as (db' & -> & Hc).
  pose proof (ids_of_sources db Hok) as Hsid.
  pose proof (ids_of_articles db Hok) as Haid.
  assert (Hsame_s : forall s s', In s (sources db) -> In s' (sources db) ->
             Source.id s' = Source.id s ->
             Source.author_id s' = Source.author_id s
             /\ Source.created_at s' = Source.created_at s).
  { intros s s' Hs Hs' E.
    now rewrite (In_unique_id _ Source.id (sources db) s' s Hsid Hs' Hs E). }
  assert (Hsame_a : forall a a', In a (articles db) -> In a' (articles db) ->
             Article.id a' = Article.id a ->
             Article.author_id a' = Article.author_id a
             /\ Article.source_id a' = Article.source_id a
             /\ Article.created_at a' = Article.created_at a).
  { intros a a' Ha Ha' E.
    now rewrite (In_unique_id _ Article.id (articles db) a' a Haid Ha' Ha E). }
  destruct Hc as [->|[(u_in & _ & ->)|(token & u & _ & _ & Hc)]];
    [now split | now split |].
  destruct Hc as [(s_in & _ & ->)|[(x & upd & _ & Hx & _ & ->)|[(x & _ & Hx & _ & ->)
                 |[(a_in & _ & _ & ->)|[(x & upd & _ & Hx & _ & ->)
                 |(x & _ & Hx & _ & ->)]]]]].
  - split; [|assumption]. intros s s' Hs Hs' E.
    unfold insert_Source in Hs'. cbn [sources] in Hs'.
    apply in_app_or in Hs' as [Hs'|[<-|[]]]; [now apply Hsame_s|].
    cbn [new_source Source.id] in E. symmetry in E.
    now destruct (next_id_new _ Source.id (sources db) s Hs).
  - split; [|assumption]. intros s s' Hs Hs' E.
    destruct (Source_setattrs_fields x upd) as (_ & _ & _ & Hid & Hau & Hca).
    unfold put_Source in Hs'. cbn [sources] in Hs'.
    apply (In_put _ Source.id) in Hs' as [(-> & _)|(Hs' & _)]; [|now apply Hsame_s].
    rewrite Hau, Hca. apply Hsame_s; [assumption|assumption|congruence].
  - split.
    + intros s s' Hs Hs' E. unfold drop_Source in Hs'. cbn [sources] in Hs'.
      apply filter_In in Hs' as [Hs' _]. now apply Hsame_s.
    + intros a a' Ha Ha' E. unfold drop_Source in Ha'. cbn [articles] in Ha'.
      apply filter_In in Ha' as [Ha' _]. now apply Hsame_a.
  - split; [assumption|]. intros a a' Ha Ha' E.
    unfold insert_Article in Ha'. cbn [articles] in Ha'.
    apply in_app_or in Ha' as [Ha'|[<-|[]]]; [now apply Hsame_a|].
    cbn [new_article Article.id] in E. symmetry in E.
    now destruct (next_id_new _ Article.id (articles db) a Ha).
  - split; [assumption|]. intros a a' Ha Ha' E.
    destruct (Article_setattrs_fields x upd)
      as (_ & _ & _ & _ & Hid & Hau & Hsrc & Hca).
    unfold put_Article in Ha'. cbn [articles] in Ha'.
    apply (In_put _ Article.id) in Ha' as [(-> & _)|(Ha' & _)]; [|now apply Hsame_a].
    rewrite Hau, Hsrc, Hca. apply Hsame_a; [assumption|assumption|congruence].
  - split; [assumption|]. intros a a' Ha Ha' E.
    unfold drop_Articles in Ha'. cbn [articles] in Ha'.
    apply filter_In in Ha' as [Ha' _]. now apply Hsame_a.
Qed.

Lemma never_reassigned_witness :
  Forall (fun s' => Source.id s' = 2%Z -> Source.author_id s' = 2%Z)
         (sources (snd (app (H := Fixture.security) 600
                          (PATCH_source "3:admin" 2
                             (SourceUpdate.mk (Some (Some "Mail")) None None))
                          Fixture.db0))).
Proof.
  apply Forall_forall. intros s' Hin Hid.
  destruct (never_reassigned (H := Fixture.security) 600
              (PATCH_source "3:admin" 2 (SourceUpdate.mk (Some (Some "Mail")) None None))
              Fixture.db0 eq_refl) as (Hs & _).
  apply (Hs Fixture.s2 s'); [simpl; tauto | exact Hin | exact Hid].
Defined.

(** X18.  Whoever changes or removes a stored row is entitled to: if a
    stored source is not in the store after a request, the request is an
    update or a delete of that source with a token that resolves to an admin
    or to its author; if a stored article is not, the request is an update or
    a delete of that article by an admin or its author, or the delete of its
    source by an admin or the author of the source. *)
Theorem writes_need_owner_or_admin `{Security} (now : Z) (req : Request) (db : DB) :
  db_ok db = true ->
  (forall s, In s (sources db) -> ~ In s (sources (snd (app now req db))) ->
      exists token u,
        get_current_user token (begin db) = (inr u, begin db)
        /\ In u (users db)
        /\ (User.role u = "admin" \/ User.id u = Source.author_id s)
        /\ ((exists upd, req = PATCH_source token (Source.id s) upd)
            \/ req = DELETE_source token (Source.id s)))
  /\ (forall a, In a (articles db) -> ~ In a (articles (snd (app now req db))) ->
      exists token u,
        get_current_user token (begin db) = (inr u, begin db)
        /\ In u (users db)
        /\ (((User.role u = "admin" \/ User.id u = Article.author_id a)
             /\ ((exists upd, req = PATCH_article token (Article.id a) upd)
                 \/ req = DELETE_article token (Article.id a)))
            \/ (exists x, In x (sources db)
                  /\ Source.id x = Article.source_id a
                  /\ (User.role u = "admin" \/ User.id u = Source.author_id x)
                  /\ req = DELETE_source token (Source.id x)))).
Proof.
  intros Hok. destruct (app_store_cases now req db Hok) as (db' & -> & Hc).
  pose proof (ids_of_sources db Hok) as Hsid.
  pose proof (ids_of_articles db Hok) as Haid.
  destruct Hc as [->|[(u_in & _ & ->)|(token & u & Hu & Hme & Hc)]].
  - split; intros r Hr Hgone; now destruct Hgone.
  - split; intros r Hr Hgone; now destruct Hgone.
  - destruct Hc as [(s_in & _ & ->)|[(x & upd & -> & Hx & Ha & ->)
                   |[(x & -> & Hx & Ha & ->)|[(a_in & _ & _ & ->)
                   |[(x & upd & -> & Hx & Ha & ->)|(x & -> & Hx & Ha & ->)]]]]].
    + split; intros r Hr Hgone; exfalso; apply Hgone; [|assumption].
      unfold insert_Source. cbn [sources]. apply in_or_app. now left.
    + split; [|intros r Hr Hgone; now destruct Hgone].
      intros s Hs Hgone.
      destruct (Z.eq_dec (Source.id s) (Source.id x)) as [E|E].
      * pose proof (In_unique_id _ Source.id (sources db) s x Hsid Hs Hx E) as ->.
        exists token, u. repeat (split; [assumption|]). left. now exists upd.
      * exfalso. apply Hgone. unfold put_Source. cbn [sources].
        apply (In_put _ Source.id). right. split; [assumption|].
        now rewrite Source_setattrs_id.
    + split.
      * intros s Hs Hgone.
        destruct (Z.eq_dec (Source.id s) (Source.id x)) as [E|E].
        -- pose proof (In_unique_id _ Source.id (sources db) s x Hsid Hs Hx E) as ->.
           exists token, u. repeat (split; [assumption|]). now right.
        -- exfalso. apply Hgone. unfold drop_Source. cbn [sources].
           apply filter_In. split; [assumption|]. now apply negb_true_iff, Z.eqb_neq.
      * intros a Hin Hgone.
        destruct (Z.eq_dec (Article.source_id a) (Source.id x)) as [E|E].
        -- exists token, u. repeat (split; [assumption|]). right.
           exists x. repeat (split; [now auto|]). reflexivity.
        -- exfalso. apply Hgone. unfold drop_Source. cbn [articles].
           apply filter_In. split; [assumption|]. now apply negb_true_iff, Z.eqb_neq.
    + split; intros r Hr Hgone; exfalso; apply Hgone; [assumption|].
      unfold insert_Article. cbn [articles]. apply in_or_app. now left.
    + split; [intros r Hr Hgone; now destruct Hgone|].
      intros a Hin Hgone.
      destruct (Z.eq_dec (Article.id a) (Article.id x)) as [E|E].
      * pose proof (In_unique_id _ Article.id (articles db) a x Haid Hin Hx E) as ->.
        exists token, u. repeat (split; [assumption|]). left.
        split; [assumption|]. left. now exists upd.
      * exfalso. apply Hgone. unfold put_Article. cbn [articles].
        apply (In_put _ Article.id). right. split; [assumption|].
        now rewrite Article_setattrs_id.
    + split; [intros r Hr Hgone; now destruct Hgone|].
      intros a Hin Hgone.
      destruct (Z.eq_dec (Article.id a) (Article.id x)) as [E|E].
      * pose proof (In_unique_id _ Article.id (articles db) a x Haid Hin Hx E) as ->.
        exists token, u. repeat (split; [assumption|]). left.
        split; [assumption|]. now right.
      * exfalso. apply Hgone. unfold drop_Articles. cbn [articles].
        apply filter_In. split; [assumption|]. now apply negb_true_iff, Z.eqb_neq.
Qed.

Lemma writes_need_owner_or_admin_witness :
  ~ In Fixture.a2 (articles (snd (app (H := Fixture.security) 600
                                    (DELETE_source "1:user" 1) Fixture.db0)))
  /\ exists token u,
       get_current_user (H := Fixture.security) token (begin Fixture.db0)
       = (inr u, begin Fixture.db0)
       /\ DELETE_source "1:user" 1 = DELETE_source token 1
       /\ User.id u = Source.author_id Fixture.s1.
Proof.
  assert (Hgone : ~ In Fixture.a2
                      (articles (snd (app (H := Fixture.security) 600
                                        (DELETE_source "1:user" 1) Fixture.db0)))).
  { vm_compute. intros [E|[]]. discriminate E. }
  split; [exact Hgone|].
  destruct (writes_need_owner_or_admin (H := Fixture.security) 600
              (DELETE_source "1:user" 1) Fixture.db0 eq_refl) as (_ & Ha).
  destruct (Ha Fixture.a2 (or_intror (or_introl eq_refl)) Hgone)
    as (token & u & Hme & _ & [[_ [(upd & E)|E]]|(x & Hx & Hid & Hau & E)]);
    try discriminate E.
  exists token, u. split; [exact Hme|].
  destruct Hx as [<-|[<-|[]]]; [|discriminate Hid].
  split; [exact E|]. injection E as <-.
  vm_compute in Hme. injection Hme as <-. reflexivity.
Defined.

(** ** Failures *)




(** X20.  [require_role] authenticates before it authorizes: a token that
    does not resolve gives the 401 of [get_current_user], whatever role is
    required; a token that resolves gives the stored user when the stored
    role is the required one and 403, with the required role in the message,
    when it is not.  The session is never touched. *)
Theorem require_role_outcomes `{Security} (db : DB) (role token : string) :
  db_ok db = true ->
  (get_current_user token (begin db) = (inl credentials_exception, begin db)
   /\ require_role role token (begin db) = (inl credentials_exception, begin db))
  \/ exists u,
      In u (users db)
      /\ get_current_user token (begin db) = (inr u, begin db)
      /\ ((User.role u = role
           /\ require_role role token (begin db) = (inr u, begin db))
          \/ (User.role u <> role
              /\ require_role role token (begin db)
                 = (inl (http_exception status.HTTP_403_FORBIDDEN
                           ("Недостаточно прав. Требуется роль: " ++ role)),
                    begin db))).
Proof.
  intros Hok.
  destruct (get_current_user_cases db token Hok) as [E|(u & p & Hin & _ & _ & E)].
  - left. split; [exact E|]. unfold require_role, bind. now rewrite E.
  - right. exists u. split; [assumption|]. split; [exact E|].
    unfold require_role, bind. rewrite E.
    destruct (String.eqb_spec (User.role u) role) as [Er|Er]; [left|right];
      (split; [assumption | reflexivity]).
Qed.

Lemma require_role_outcomes_witness :
  require_role (H := Fixture.security) "admin" "x" (begin Fixture.db0)
  = (inl credentials_exception, begin Fixture.db0)
  /\ require_role (H := Fixture.security) "admin" "3:admin" (begin Fixture.db0)
     = (inr Fixture.root, begin Fixture.db0).
Proof.
  split.
  - destruct (require_role_outcomes (H := Fixture.security) Fixture.db0 "admin" "x"
                eq_refl) as [[_ E]|(u & _ & Hme & _)]; [exact E|].
    vm_compute in Hme. discriminate Hme.
  - destruct (require_role_outcomes (H := Fixture.security) Fixture.db0 "admin"
                "3:admin" eq_refl) as [[Hme _]|(u & _ & Hme & [[_ E]|[Hne _]])].
    + vm_compute in Hme. discriminate Hme.
    + vm_compute in Hme. injection Hme as <-. exact E.
    + vm_compute in Hme. injection Hme as <-. now destruct Hne.
Defined.

(** * Startup *)

Lemma create_admin_user_run `{AdminConfig} (db : DB) (now : Z) (salt : string) :
  filter (fun u => User.email u =? ADMIN_EMAIL) (users db) = [] ->
  create_admin_user now salt db
  = if db_ok (insert_User (admin_user salt (next_id (map User.id (users db))) now) db)
    then (inr tt,
          insert_User (admin_user salt (next_id (map User.id (users db))) now) db)
    else (inl IntegrityError, db).
Proof.
  intros E. unfold create_admin_user, AsyncSessionLocal.
  unfold bind at 1 2. unfold execute_select. cbn [work begin]. rewrite E.
  cbn [scalar_one_or_none ret]. unfold bind, add_User, commit. cbn [work store].
  now destruct (db_ok _).
Qed.

Lemma create_admin_user_cases `{AdminConfig} (db : DB) (now : Z) (salt : string) :
  db_ok db = true ->
  ((exists u, In u (users db) /\ User.email u = ADMIN_EMAIL)
   /\ create_admin_user now salt db = (inr tt, db))
  \/ ((forall u, In u (users db) -> User.email u <> ADMIN_EMAIL)
      /\ (forall u, In u (users db) -> User.username u <> ADMIN_USERNAME)
      /\ create_admin_user now salt db
         = (inr tt,
            insert_User (admin_user salt (next_id (map User.id (users db))) now) db))
  \/ ((forall u, In u (users db) -> User.email u <> ADMIN_EMAIL)
      /\ (exists u, In u (users db) /\ User.username u = ADMIN_USERNAME)
      /\ create_admin_user now salt db = (inl IntegrityError, db)).
Proof.
  intros Hok.
  pose proof (db_ok_inv db Hok) as ((_ & Hun & Hue) & _).
  destruct (by_string_at_most_one _ User.email (users db) ADMIN_EMAIL Hue)
    as [E|(x & Hin & Hx & E)].
  - assert (He : forall u, In u (users db) -> User.email u <> ADMIN_EMAIL).
    { intros u Hu Heq. pose proof (proj1 (filter_nil_iff _ _ _) E u Hu) as Hf.
      simpl in Hf. apply String.eqb_neq in Hf. contradiction. }
    right. rewrite (create_admin_user_run db now salt E).
    destruct (by_string_at_most_one _ User.username (users db) ADMIN_USERNAME Hun)
      as [En|(y & Hiny & Hy & En)].
    + left.
      assert (Hn : forall u, In u (users db) -> User.username u <> ADMIN_USERNAME).
      { intros u Hu Heq. pose proof (proj1 (filter_nil_iff _ _ _) En u Hu) as Hf.
        simpl in Hf. apply String.eqb_neq in Hf. contradiction. }
      split; [assumption|]. split; [assumption|].
      now rewrite db_ok_insert_User.
    + right. split; [assumption|]. split; [now exists y|].
      destruct (db_ok (insert_User
                         (admin_user salt (next_id (map User.id (users db))) now) db))
        eqn:Hbad; [exfalso|reflexivity].
      apply db_ok_inv in Hbad as ((_ & Hn' & _) & _).
      unfold insert_User in Hn'. cbn [users] in Hn'.
      assert (Heq : y = admin_user salt (next_id (map User.id (users db))) now).
      { apply (nodupb_clash_eq _ _ String.eqb User.username _ _ _ String.eqb_sym Hn').
        - apply in_or_app. now left.
        - apply in_or_app. right. now left.
        - rewrite Hy. apply String.eqb_refl. }
      apply (He y Hiny). now rewrite Heq.
  - left. split; [now exists x|].
    unfold create_admin_user, AsyncSessionLocal.
    unfold bind at 1 2. unfold execute_select. cbn [work begin]. now rewrite E.
Qed.

(** X21.  Seeding the administrator.  If a user is stored under the
    configured email nothing is written, whatever the role, name or password
    of that user: an account that already has the email is not promoted.
    Otherwise a user with the configured name and email, the hash of the
    configured password and the role ["admin"] is added under a new id,
    unless the name is taken, in which case the storage layer rejects the
    insert and startup fails with [IntegrityError]. *)
Theorem seed_admin `{AdminConfig} (db : DB) (now : Z) (salt : string) :
  db_ok db = true ->
  ((exists u, In u (users db) /\ User.email u = ADMIN_EMAIL) ->
   create_admin_user now salt db = (inr tt, db))
  /\ ((forall u, In u (users db) -> User.email u <> ADMIN_EMAIL) ->
      (forall u, In u (users db) -> User.username u <> ADMIN_USERNAME) ->
      exists row,
        create_admin_user now salt db = (inr tt, insert_User row db)
        /\ User.role row = "admin"
        /\ User.email row = ADMIN_EMAIL /\ User.username row = ADMIN_USERNAME
        /\ User.password row = bcrypt_hashpw ADMIN_PASSWORD salt
        /\ (forall u, In u (users db) -> (User.id u < User.id row)%Z))
  /\ ((forall u, In u (users db) -> User.email u <> ADMIN_EMAIL) ->
      (exists u, In u (users db) /\ User.username u = ADMIN_USERNAME) ->
      create_admin_user now salt db = (inl IntegrityError, db)).
Proof.
  intros Hok.
  destruct (create_admin_user_cases db now salt Hok)
    as [[(x & Hx & Hxe) E]|[(He & Hn & E)|(He & (y & Hy & Hyn) & E)]].
  - split; [intros _; exact E|].
    split; intros He; now destruct (He x Hx).
  - split; [intros (x & Hx & Hxe); now destruct (He x Hx)|]. split.
    + intros _ _. eexists. split; [exact E|]. repeat (split; [reflexivity|]).
      intros u Hu. apply next_id_fresh. now apply in_map.
    + intros _ (y & Hy & Hyn). now destruct (Hn y Hy).
  - split; [intros (x & Hx & Hxe); now destruct (He x Hx)|]. split.
    + intros _ Hn. now destruct (Hn y Hy).
    + intros _ _. exact E.
Qed.

Lemma seed_admin_witness :
  create_admin_user (H := SeedFixture.other) 900 "s" Fixture.db0 = (inr tt, Fixture.db0)
  /\ exists row,
      create_admin_user (H := SeedFixture.config) 900 "s" empty_db
      = (inr tt, insert_User row empty_db)
      /\ User.role row = "admin".
Proof.
  split.
  - destruct (seed_admin (H := SeedFixture.other) Fixture.db0 900 "s" eq_refl)
      as (Hthere & _).
    apply Hthere. exists Fixture.alice. simpl. tauto.
  - destruct (seed_admin (H := SeedFixture.config) empty_db 900 "s" eq_refl)
      as (_ & Hnew & _).
    destruct Hnew as (row & Hrun & Hrole & _); [intros u [] | intros u [] |].
    exists row. split; assumption.
Defined.

(** X22.  Seeding is idempotent: run again, at another time and with
    another salt, on the store that a first run left, it writes nothing, so a
    restart neither adds a second administrator nor replaces the stored
    password hash. *)
Theorem seed_admin_idempotent `{AdminConfig} (db : DB) (now now' : Z)
    (salt salt' : string) :
  db_ok db = true ->
  snd (create_admin_user now' salt' (snd (create_admin_user now salt db)))
  = snd (create_admin_user now salt db)
  /\ (fst (create_admin_user now salt db) = inr tt ->
      create_admin_user now' salt' (snd (create_admin_user now salt db))
      = (inr tt, snd (create_admin_user now salt db))).
Proof.
  intros Hok.
  destruct (create_admin_user_cases db now salt Hok)
    as [[Hx E]|[(He & Hn & E)|(He & Hy & E)]]; rewrite E; cbn [fst snd].
  - destruct (create_admin_user_cases db now' salt' Hok)
      as [[_ E']|[(He' & _)|(He' & _)]].
    + rewrite E'. now split.
    + destruct Hx as (x & Hx & Hxe). now destruct (He' x Hx).
    + destruct Hx as (x & Hx & Hxe). now destruct (He' x Hx).
  - assert (Hok' : db_ok (insert_User
                            (admin_user salt (next_id (map User.id (users db))) now) db)
                   = true) by now apply db_ok_insert_User.
    destruct (create_admin_user_cases _ now' salt' Hok')
      as [[_ E']|[(He' & _)|(He' & _)]].
    + rewrite E'. now split.
    + exfalso. apply (He' (admin_user salt (next_id (map User.id (users db))) now));
        [|reflexivity].
      unfold insert_User. cbn [users]. apply in_or_app. right. now left.
    + exfalso. apply (He' (admin_user salt (next_id (map User.id (users db))) now));
        [|reflexivity].
      unfold insert_User. cbn [users]. apply in_or_app. right. now left.
  - destruct (create_admin_user_cases db now' salt' Hok)
      as [[(x & Hx & Hxe) _]|[(_ & Hn' & _)|(_ & _ & E')]].
    + now destruct (He x Hx).
    + destruct Hy as (y & Hy & Hyn). now destruct (Hn' y Hy).
    + rewrite E'. split; [reflexivity | discriminate].
Qed.

Lemma seed_admin_idempotent_witness :
  create_admin_user (H := SeedFixture.config) 901 "t"
    (snd (create_admin_user (H := SeedFixture.config) 900 "s" empty_db))
  = (inr tt, snd (create_admin_user (H := SeedFixture.config) 900 "s" empty_db)).
Proof.
  destruct (seed_admin_idempotent (H := SeedFixture.config) empty_db 900 901 "s" "t"
              eq_refl) as (_ & Hagain).
  apply Hagain. reflexivity.
Defined.
